(** * DIDComm envelope pack/unpack, signed attachments and the did:key codec

    A shallow embedding of [src/index.ts] (classes [Ed25519PubEncoder] and
    [DIDComm]).  The file is organised bottom-up:

    - [Radix]: positional-numeral arithmetic shared by the Base58 proofs;
    - [Base58]: the algorithm of the npm package [base-58] that the source
      imports ([Base58.encode], [Base58.decode]);
    - [Base64]: the URL-safe base64 codec behind [sodium.to_base64] and
      [sodium.from_base64];
    - [Sodium]: the interface of the libsodium primitives the source calls,
      with the functional laws the proofs rely on;
    - the functions of [index.ts], in the order of the source;
    - the theorems. *)

From Stdlib Require Import String Ascii ZArith List Bool Lia Arith.
Import ListNotations.
Local Open Scope Z_scope.

Ltac Zify.zify_post_hook ::= Z.to_euclidean_division_equations.

(** A [Uint8Array] (and, for [Base58.encode], a plain array of numbers) is a
    list of integers; [is_bytes] says that every element is an octet. *)
Definition bytes := list Z.

Definition is_bytes (l : list Z) : Prop := Forall (fun b => 0 <= b < 256) l.

(** ** JavaScript 32-bit integer operators

    [<<], [>>], [&] and [|0] convert their operands with ToInt32. *)
Definition toInt32 (z : Z) : Z := (z + 2 ^ 31) mod 2 ^ 32 - 2 ^ 31.

Definition js_shl (a n : Z) : Z := toInt32 (Z.shiftl (toInt32 a) n).
Definition js_shr (a n : Z) : Z := Z.shiftr (toInt32 a) n.
Definition js_and (a b : Z) : Z := Z.land (toInt32 a) (toInt32 b).
(** [(a / b) | 0]: the quotient truncated towards zero, as an int32. *)
Definition js_div_or0 (a b : Z) : Z := toInt32 (Z.quot a b).
(** [a % b] on integers. *)
Definition js_rem (a b : Z) : Z := Z.rem a b.

Lemma toInt32_small z : - 2 ^ 31 <= z < 2 ^ 31 -> toInt32 z = z.
Proof. unfold toInt32. intros H. change (2 ^ 31) with 2147483648 in *. change (2 ^ 32) with 4294967296. lia. Qed.

(** ** Positional numerals, least significant digit first *)
Module Radix.
Section Radix.
Variable B : Z.

Fixpoint val (ds : list Z) : Z :=
  match ds with
  | [] => 0
  | d :: r => d + B * val r
  end.

Definition digits_ok (ds : list Z) : Prop := Forall (fun d => 0 <= d < B) ds.

(** The numeral the loops of the library maintain: [[0]] for zero, and
    otherwise no zero in the most significant place. *)
Definition repr (v : Z) (ds : list Z) : Prop :=
  digits_ok ds /\ val ds = v /\ (ds = [0] \/ last ds 0 <> 0).

(** The carry loop [for j: t = ds[j] + carry; carry = t / B; ds[j] = t mod B]. *)
Fixpoint propagate (ds : list Z) (carry : Z) : list Z * Z :=
  match ds with
  | [] => ([], carry)
  | d :: r =>
      let t := d + carry in
      let '(r', c') := propagate r (t / B) in
      (t mod B :: r', c')
  end.

(** [while (carry) { push (carry mod B); carry = carry / B }]. *)
Fixpoint push_carry (fuel : nat) (carry : Z) : list Z :=
  match fuel with
  | O => []
  | S f => if carry =? 0 then [] else (carry mod B) :: push_carry f (carry / B)
  end.

(** One round: scale every digit by [M], add [x] to the lowest, renormalise. *)
Definition muladd (fuel : nat) (M : Z) (ds : list Z) (x : Z) : list Z :=
  let scaled := map (fun d => d * M) ds in
  let bumped := match scaled with [] => [] | d :: r => (d + x) :: r end in
  let '(ds', c) := propagate bumped 0 in
  ds' ++ push_carry fuel c.

(** Value of a most-significant-first sequence in radix [M]. *)
Definition valBE (M : Z) (l : list Z) : Z := fold_left (fun acc x => acc * M + x) l 0.

End Radix.
End Radix.
(** ** The [base-58] package

    [index.ts] imports the npm package [base-58] and calls [Base58.encode] on
    arrays of numbers and [Base58.decode] on strings.  The definitions below
    follow the package's two loops statement by statement; numerals are kept
    least significant digit first, as the package's [digits] and [bytes]
    arrays are, and reversed at the end. *)
Module Base58.

Definition ALPHABET : string :=
  "123456789ABCDEFGHJKLMNPQRSTUVWXYZabcdefghijkmnopqrstuvwxyz".

Fixpoint index_of (c : ascii) (s : string) (i : Z) : option Z :=
  match s with
  | EmptyString => None
  | String a r => if Ascii.eqb a c then Some i else index_of c r (i + 1)
  end.

(** [ALPHABET_MAP[c]], [None] when [!(c in ALPHABET_MAP)]. *)
Definition ALPHABET_MAP (c : ascii) : option Z := index_of c ALPHABET 0.

(** [ALPHABET[digit]], [None] for [undefined]. *)
Definition alphabet_at (d : Z) : option ascii :=
  if d <? 0 then None else String.get (Z.to_nat d) ALPHABET.

(** [digits.map(d => ALPHABET[d]).join("")]: [join] prints [undefined] as the
    empty string. *)
Fixpoint join_digits (ds : list Z) : string :=
  match ds with
  | [] => EmptyString
  | d :: r =>
      match alphabet_at d with
      | Some c => String c (join_digits r)
      | None => join_digits r
      end
  end.

(** [for j: digits[j] += carry; carry = (digits[j] / 58) | 0; digits[j] %= 58]. *)
Fixpoint encode_carry_loop (digits : list Z) (carry : Z) : list Z * Z :=
  match digits with
  | [] => ([], carry)
  | d :: r =>
      let d' := d + carry in
      let '(r', c') := encode_carry_loop r (js_div_or0 d' 58) in
      (js_rem d' 58 :: r', c')
  end.

(** [while (carry) { digits.push(carry % 58); carry = (carry / 58) | 0 }].
    The carry is an int32, so six divisions by 58 exhaust it. *)
Fixpoint encode_push (fuel : nat) (carry : Z) : list Z :=
  match fuel with
  | O => []
  | S f => if carry =? 0 then [] else js_rem carry 58 :: encode_push f (js_div_or0 carry 58)
  end.

(** The body of the loop over [buffer]. *)
Definition encode_step (digits : list Z) (b : Z) : list Z :=
  let shifted := map (fun d => js_shl d 8) digits in
  let bumped := match shifted with [] => [] | d :: r => (d + b) :: r end in
  let '(digits', carry) := encode_carry_loop bumped 0 in
  digits' ++ encode_push 6 carry.

(** [i = 0; while (buffer[i] === 0 && i < buffer.length - 1) i++]. *)
Fixpoint leading_zeros (buffer : list Z) : nat :=
  match buffer with
  | b :: (_ :: _) as r => if b =? 0 then S (leading_zeros r) else O
  | _ => O
  end.

Definition encode (buffer : list Z) : string :=
  match buffer with
  | [] => EmptyString
  | _ =>
      let digits := fold_left encode_step buffer [0] in
      let digits := digits ++ repeat 0 (leading_zeros buffer) in
      join_digits (rev digits)
  end.

(** [for j: bytes[j] += carry; carry = bytes[j] >> 8; bytes[j] &= 0xff]. *)
Fixpoint decode_carry_loop (bs : list Z) (carry : Z) : list Z * Z :=
  match bs with
  | [] => ([], carry)
  | b :: r =>
      let b' := b + carry in
      let '(r', c') := decode_carry_loop r (js_shr b' 8) in
      (js_and b' 255 :: r', c')
  end.

(** [while (carry) { bytes.push(carry & 0xff); carry >>= 8 }]. *)
Fixpoint decode_push (fuel : nat) (carry : Z) : list Z :=
  match fuel with
  | O => []
  | S f => if carry =? 0 then [] else js_and carry 255 :: decode_push f (js_shr carry 8)
  end.

Definition decode_step (bs : list Z) (d : Z) : list Z :=
  let scaled := map (fun b => b * 58) bs in
  let bumped := match scaled with [] => [] | b :: r => (b + d) :: r end in
  let '(bs', carry) := decode_carry_loop bumped 0 in
  bs' ++ decode_push 4 carry.

(** The loop over the characters; [None] is the exception thrown on a
    character outside the alphabet. *)
Fixpoint decode_chars (s : string) (bs : list Z) : option (list Z) :=
  match s with
  | EmptyString => Some bs
  | String c r =>
      match ALPHABET_MAP c with
      | None => None
      | Some d => decode_chars r (decode_step bs d)
      end
  end.

(** [i = 0; while (string[i] === "1" && i < string.length - 1) i++]. *)
Fixpoint leading_ones (s : string) : nat :=
  match s with
  | String c (String _ _ as r) => if Ascii.eqb c "1" then S (leading_ones r) else O
  | _ => O
  end.

(** [new Uint8Array(array)] stores every element modulo 256. *)
Definition Uint8Array_of (l : list Z) : bytes := map (fun x => x mod 256) l.

Definition decode (s : string) : option bytes :=
  match s with
  | EmptyString => Some []
  | _ =>
      match decode_chars s [0] with
      | None => None
      | Some bs => Some (Uint8Array_of (rev (bs ++ repeat 0 (leading_ones s))))
      end
  end.

End Base58.

(** ** URL-safe base64

    [sodium.to_base64] and [sodium.from_base64] for the two variants the
    source names, [URLSAFE] (padded) and [URLSAFE_NO_PADDING].  Three octets
    make four sextets; [from_base64] reads the longest run of alphabet
    characters, rejects a dangling sextet and non-zero trailing bits, and for
    the padded variant demands exactly the missing [=] characters and then
    the end of the input. *)
Module Base64.

Inductive variant : Set := URLSAFE | URLSAFE_NO_PADDING.

Definition code (c : ascii) : Z := Z.of_N (N_of_ascii c).
Definition chr (z : Z) : ascii := ascii_of_N (Z.to_N z).

Definition byte_to_urlsafe_char (x : Z) : ascii :=
  chr (if x <? 26 then x + 65          (* 'A' .. 'Z' *)
       else if x <? 52 then x + 71     (* 'a' .. 'z' *)
       else if x <? 62 then x - 4      (* '0' .. '9' *)
       else if x =? 62 then 45         (* '-' *)
       else 95).                       (* '_' *)

Definition urlsafe_char_to_byte (c : ascii) : option Z :=
  let n := code c in
  if (65 <=? n) && (n <=? 90) then Some (n - 65)
  else if (97 <=? n) && (n <=? 122) then Some (n - 71)
  else if (48 <=? n) && (n <=? 57) then Some (n + 4)
  else if n =? 45 then Some 62
  else if n =? 95 then Some 63
  else None.

Fixpoint encode_sextets (bin : list Z) : list Z :=
  match bin with
  | a :: b :: c :: rest =>
      a / 4 :: (a mod 4) * 16 + b / 16 :: (b mod 16) * 4 + c / 64 :: c mod 64
        :: encode_sextets rest
  | [a; b] => [a / 4; (a mod 4) * 16 + b / 16; (b mod 16) * 4]
  | [a] => [a / 4; (a mod 4) * 16]
  | [] => []
  end.

(** Number of [=] characters that complete the last group. *)
Definition padding_len (bin : list Z) : nat :=
  match (length bin mod 3)%nat with
  | 1%nat => 2%nat
  | 2%nat => 1%nat
  | _ => 0%nat
  end.

Fixpoint equals (n : nat) : string :=
  match n with
  | O => EmptyString
  | S k => String "=" (equals k)
  end.

Fixpoint chars_of (sextets : list Z) : string :=
  match sextets with
  | [] => EmptyString
  | x :: r => String (byte_to_urlsafe_char x) (chars_of r)
  end.

Definition to_base64 (bin : bytes) (v : variant) : string :=
  let body := chars_of (encode_sextets bin) in
  match v with
  | URLSAFE => body ++ equals (padding_len bin)
  | URLSAFE_NO_PADDING => body
  end.

(** The sextets of the longest prefix made of alphabet characters, and what
    follows it. *)
Fixpoint span_alphabet (s : string) : list Z * string :=
  match s with
  | EmptyString => ([], EmptyString)
  | String c r =>
      match urlsafe_char_to_byte c with
      | Some d => let '(ds, rest) := span_alphabet r in (d :: ds, rest)
      | None => ([], s)
      end
  end.

(** The octets of a run of sextets and the padding the run calls for;
    [None] for a dangling sextet or non-zero trailing bits. *)
Fixpoint decode_sextets (l : list Z) : option (list Z * nat) :=
  match l with
  | s0 :: s1 :: s2 :: s3 :: rest =>
      match decode_sextets rest with
      | Some (bs, p) =>
          Some (s0 * 4 + s1 / 16 :: (s1 mod 16) * 16 + s2 / 4 :: (s2 mod 4) * 64 + s3 :: bs, p)
      | None => None
      end
  | [s0; s1; s2] =>
      if s2 mod 4 =? 0 then Some ([s0 * 4 + s1 / 16; (s1 mod 16) * 16 + s2 / 4], 1%nat) else None
  | [s0; s1] =>
      if s1 mod 16 =? 0 then Some ([s0 * 4 + s1 / 16], 2%nat) else None
  | [_] => None
  | [] => Some ([], 0%nat)
  end.

Definition from_base64 (s : string) (v : variant) : option bytes :=
  let '(sextets, rest) := span_alphabet s in
  match decode_sextets sextets with
  | None => None
  | Some (bs, p) =>
      match v with
      | URLSAFE => if String.eqb rest (equals p) then Some bs else None
      | URLSAFE_NO_PADDING => if String.eqb rest EmptyString then Some bs else None
      end
  end.

End Base64.

(** ** Exceptions and results

    One constructor per [throw] of [index.ts], and one per collaborator that
    can raise: [Base58.decode] (a character outside the alphabet), a
    libsodium-wrappers call (named by the primitive), [JSON.parse], and the
    JavaScript run time itself (a property read off [undefined] or [null], an
    argument of the wrong type). *)
Inductive Error : Set :=
| UnsupportedKeyType      (* 'Only ed25519 keys are supported' *)
| UnsupportedAlgorithm    (* 'Unsupported pack algorithm: ' + alg *)
| MalformedRecipient      (* 'Invalid recipient header' *)
| MissingSenderKey        (* 'Sender public key not provided in Authcrypt message' *)
| RecipientNotFound       (* 'No corresponding recipient key found in recipients' *)
| Base58Error
| SodiumError (primitive : string)
| JSONSyntaxError
| TypeError.

Inductive result (A : Type) : Type :=
| Ok (a : A)
| Throw (e : Error).
Arguments Ok {A} a.
Arguments Throw {A} e.

Definition bind {A B} (r : result A) (k : A -> result B) : result B :=
  match r with
  | Ok a => k a
  | Throw e => Throw e
  end.

Definition of_option {A} (o : option A) (e : Error) : result A :=
  match o with
  | Some a => Ok a
  | None => Throw e
  end.

Declare Scope js_scope.
Delimit Scope js_scope with js.
Notation "x <- r ;; k" := (bind r (fun x => k))
  (at level 61, r at next level, right associativity) : js_scope.
Notation "' p <- r ;; k" := (bind r (fun x => let 'p := x in k))
  (at level 61, p pattern, r at next level, right associativity) : js_scope.

Definition is_error {A} (e : Error) (r : result A) : bool :=
  match r with
  | Throw e' =>
      match e, e' with
      | UnsupportedKeyType, UnsupportedKeyType
      | UnsupportedAlgorithm, UnsupportedAlgorithm
      | MalformedRecipient, MalformedRecipient
      | MissingSenderKey, MissingSenderKey
      | RecipientNotFound, RecipientNotFound
      | Base58Error, Base58Error
      | JSONSyntaxError, JSONSyntaxError
      | TypeError, TypeError => true
      | SodiumError p, SodiumError q => String.eqb p q
      | _, _ => false
      end
  | Ok _ => false
  end.

(** ** JSON values

    What [JSON.parse] returns and [JSON.stringify] accepts.  An object is the
    list of its own properties in enumeration order; numbers are restricted
    to integers. *)
#[local] Unset Elimination Schemes.
Inductive json : Set :=
| JNull
| JBool (b : bool)
| JNumber (z : Z)
| JString (s : string)
| JArray (items : list json)
| JObject (fields : list (string * json)).
#[local] Set Elimination Schemes.

Fixpoint distinct (keys : list string) : bool :=
  match keys with
  | [] => true
  | k :: r => negb (existsb (String.eqb k) r) && distinct r
  end.

(** A value built from object literals: no object names a property twice. *)
Fixpoint json_wf (v : json) : bool :=
  match v with
  | JArray items =>
      (fix all (l : list json) : bool :=
         match l with [] => true | x :: r => json_wf x && all r end) items
  | JObject fields =>
      distinct (map fst fields) &&
      (fix all (l : list (string * json)) : bool :=
         match l with [] => true | (_, x) :: r => json_wf x && all r end) fields
  | _ => true
  end.

Fixpoint lookup (k : string) (fields : list (string * json)) : option json :=
  match fields with
  | [] => None
  | (k', v) :: r => if String.eqb k k' then Some v else lookup k r
  end.

(** [o.k]: [Ok None] is [undefined]; reading a property of [null] or
    [undefined] throws. *)
Definition get (k : string) (o : option json) : result (option json) :=
  match o with
  | None | Some JNull => Throw TypeError
  | Some (JObject fields) => Ok (lookup k fields)
  | Some _ => Ok None
  end.

(** [k in o]: throws on a primitive. *)
Definition has (k : string) (o : json) : result bool :=
  match o with
  | JObject fields => Ok (match lookup k fields with Some _ => true | None => false end)
  | JArray _ => Ok false
  | _ => Throw TypeError
  end.

(** JavaScript truthiness of a value read from parsed JSON. *)
Definition truthy (v : option json) : bool :=
  match v with
  | None | Some JNull | Some (JBool false) => false
  | Some (JNumber z) => negb (z =? 0)
  | Some (JString s) => negb (String.eqb s EmptyString)
  | Some _ => true
  end.

(** The value handed to a function that works on strings.  The model covers
    the envelopes whose fields are texts, as those [packMessage] writes are:
    a field of another type is reported as [TypeError], although JavaScript
    would coerce some such values (an array of one-character strings passes
    for a text). *)
Definition as_string (v : option json) : result string :=
  match v with
  | Some (JString s) => Ok s
  | _ => Throw TypeError
  end.

(** The values [for (let index in x) { x[index] }] visits. *)
Definition for_in_values (x : option json) : list json :=
  match x with
  | Some (JArray items) => items
  | Some (JObject fields) => map snd fields
  | Some (JString s) => map (fun c => JString (String c EmptyString)) (list_ascii_of_string s)
  | _ => []
  end.

(** [JSON.stringify] and [JSON.parse]. *)
Class JSON : Type := {
  JSON_stringify : json -> string;
  JSON_parse : string -> option json;
}.

Class JSONLaws (J : JSON) : Prop := {
  JSON_parse_stringify : forall v, json_wf v = true -> JSON_parse (JSON_stringify v) = Some v;
}.

(** ** libsodium

    A key pair as [crypto_sign_keypair] returns it. *)
Record KeyPair : Type := {
  publicKey : bytes;
  privateKey : bytes;
}.

(** The argument of [to_base64] and of the cryptographic calls is a string
    or a [Uint8Array]. *)
Inductive any : Type :=
| Str (s : string)
| Bin (b : bytes).

Definition crypto_aead_chacha20poly1305_ietf_NPUBBYTES : nat := 12.
Definition crypto_aead_xchacha20poly1305_ietf_NPUBBYTES : nat := 24.
Definition crypto_aead_chacha20poly1305_ietf_KEYBYTES : nat := 32.
Definition crypto_box_NONCEBYTES : nat := 24.
Definition crypto_box_SEALBYTES : nat := 48.

(** The primitives [index.ts] calls.  Randomised calls thread the state of
    the generator; a call that can raise returns [None] when it does. *)
Class Sodium : Type := {
  rng : Type;
  randombytes_buf : nat -> rng -> bytes * rng;
  crypto_secretstream_xchacha20poly1305_keygen : rng -> bytes * rng;
  crypto_sign_keypair : rng -> KeyPair * rng;
  crypto_sign_ed25519_pk_to_curve25519 : bytes -> option bytes;
  crypto_sign_ed25519_sk_to_curve25519 : bytes -> option bytes;
  crypto_box_seal : bytes -> bytes -> rng -> bytes * rng;
  crypto_box_seal_open : bytes -> bytes -> bytes -> option bytes;
  crypto_box_easy : bytes -> bytes -> bytes -> bytes -> bytes;
  crypto_box_open_easy : bytes -> bytes -> bytes -> bytes -> option bytes;
  crypto_aead_chacha20poly1305_ietf_encrypt_detached :
    bytes -> bytes -> bytes -> bytes -> bytes * bytes;
  crypto_aead_chacha20poly1305_ietf_decrypt_detached :
    bytes -> bytes -> bytes -> bytes -> bytes -> option bytes;
  crypto_sign_detached : bytes -> bytes -> option bytes;
  crypto_sign_verify_detached : bytes -> bytes -> bytes -> option bool;
  from_string : string -> bytes;
  to_string : bytes -> option string;
  (** The pairs [(publicKey, privateKey)] that are Ed25519 key pairs, and the
      pairs that are Curve25519 key pairs. *)
  ed25519_keypair : bytes -> bytes -> Prop;
  curve25519_keypair : bytes -> bytes -> Prop;
}.

Definition code_units (s : string) : bytes :=
  map (fun c => Z.of_N (N_of_ascii c)) (list_ascii_of_string s).

Definition is_ascii7 (s : string) : Prop :=
  Forall (fun b => 0 <= b < 128) (code_units s).

(** What the proofs use of the primitives: results are byte strings of the
    documented sizes, and opening, decrypting or verifying with the matching
    key undoes sealing, encrypting or signing. *)
Class SodiumLaws (S : Sodium) : Prop := {
  randombytes_buf_bytes : forall n g, is_bytes (fst (randombytes_buf n g));
  randombytes_buf_length : forall n g, length (fst (randombytes_buf n g)) = n;
  keygen_bytes : forall g, is_bytes (fst (crypto_secretstream_xchacha20poly1305_keygen g));
  keygen_length : forall g,
    length (fst (crypto_secretstream_xchacha20poly1305_keygen g))
    = crypto_aead_chacha20poly1305_ietf_KEYBYTES;
  keypair_generated : forall g,
    ed25519_keypair (publicKey (fst (crypto_sign_keypair g)))
                    (privateKey (fst (crypto_sign_keypair g)));
  ed25519_public_bytes : forall pk sk, ed25519_keypair pk sk -> is_bytes pk /\ length pk = 32%nat;
  ed25519_to_curve25519 : forall pk sk, ed25519_keypair pk sk ->
    exists cpk csk,
      crypto_sign_ed25519_pk_to_curve25519 pk = Some cpk /\
      crypto_sign_ed25519_sk_to_curve25519 sk = Some csk /\
      curve25519_keypair cpk csk;
  seal_bytes : forall m pk g, is_bytes (fst (crypto_box_seal m pk g));
  seal_length : forall m pk g,
    length (fst (crypto_box_seal m pk g)) = (length m + crypto_box_SEALBYTES)%nat;
  seal_open_seal : forall m pk sk g, is_bytes m -> curve25519_keypair pk sk ->
    crypto_box_seal_open (fst (crypto_box_seal m pk g)) pk sk = Some m;
  box_bytes : forall m n pk sk, is_bytes (crypto_box_easy m n pk sk);
  box_open_box : forall m n pkR skR pkS skS,
    is_bytes m -> curve25519_keypair pkR skR -> curve25519_keypair pkS skS ->
    length n = crypto_box_NONCEBYTES ->
    crypto_box_open_easy (crypto_box_easy m n pkR skS) n pkS skR = Some m;
  aead_bytes : forall m ad n k,
    is_bytes (fst (crypto_aead_chacha20poly1305_ietf_encrypt_detached m ad n k)) /\
    is_bytes (snd (crypto_aead_chacha20poly1305_ietf_encrypt_detached m ad n k));
  aead_decrypt_encrypt : forall m ad n k,
    is_bytes m ->
    length n = crypto_aead_chacha20poly1305_ietf_NPUBBYTES ->
    length k = crypto_aead_chacha20poly1305_ietf_KEYBYTES ->
    crypto_aead_chacha20poly1305_ietf_decrypt_detached
      (fst (crypto_aead_chacha20poly1305_ietf_encrypt_detached m ad n k))
      (snd (crypto_aead_chacha20poly1305_ietf_encrypt_detached m ad n k)) ad n k = Some m;
  sign_verify : forall m pk sk, ed25519_keypair pk sk ->
    exists sig,
      crypto_sign_detached m sk = Some sig /\ is_bytes sig /\
      crypto_sign_verify_detached sig m pk = Some true;
  from_string_bytes : forall s, is_bytes (from_string s);
  to_string_from_string : forall s, to_string (from_string s) = Some s;
  from_string_ascii : forall s, is_ascii7 s -> from_string s = code_units s;
}.

(** ** [class Ed25519PubEncoder] *)
Module Ed25519PubEncoder.

Definition name : string := "ed25519-pub".
Definition code : Z := 0xed01.

(** [s.slice(n)] *)
Fixpoint slice (n : nat) (s : string) : string :=
  match n, s with
  | O, _ => s
  | S k, String _ r => slice k r
  | S _, EmptyString => EmptyString
  end.

Definition startsWith (s p : string) : bool := String.prefix p s.

(** [`did:key:z${Base58.encode([this.code, ...bytes])}`]: the array handed to
    [Base58.encode] opens with the single number [0xed01]. *)
Definition encode (key : bytes) : string :=
  ("did:key:z" ++ Base58.encode (code :: key))%string.

Definition decode (key : string) : result bytes :=
  if negb (startsWith key "did:key:z6Mk") then Throw UnsupportedKeyType
  else
    match Base58.decode (slice (String.length "did:key:z") key) with
    | Some bs => Ok (skipn 2 bs)
    | None => Throw Base58Error
    end.

End Ed25519PubEncoder.

(** ** [class DIDComm] *)

(** [b64dec]: [while (input.length % 4 !== 0) input += '='], then
    [from_base64(input, URLSAFE)].  The loop runs at most three times. *)
Fixpoint pad_loop (fuel : nat) (input : string) : string :=
  match fuel with
  | O => input
  | S f =>
      if negb (Nat.eqb (String.length input mod 4) 0)
      then pad_loop f (input ++ "=")%string
      else input
  end.

Definition b64dec (input : string) : result bytes :=
  of_option (Base64.from_base64 (pad_loop 3 input) Base64.URLSAFE) (SodiumError "from_base64").

(** [ISignedAttachment] *)
Record Jws : Type := {
  jws_header_kid : string;
  jws_protected : string;
  jws_signature : string;
}.

Record ISignedAttachment : Type := {
  mime_type : string;
  data_base64 : string;
  data_jws : Jws;
}.

(** [IUnpackedMsg]; [senderKey] is [null] for an anonymous envelope. *)
Record IUnpackedMsg : Type := {
  message : string;
  recipientKey : string;
  senderKey : option string;
}.

(** The key pair [unpackMessage] receives: either field may be a
    [Uint8Array] or its base-58 text. *)
Record KeyPairArg : Type := {
  publicKeyArg : any;
  privateKeyArg : any;
}.

Definition raw_keys (k : KeyPair) : KeyPairArg :=
  {| publicKeyArg := Bin (publicKey k); privateKeyArg := Bin (privateKey k) |}.

(** The first argument of [unpackMessage]. *)
Inductive envelope : Type :=
| EnvelopeText (s : string)
| EnvelopeObject (w : json).

(** [sodium.memcmp]: refuses arrays of different lengths. *)
Definition memcmp (b1 b2 : bytes) : result bool :=
  if Nat.eqb (length b1) (length b2)
  then Ok (forallb (fun p => fst p =? snd p) (combine b1 b2))
  else Throw (SodiumError "memcmp").

(** [Buffer.from(s, 'ascii')] keeps the low octet of every code unit. *)
Definition Buffer_from_ascii (s : string) : bytes := code_units s.

Section DIDComm.
Context {S : Sodium} {J : JSON}.
Local Open Scope js_scope.
Local Open Scope string_scope.

(** Pack-side code draws from the generator: a state and exception monad. *)
Definition M (A : Type) : Type := rng -> result A * rng.

Definition ret {A} (a : A) : M A := fun g => (Ok a, g).

Definition bindM {A B} (m : M A) (k : A -> M B) : M B :=
  fun g =>
    match m g with
    | (Ok a, g') => k a g'
    | (Throw e, g') => (Throw e, g')
    end.

Definition lift {A} (r : result A) : M A := fun g => (r, g).

Definition draw {A} (f : rng -> A * rng) : M A :=
  fun g => let '(a, g') := f g in (Ok a, g').

Notation "x <~ m ;; k" := (bindM m (fun x => k))
  (at level 61, m at next level, right associativity).
Notation "' p <~ m ;; k" := (bindM m (fun x => let 'p := x in k))
  (at level 61, p pattern, m at next level, right associativity).

(** [Buffer.from(s)] encodes in UTF-8, as [sodium.from_string] does. *)
Definition Buffer_from (s : string) : bytes := from_string s.

Definition any_to_Uint8Array (input : any) : bytes :=
  match input with
  | Str s => from_string s
  | Bin b => b
  end.

Definition b64url (input : any) (pad : bool) : string :=
  let padding := if pad then Base64.URLSAFE else Base64.URLSAFE_NO_PADDING in
  Base64.to_base64 (any_to_Uint8Array input) padding.

Definition strB64dec (input : string) : result string :=
  bs <- b64dec input ;;
  of_option (to_string bs) (SodiumError "to_string").

Definition encryptPlaintext (message : string) (addData : string) (key : bytes)
  : M (bytes * bytes * bytes) :=
  iv <~ draw (randombytes_buf crypto_aead_chacha20poly1305_ietf_NPUBBYTES) ;;
  let out := crypto_aead_chacha20poly1305_ietf_encrypt_detached
               (from_string message) (from_string addData) iv key in
  ret (fst out, snd out, iv).

Definition decryptPlaintext (ciphertext mac : bytes) (recipsBin : string) (nonce key : bytes)
  : result string :=
  plain <- of_option
             (crypto_aead_chacha20poly1305_ietf_decrypt_detached
                ciphertext mac (from_string recipsBin) nonce key)
             (SodiumError "crypto_aead_chacha20poly1305_ietf_decrypt_detached") ;;
  of_option (to_string plain) (SodiumError "to_string").

(** The body of [toKeys.forEach] in [prepareRecipientKeys]. *)
Definition recipient_entry (cek : bytes) (fromKeys : option KeyPair) (targetVk : bytes) : M json :=
  targetPk <~ lift (of_option (crypto_sign_ed25519_pk_to_curve25519 targetVk)
                              (SodiumError "crypto_sign_ed25519_pk_to_curve25519")) ;;
  '(encCek, encSender, nonce) <~
    match fromKeys with
    | Some fk =>
        let senderVk := Base58.encode (publicKey fk) in
        senderSk <~ lift (of_option (crypto_sign_ed25519_sk_to_curve25519 (privateKey fk))
                                    (SodiumError "crypto_sign_ed25519_sk_to_curve25519")) ;;
        encSender <~ draw (crypto_box_seal (from_string senderVk) targetPk) ;;
        nonce <~ draw (randombytes_buf crypto_box_NONCEBYTES) ;;
        ret (crypto_box_easy cek nonce targetPk senderSk, Some encSender, Some nonce)
    | None =>
        encCek <~ draw (crypto_box_seal cek targetPk) ;;
        ret (encCek, None, None)
    end ;;
  ret (JObject
         [("encrypted_key", JString (b64url (Bin encCek) true));
          ("header",
           JObject
             [("iv", match nonce with Some n => JString (b64url (Bin n) true) | None => JNull end);
              ("kid", JString (Base58.encode targetVk));
              ("sender",
               match encSender with Some s => JString (b64url (Bin s) true) | None => JNull end)])]).

(** [toKeys.forEach(... recips.push(...))] *)
Fixpoint forEach_recipient (cek : bytes) (fromKeys : option KeyPair)
    (toKeys : list bytes) (recips : list json) : M (list json) :=
  match toKeys with
  | [] => ret recips
  | targetVk :: rest =>
      r <~ recipient_entry cek fromKeys targetVk ;;
      forEach_recipient cek fromKeys rest (recips ++ [r])
  end.

Definition prepareRecipientKeys (toKeys : list bytes) (fromKeys : option KeyPair)
  : M (string * bytes) :=
  cek <~ draw crypto_secretstream_xchacha20poly1305_keygen ;;
  recips <~ forEach_recipient cek fromKeys toKeys [] ;;
  let data :=
    JObject
      [("alg", JString (match fromKeys with Some _ => "Authcrypt" | None => "Anoncrypt" end));
       ("enc", JString "xchacha20poly1305_ietf");
       ("recipients", JArray recips);
       ("typ", JString "JWM/1.0")] in
  ret (JSON_stringify data, cek).

Definition packMessage (message : string) (toKeys : list bytes) (fromKeys : option KeyPair)
  : M string :=
  '(recipsJson, cek) <~ prepareRecipientKeys toKeys fromKeys ;;
  let recipsB64 := b64url (Str recipsJson) true in
  '(ciphertext, tag, iv) <~ encryptPlaintext message recipsB64 cek ;;
  ret (JSON_stringify
         (JObject
            [("ciphertext", JString (b64url (Bin ciphertext) true));
             ("iv", JString (b64url (Bin iv) true));
             ("protected", JString recipsB64);
             ("tag", JString (b64url (Bin tag) true))])).

(** [if (typeof k === 'string') k = Base58.decode(k)] *)
Definition normalize_key (k : any) : result bytes :=
  match k with
  | Str s => of_option (Base58.decode s) Base58Error
  | Bin b => Ok b
  end.

(** The body of the [for ... in] loop of [locateRecKey] for one entry.  Every
    path through it ends in [throw] or [return]. *)
Definition locateRecKey_entry (recip : json) (pubKey privKey : bytes) (notFound : list string)
  : result (bytes * option string * string) :=
  has_header <- has "header" recip ;;
  has_key <- (if has_header then has "encrypted_key" recip else Ok false) ;;
  if negb has_header || negb has_key then Throw MalformedRecipient
  else
    header <- get "header" (Some recip) ;;
    kid_v <- get "kid" header ;;
    kid <- as_string kid_v ;;
    recipVk <- of_option (Base58.decode kid) Base58Error ;;
    same <- memcmp recipVk pubKey ;;
    let notFound := if negb same then (notFound ++ [kid])%list else notFound in
    pk <- of_option (crypto_sign_ed25519_pk_to_curve25519 pubKey)
                    (SodiumError "crypto_sign_ed25519_pk_to_curve25519") ;;
    sk <- of_option (crypto_sign_ed25519_sk_to_curve25519 privKey)
                    (SodiumError "crypto_sign_ed25519_sk_to_curve25519") ;;
    ek_v <- get "encrypted_key" (Some recip) ;;
    ek <- as_string ek_v ;;
    encrytpedKey <- b64dec ek ;;
    iv_v <- get "iv" header ;;
    nonce <- (if truthy iv_v
              then iv <- as_string iv_v ;; n <- b64dec iv ;; Ok (Some n)
              else Ok None) ;;
    sender_v <- get "sender" header ;;
    encSender <- (if truthy sender_v
                  then s <- as_string sender_v ;; e <- b64dec s ;; Ok (Some e)
                  else Ok None) ;;
    match nonce, encSender with
    | Some nonce, Some encSender =>
        opened <- of_option (crypto_box_seal_open encSender pk sk)
                            (SodiumError "crypto_box_seal_open") ;;
        senderVk <- of_option (to_string opened) (SodiumError "to_string") ;;
        senderRaw <- of_option (Base58.decode senderVk) Base58Error ;;
        senderPk <- of_option (crypto_sign_ed25519_pk_to_curve25519 senderRaw)
                              (SodiumError "crypto_sign_ed25519_pk_to_curve25519") ;;
        cek <- of_option (crypto_box_open_easy encrytpedKey nonce senderPk sk)
                         (SodiumError "crypto_box_open_easy") ;;
        Ok (cek, Some senderVk, kid)
    | _, _ =>
        cek <- of_option (crypto_box_seal_open encrytpedKey pk sk)
                         (SodiumError "crypto_box_seal_open") ;;
        Ok (cek, None, kid)
    end.

(** [for (let index in recipients) { ... return ... }] and the [throw] after
    the loop.  The body leaves the function on its first run, so the entries
    after the first are never read. *)
Definition locateRecKey (recipients : option json) (pubKey privKey : bytes)
  : result (bytes * option string * string) :=
  match for_in_values recipients with
  | [] => Throw RecipientNotFound
  | recip :: _ => locateRecKey_entry recip pubKey privKey []
  end.

Definition unpackMessage (encMsg : envelope) (toKeys : KeyPairArg) : result IUnpackedMsg :=
  wrapper <- match encMsg with
             | EnvelopeText s => of_option (JSON_parse s) JSONSyntaxError
             | EnvelopeObject w => Ok w
             end ;;
  pubKey <- normalize_key (publicKeyArg toKeys) ;;
  privKey <- normalize_key (privateKeyArg toKeys) ;;
  protected_v <- get "protected" (Some wrapper) ;;
  protected <- as_string protected_v ;;
  recipsJson <- strB64dec protected ;;
  recipsOuter <- of_option (JSON_parse recipsJson) JSONSyntaxError ;;
  alg <- get "alg" (Some recipsOuter) ;;
  let isAuthcrypt := match alg with Some (JString a) => String.eqb a "Authcrypt" | _ => false end in
  let isAnoncrypt := match alg with Some (JString a) => String.eqb a "Anoncrypt" | _ => false end in
  if negb isAuthcrypt && negb isAnoncrypt then Throw UnsupportedAlgorithm
  else
    recipients <- get "recipients" (Some recipsOuter) ;;
    '(cek, senderVk, recipVk) <- locateRecKey recipients pubKey privKey ;;
    let sender_falsy :=
      match senderVk with Some s => String.eqb s EmptyString | None => true end in
    if sender_falsy && isAuthcrypt then Throw MissingSenderKey
    else
      ciphertext_v <- get "ciphertext" (Some wrapper) ;;
      ciphertext_s <- as_string ciphertext_v ;;
      ciphertext <- b64dec ciphertext_s ;;
      iv_v <- get "iv" (Some wrapper) ;;
      iv_s <- as_string iv_v ;;
      nonce <- b64dec iv_s ;;
      tag_v <- get "tag" (Some wrapper) ;;
      tag_s <- as_string tag_v ;;
      tag <- b64dec tag_s ;;
      message <- decryptPlaintext ciphertext tag protected nonce cek ;;
      Ok {| message := message; recipientKey := recipVk; senderKey := senderVk |}.

Definition generateKeyPair : M KeyPair := draw crypto_sign_keypair.

Definition signedAttachment (data : json) (keys : KeyPair) : result ISignedAttachment :=
  let didkey := Ed25519PubEncoder.encode (publicKey keys) in
  let protectedHeaders :=
    b64url
      (Str (JSON_stringify
              (JObject
                 [("alg", JString "EdDSA");
                  ("jwk",
                   JObject
                     [("crv", JString "Ed25519");
                      ("kid", JString didkey);
                      ("kty", JString "OKP");
                      ("x", JString (b64url (Bin (publicKey keys)) false))]);
                  ("kid", JString didkey)])))
      false in
  let sigData := b64url (Str (JSON_stringify data)) false in
  signature <- of_option
                 (crypto_sign_detached
                    (Buffer_from_ascii (protectedHeaders ++ "." ++ sigData))
                    (privateKey keys))
                 (SodiumError "crypto_sign_detached") ;;
  Ok {| mime_type := "application/json";
        data_base64 := sigData;
        data_jws := {| jws_header_kid := didkey;
                       jws_protected := protectedHeaders;
                       jws_signature := b64url (Bin signature) false |} |}.

Definition verifySignedAttachment (attachment : ISignedAttachment) : result bool :=
  let signedInput :=
    Buffer_from (jws_protected (data_jws attachment) ++ "." ++ data_base64 attachment) in
  signature <- b64dec (jws_signature (data_jws attachment)) ;;
  pk <- Ed25519PubEncoder.decode (jws_header_kid (data_jws attachment)) ;;
  of_option (crypto_sign_verify_detached signature signedInput pk)
            (SodiumError "crypto_sign_verify_detached").

Definition decodeSignedAttachment (attachment : ISignedAttachment) : result json :=
  text <- strB64dec (data_base64 attachment) ;;
  of_option (JSON_parse text) JSONSyntaxError.

(** *** Envelopes of other implementations

    The envelope object [packMessage] serialises, with the two fixed tags of
    the protected header replaced by arbitrary values: what [unpackMessage]
    may receive from a peer.  [packMessage] is the instance with the tags
    ["xchacha20poly1305_ietf"] and ["JWM/1.0"]. *)
Definition packMessage_tagged (enc typ : json)
    (message : string) (toKeys : list bytes) (fromKeys : option KeyPair) : M json :=
  cek <~ draw crypto_secretstream_xchacha20poly1305_keygen ;;
  recips <~ forEach_recipient cek fromKeys toKeys [] ;;
  let data :=
    JObject
      [("alg", JString (match fromKeys with Some _ => "Authcrypt" | None => "Anoncrypt" end));
       ("enc", enc);
       ("recipients", JArray recips);
       ("typ", typ)] in
  let recipsB64 := b64url (Str (JSON_stringify data)) true in
  '(ciphertext, tag, iv) <~ encryptPlaintext message recipsB64 cek ;;
  ret (JObject
         [("ciphertext", JString (b64url (Bin ciphertext) true));
          ("iv", JString (b64url (Bin iv) true));
          ("protected", JString recipsB64);
          ("tag", JString (b64url (Bin tag) true))]).

(** *** Vocabulary of the statements *)

(** The recipient block [prepareRecipientKeys] pushes, from its parts. *)
Definition recipient_block (encCek : bytes) (nonce encSender : option bytes) (targetVk : bytes) : json :=
  JObject
    [("encrypted_key", JString (b64url (Bin encCek) true));
     ("header",
      JObject
        [("iv", match nonce with Some n => JString (b64url (Bin n) true) | None => JNull end);
         ("kid", JString (Base58.encode targetVk));
         ("sender",
          match encSender with Some s => JString (b64url (Bin s) true) | None => JNull end)])].

(** The protected header and the envelope as [packMessage] assembles them. *)
Definition header_json (fromKeys : option KeyPair) (enc : json) (recips : list json) (typ : json)
  : json :=
  JObject
    [("alg", JString (match fromKeys with Some _ => "Authcrypt" | None => "Anoncrypt" end));
     ("enc", enc);
     ("recipients", JArray recips);
     ("typ", typ)].

Definition envelope_json (ciphertext iv : bytes) (protected : string) (tag : bytes) : json :=
  JObject
    [("ciphertext", JString (b64url (Bin ciphertext) true));
     ("iv", JString (b64url (Bin iv) true));
     ("protected", JString protected);
     ("tag", JString (b64url (Bin tag) true))].

(** A key some Ed25519 key pair owns. *)
Definition public_key (vk : bytes) : Prop := exists sk, ed25519_keypair vk sk.

Definition sender_ok (fromKeys : option KeyPair) : Prop :=
  match fromKeys with
  | Some fk => ed25519_keypair (publicKey fk) (privateKey fk)
  | None => True
  end.

(** The blocks a pack call writes in either mode. *)
Definition block_of_mode (fromKeys : option KeyPair) (r : json) : Prop :=
  exists encCek targetVk,
    match fromKeys with
    | None => r = recipient_block encCek None None targetVk
    | Some _ =>
        exists n s, n <> [] /\ s <> [] /\
                    r = recipient_block encCek (Some n) (Some s) targetVk
    end.

(** The keys [cpk'], [csk'] open no box sealed for [cpk]. *)
Definition cannot_open (cpk cpk' csk' : bytes) : Prop :=
  forall msg g, crypto_box_seal_open (fst (crypto_box_seal msg cpk g)) cpk' csk' = None.

(** A sealed box opens to the message that was sealed, or not at all. *)
Definition seal_integrity : Prop :=
  forall msg pk g pk' sk' opened,
    is_bytes msg ->
    crypto_box_seal_open (fst (crypto_box_seal msg pk g)) pk' sk' = Some opened ->
    opened = msg.

(** The nonce size of the AEAD construction that libsodium names [enc]. *)
Definition aead_npubbytes (enc : string) : option nat :=
  if String.eqb enc "xchacha20poly1305_ietf"
  then Some crypto_aead_xchacha20poly1305_ietf_NPUBBYTES
  else if String.eqb enc "chacha20poly1305_ietf"
  then Some crypto_aead_chacha20poly1305_ietf_NPUBBYTES
  else None.

(** The envelope object [unpackMessage] works on. *)
Definition wrapper_of (encMsg : envelope) : result json :=
  match encMsg with
  | EnvelopeText s => of_option (JSON_parse s) JSONSyntaxError
  | EnvelopeObject w => Ok w
  end.

(** The protected header of an envelope, read back the way [unpackMessage]
    reads it (its lines up to [JSON.parse(recipsJson)]). *)
Definition protected_header (encMsg : envelope) : result json :=
  wrapper <- wrapper_of encMsg ;;
  protected_v <- get "protected" (Some wrapper) ;;
  protected <- as_string protected_v ;;
  recipsJson <- strB64dec protected ;;
  of_option (JSON_parse recipsJson) JSONSyntaxError.

(** The octets of a base64url field of an envelope. *)
Definition envelope_field (k : string) (encMsg : envelope) : result bytes :=
  wrapper <- wrapper_of encMsg ;;
  v <- get k (Some wrapper) ;;
  s <- as_string v ;;
  b64dec s.

(** The [iv] and [sender] fields of the header of a recipient block. *)
Definition recipient_header (r : json) (iv sender : json) : Prop :=
  exists h,
    get "header" (Some r) = Ok (Some h) /\
    get "iv" (Some h) = Ok (Some iv) /\
    get "sender" (Some h) = Ok (Some sender).

End DIDComm.

(** ** A reference platform

    An executable instance of [JSON] and [Sodium], used to run the functions
    on concrete inputs.  The serialisation is a prefix code and the
    cryptography is a keyed framing without secrecy; both satisfy the laws
    stated above ([Reference.json_laws], [Reference.sodium_laws]). *)
Module Reference.
Local Open Scope string_scope.

Fixpoint unary (n : nat) : string :=
  match n with
  | O => "0"
  | S k => String "1" (unary k)
  end.

Fixpoint read_unary (s : string) : option (nat * string) :=
  match s with
  | String c r =>
      if Ascii.eqb c "0" then Some (O, r)
      else if Ascii.eqb c "1" then
        match read_unary r with
        | Some (n, rest) => Some (S n, rest)
        | None => None
        end
      else None
  | EmptyString => None
  end.

Fixpoint take (n : nat) (s : string) : option (string * string) :=
  match n with
  | O => Some (EmptyString, s)
  | S k =>
      match s with
      | String c r =>
          match take k r with
          | Some (a, rest) => Some (String c a, rest)
          | None => None
          end
      | EmptyString => None
      end
  end.

Definition write_string (s : string) : string := unary (String.length s) ++ s.

Definition read_string (s : string) : option (string * string) :=
  match read_unary s with
  | Some (n, r) => take n r
  | None => None
  end.

Definition write_Z (z : Z) : string :=
  (if (z <? 0)%Z then "-" else "+") ++ unary (Z.abs_nat z).

Definition read_Z (s : string) : option (Z * string) :=
  match s with
  | String c r =>
      match read_unary r with
      | Some (n, rest) =>
          if Ascii.eqb c "-" then Some ((- Z.of_nat n)%Z, rest)
          else if Ascii.eqb c "+" then Some (Z.of_nat n, rest)
          else None
      | None => None
      end
  | EmptyString => None
  end.

Definition concat_strings (l : list string) : string :=
  fold_right String.append EmptyString l.

Fixpoint write (v : json) : string :=
  match v with
  | JNull => "n"
  | JBool true => "t"
  | JBool false => "f"
  | JNumber z => "i" ++ write_Z z
  | JString s => "s" ++ write_string s
  | JArray items => "a" ++ unary (length items) ++ concat_strings (map write items)
  | JObject fields =>
      "o" ++ unary (length fields) ++
      concat_strings (map (fun kv => write_string (fst kv) ++ write (snd kv)) fields)
  end.

(** [n] values, each read by [rd]. *)
Fixpoint read_items (rd : string -> option (json * string)) (n : nat) (s : string)
  : option (list json * string) :=
  match n with
  | O => Some ([], s)
  | S k =>
      match rd s with
      | Some (x, s1) =>
          match read_items rd k s1 with
          | Some (xs, s2) => Some (x :: xs, s2)
          | None => None
          end
      | None => None
      end
  end.

Fixpoint read_fields (rd : string -> option (json * string)) (n : nat) (s : string)
  : option (list (string * json) * string) :=
  match n with
  | O => Some ([], s)
  | S k =>
      match read_string s with
      | Some (key, s0) =>
          match rd s0 with
          | Some (x, s1) =>
              match read_fields rd k s1 with
              | Some (xs, s2) => Some ((key, x) :: xs, s2)
              | None => None
              end
          | None => None
          end
      | None => None
      end
  end.

Fixpoint read (fuel : nat) (s : string) : option (json * string) :=
  match fuel with
  | O => None
  | S f =>
      match s with
      | EmptyString => None
      | String c r =>
          if Ascii.eqb c "n" then Some (JNull, r)
          else if Ascii.eqb c "t" then Some (JBool true, r)
          else if Ascii.eqb c "f" then Some (JBool false, r)
          else if Ascii.eqb c "i" then
            match read_Z r with
            | Some (z, rest) => Some (JNumber z, rest)
            | None => None
            end
          else if Ascii.eqb c "s" then
            match read_string r with
            | Some (t, rest) => Some (JString t, rest)
            | None => None
            end
          else if Ascii.eqb c "a" then
            match read_unary r with
            | Some (n, r1) =>
                match read_items (read f) n r1 with
                | Some (xs, rest) => Some (JArray xs, rest)
                | None => None
                end
            | None => None
            end
          else if Ascii.eqb c "o" then
            match read_unary r with
            | Some (n, r1) =>
                match read_fields (read f) n r1 with
                | Some (xs, rest) => Some (JObject xs, rest)
                | None => None
                end
            | None => None
            end
          else None
      end
  end.

(** Nesting depth: the fuel [read] needs. *)
Fixpoint depth (v : json) : nat :=
  match v with
  | JArray items => S (list_max (map depth items))
  | JObject fields => S (list_max (map (fun kv => depth (snd kv)) fields))
  | _ => 1
  end.

Definition parse (s : string) : option json :=
  match read (S (String.length s)) s with
  | Some (v, EmptyString) => Some v
  | _ => None
  end.

#[export] Instance json_codec : JSON := {|
  JSON_stringify := write;
  JSON_parse := parse;
|}.

(** *** Keyed framing in place of cryptography *)

Definition octets (l : list Z) : bytes := map (fun x => (x mod 256)%Z) l.

Fixpoint bytes_eqb (a b : list Z) : bool :=
  match a, b with
  | [], [] => true
  | x :: a', y :: b' => (x =? y)%Z && bytes_eqb a' b'
  | _, _ => false
  end.

Definition fill (g : nat) (n : nat) : bytes := repeat (Z.of_nat (g mod 256)) n.

(** A signing key is the public key written twice; the matching encryption
    keys are the public key itself. *)
Definition is_ed25519_keypair (pk sk : bytes) : Prop :=
  is_bytes pk /\ length pk = 32%nat /\ sk = (pk ++ pk)%list.

Definition is_curve25519_keypair (pk sk : bytes) : Prop :=
  is_bytes pk /\ length pk = 32%nat /\ sk = pk.

Definition pk_to_curve (pk : bytes) : option bytes :=
  if Nat.eqb (length pk) 32 then Some pk else None.

Definition sk_to_curve (sk : bytes) : option bytes :=
  if Nat.eqb (length sk) 64 then Some (firstn 32 sk) else None.

(** A sealed box: the recipient's key (thirty-two octets, zero-filled),
    sixteen zero octets, the message. *)
Definition seal (m pk : bytes) (g : nat) : bytes * nat :=
  (octets (firstn 32 (pk ++ repeat 0 32) ++ repeat 0 16 ++ m)%list, g).

Definition seal_open (c pk sk : bytes) : option bytes :=
  if bytes_eqb (firstn 32 c) sk && (48 <=? length c)%nat then Some (skipn 48 c) else None.

(** An authenticated box: sixteen octets of the two keys added, the message. *)
Definition shared (pk sk : bytes) : bytes :=
  octets (map (fun p => (fst p + snd p)%Z) (combine (firstn 16 pk) (firstn 16 sk))).

Definition box (m n pk sk : bytes) : bytes := octets (shared pk sk ++ m)%list.

Definition box_open (c n pk sk : bytes) : option bytes :=
  if bytes_eqb (firstn 16 c) (shared pk sk) then Some (skipn 16 c) else None.

(** The tag of the content cipher: the first sixteen octets of the
    associated data, zero-filled. *)
Definition mac_of (ad : bytes) : bytes := octets (firstn 16 (ad ++ repeat 0 16)%list).

Definition aead_encrypt (m ad n k : bytes) : bytes * bytes := (octets m, mac_of ad).

Definition aead_decrypt (c mac ad n k : bytes) : option bytes :=
  if bytes_eqb mac (mac_of ad) then Some c else None.

(** A signature: the first sixty-four octets of the message, zero-filled. *)
Definition signature_of (m : bytes) : bytes := octets (firstn 64 (m ++ repeat 0 64)%list).

Definition sign (m sk : bytes) : option bytes :=
  if Nat.eqb (length sk) 64 then Some (signature_of m) else None.

Definition verify (sig m pk : bytes) : option bool :=
  if Nat.eqb (length sig) 64 && Nat.eqb (length pk) 32
  then Some (bytes_eqb sig (signature_of m))
  else None.

Definition string_of_bytes (l : bytes) : string :=
  string_of_list_ascii (map (fun x => ascii_of_N (Z.to_N x)) l).

#[export] Instance sodium : Sodium := {|
  rng := nat;
  randombytes_buf := fun n g => (fill g n, Datatypes.S g);
  crypto_secretstream_xchacha20poly1305_keygen := fun g => (fill g 32, Datatypes.S g);
  crypto_sign_keypair := fun g =>
    ({| publicKey := fill g 32; privateKey := (fill g 32 ++ fill g 32)%list |}, Datatypes.S g);
  crypto_sign_ed25519_pk_to_curve25519 := pk_to_curve;
  crypto_sign_ed25519_sk_to_curve25519 := sk_to_curve;
  crypto_box_seal := seal;
  crypto_box_seal_open := seal_open;
  crypto_box_easy := box;
  crypto_box_open_easy := box_open;
  crypto_aead_chacha20poly1305_ietf_encrypt_detached := aead_encrypt;
  crypto_aead_chacha20poly1305_ietf_decrypt_detached := aead_decrypt;
  crypto_sign_detached := sign;
  crypto_sign_verify_detached := verify;
  from_string := code_units;
  to_string := fun l => Some (string_of_bytes l);
  ed25519_keypair := is_ed25519_keypair;
  curve25519_keypair := is_curve25519_keypair;
|}.

(** Three parties, and a payload. *)
Definition alice : KeyPair := fst (crypto_sign_keypair 7%nat).
Definition bob : KeyPair := fst (crypto_sign_keypair 5%nat).
Definition carol : KeyPair := fst (crypto_sign_keypair 9%nat).

Definition payload : json := JObject [("test", JString "test")].

(** An envelope whose header says [Authcrypt] over a block sealed
    anonymously for [bob]: no sender identity can be recovered from it. *)
Definition stripped_block : json :=
  recipient_block (fst (crypto_box_seal (fill 1 32) (publicKey bob) 0%nat)) None None
    (publicKey bob).

Definition stripped_header : json :=
  header_json (Some alice) (JString "xchacha20poly1305_ietf") [stripped_block]
    (JString "JWM/1.0").

Definition stripped_envelope : envelope :=
  EnvelopeObject
    (envelope_json [] (fill 2 12) (b64url (Str (JSON_stringify stripped_header)) true) []).

(** What [alice] packs for [bob] and [carol] from the generator state [0]. *)
Definition packed_header : string * bytes :=
  match fst (prepareRecipientKeys [publicKey bob; publicKey carol] (Some alice) 0%nat) with
  | Ok p => p
  | Throw _ => (EmptyString, [])
  end.

Definition packed_envelope : string :=
  match fst (packMessage "hi" [publicKey bob; publicKey carol] (Some alice) 0%nat) with
  | Ok env => env
  | Throw _ => EmptyString
  end.

(** An envelope whose only recipient entry has no [encrypted_key]. *)
Definition malformed_envelope : envelope :=
  EnvelopeObject
    (envelope_json [] (fill 2 12)
       (b64url
          (Str (JSON_stringify
                  (header_json None (JString "xchacha20poly1305_ietf")
                     [JObject [("header", JObject [])]] (JString "JWM/1.0"))))
          true)
       []).

End Reference.
Lemma last_app_nonempty {A} (l l' : list A) d : l' <> [] -> last (l ++ l') d = last l' d.
Proof.
  intros Hne. induction l as [|x l IH]; [reflexivity|].
  cbn [app]. change (last (x :: l ++ l') d) with (match l ++ l' with [] => x | _ :: _ => last (l ++ l') d end).
  destruct (l ++ l') eqn:E; [|exact IH].
  apply app_eq_nil in E as [_ E]. contradiction.
Qed.

(** ** Facts about positional numerals *)
Module RadixFacts.
Section Facts.
Variable B : Z.
Hypothesis B_gt_1 : 1 < B.

Local Abbreviation val := (Radix.val B).
Local Abbreviation digits_ok := (Radix.digits_ok B).
Local Abbreviation repr := (Radix.repr B).
Local Abbreviation propagate := (Radix.propagate B).
Local Abbreviation push_carry := (Radix.push_carry B).
Local Abbreviation muladd := (Radix.muladd B).

Lemma val_app a b : val (a ++ b) = val a + B ^ Z.of_nat (length a) * val b.
Proof.
  induction a as [|d a IH]; cbn [Radix.val].
  - cbn [app length Z.of_nat]. rewrite Z.pow_0_r. lia.
  - cbn [app]. cbn [Radix.val]. rewrite IH. replace (Z.of_nat (length (d :: a))) with (Z.succ (Z.of_nat (length a))) by (simpl; lia).
    rewrite Z.pow_succ_r by lia. ring.
Qed.

Lemma val_bounds ds : digits_ok ds -> 0 <= val ds < B ^ Z.of_nat (length ds).
Proof.
  induction 1 as [|d r Hd _ IH]; cbn [Radix.val].
  - cbn [length Z.of_nat]. rewrite Z.pow_0_r. lia.
  - replace (Z.of_nat (length (d :: r))) with (Z.succ (Z.of_nat (length r))) by (simpl; lia).
    rewrite Z.pow_succ_r by lia. nia.
Qed.

Lemma pow_pos n : 0 < B ^ Z.of_nat n.
Proof. apply Z.pow_pos_nonneg; lia. Qed.

Lemma digits_ok_app a b : digits_ok (a ++ b) <-> digits_ok a /\ digits_ok b.
Proof. apply Forall_app. Qed.

(** A numeral whose top digit is not zero is at least [B^(length-1)]. *)
Lemma val_top a d : digits_ok a -> 0 < d -> B ^ Z.of_nat (length a) <= val (a ++ [d]).
Proof.
  intros Ha Hd. rewrite val_app. cbn [Radix.val]. pose proof (val_bounds a Ha). pose proof (pow_pos (length a)). nia.
Qed.

Lemma val_top_zero a d :
  digits_ok (a ++ [d]) -> B ^ Z.of_nat (length a) <= val (a ++ [d]) -> d <> 0.
Proof.
  intros Hok Hge Hz. subst d. apply digits_ok_app in Hok as [Ha _].
  rewrite val_app in Hge. cbn [Radix.val] in Hge. pose proof (val_bounds a Ha). lia.
Qed.

Lemma same_length_unique a : forall b,
  length a = length b -> digits_ok a -> digits_ok b -> val a = val b -> a = b.
Proof.
  induction a as [|x a IH]; intros [|y b] Hl Ha Hb Hv; simpl in Hl; try discriminate; auto.
  inversion Ha as [|? ? Hx Ha']; inversion Hb as [|? ? Hy Hb']; subst.
  cbn [Radix.val] in Hv.
  assert (val a = val b) as Hv'.
  { destruct (Z.lt_trichotomy (val a) (val b)) as [Hlt | [Heq | Hgt]]; [exfalso; nia | exact Heq | exfalso; nia]. }
  rewrite Hv' in Hv. assert (x = y) as -> by lia.
  f_equal. apply IH; auto.
Qed.

Lemma propagate_spec ds : forall c,
  Forall (fun d => 0 <= d) ds -> 0 <= c ->
  let '(r, c') := propagate ds c in
  length r = length ds /\ digits_ok r /\ 0 <= c' /\
  val r + B ^ Z.of_nat (length ds) * c' = val ds + c.
Proof.
  induction ds as [|d ds IH]; intros c Hds Hc; cbn [Radix.propagate].
  - cbn [length Z.of_nat val]. rewrite Z.pow_0_r. repeat split; try constructor; lia.
  - inversion Hds as [|? ? Hd Hds']; subst.
    assert (0 <= (d + c) / B) as Hq by (apply Z.div_pos; lia).
    specialize (IH ((d + c) / B) Hds' Hq).
    destruct (propagate ds ((d + c) / B)) as [r c'].
    destruct IH as (Hl & Hok & Hc' & Hv).
    replace (Z.of_nat (length (d :: ds))) with (Z.succ (Z.of_nat (length ds))) by (simpl; lia).
    rewrite Z.pow_succ_r by lia.
    repeat split.
    + simpl. now rewrite Hl.
    + constructor; [apply Z.mod_pos_bound; lia | exact Hok].
    + exact Hc'.
    + cbn [Radix.val]. pose proof (Z.div_mod (d + c) B ltac:(lia)). nia.
Qed.

Lemma push_carry_spec fuel : forall c,
  0 <= c < B ^ Z.of_nat fuel ->
  digits_ok (push_carry fuel c) /\ val (push_carry fuel c) = c /\
  (c = 0 -> push_carry fuel c = []) /\ (0 < c -> last (push_carry fuel c) 0 <> 0).
Proof.
  induction fuel as [|f IH]; intros c Hc.
  - cbn [Z.of_nat] in Hc. rewrite Z.pow_0_r in Hc. assert (c = 0) by lia. subst c.
    simpl. repeat split; try constructor; try lia.
  - replace (Z.of_nat (S f)) with (Z.succ (Z.of_nat f)) in Hc by lia.
    rewrite Z.pow_succ_r in Hc by lia.
    cbn [Radix.push_carry]. destruct (Z.eqb_spec c 0) as [-> | Hnz].
    + simpl. repeat split; try constructor; try lia.
    + assert (0 <= c / B < B ^ Z.of_nat f) as Hq.
      { split; [apply Z.div_pos; lia | apply Z.div_lt_upper_bound; lia]. }
      destruct (IH _ Hq) as (Hok & Hv & Hz & Hl).
      pose proof (Z.div_mod c B ltac:(lia)) as Hdm.
      pose proof (Z.mod_pos_bound c B ltac:(lia)) as Hm.
      repeat split.
      * constructor; auto.
      * cbn [Radix.val]. rewrite Hv. lia.
      * intros ->. congruence.
      * intros _. destruct (Z.eq_dec (c / B) 0) as [Hq0 | Hq0].
        -- rewrite (Hz Hq0). simpl. lia.
        -- assert (0 < c / B) as Hpos by lia. specialize (Hl Hpos).
           destruct (push_carry f (c / B)) as [|y ys]; [simpl in Hl; congruence|].
           exact Hl.
Qed.

Lemma repr_nonempty v ds : repr v ds -> ds <> [].
Proof. intros (_ & _ & [-> | Hl]); [discriminate | intros ->; now apply Hl]. Qed.

Lemma repr_cases v ds :
  repr v ds ->
  (ds = [0] /\ v = 0) \/
  (exists a d, ds = a ++ [d] /\ digits_ok a /\ 0 < d < B /\ B ^ Z.of_nat (length a) <= v).
Proof.
  intros (Hok & Hv & [-> | Hl]).
  - left. simpl in Hv. split; [reflexivity | lia].
  - right. destruct ds as [|x xs]; [now elim Hl|].
    destruct (exists_last (l := x :: xs)) as (a & d & Heq); [discriminate|].
    rewrite Heq in *. rewrite last_last in Hl.
    apply digits_ok_app in Hok as Hok'. destruct Hok' as [Ha Hd].
    inversion Hd as [|? ? Hd' _]; subst.
    exists a, d. repeat split; auto; try lia.
    apply val_top; auto. lia.
Qed.

Lemma repr_unique v a b : repr v a -> repr v b -> a = b.
Proof.
  intros Ha Hb.
  pose proof Ha as (Hoka & Hva & _). pose proof Hb as (Hokb & Hvb & _).
  destruct (repr_cases _ _ Ha) as [[-> Hz] | (a' & d & -> & Ha' & Hd & Hge)];
    destruct (repr_cases _ _ Hb) as [[-> Hz'] | (b' & e & -> & Hb' & He & Hge')]; auto.
  - pose proof (pow_pos (length b')). lia.
  - pose proof (pow_pos (length a')). lia.
  - apply same_length_unique; auto; [|congruence].
    pose proof (val_bounds _ Hoka) as Hba. pose proof (val_bounds _ Hokb) as Hbb.
    rewrite Hva in Hba. rewrite Hvb in Hbb.
    rewrite !length_app in *. cbn [length] in *.
    destruct (Nat.lt_trichotomy (length a') (length b')) as [Hlt | [Heq | Hgt]]; [exfalso | lia | exfalso].
    + assert (B ^ Z.of_nat (length a' + 1) <= B ^ Z.of_nat (length b')) by (apply Z.pow_le_mono_r; lia). lia.
    + assert (B ^ Z.of_nat (length b' + 1) <= B ^ Z.of_nat (length a')) by (apply Z.pow_le_mono_r; lia). lia.
Qed.

Lemma repr_zero : repr 0 [0].
Proof.
  split; [|split]; [|simpl; lia|now left].
  constructor; [lia | constructor].
Qed.

(** One round of the loop takes the numeral of [v] to the numeral of [v * M + x]. *)
Lemma muladd_repr fuel M v ds x :
  repr v ds -> 1 <= M -> 0 <= x -> M + x <= B ^ Z.of_nat fuel ->
  repr (v * M + x) (muladd fuel M ds x).
Proof.
  intros Hr HM Hx Hfuel.
  pose proof (repr_nonempty _ _ Hr) as Hne.
  pose proof Hr as (Hok & Hv & _).
  unfold muladd.
  destruct ds as [|d0 ds0]; [congruence|]. cbn [map].
  set (bumped := (d0 * M + x) :: map (fun d => d * M) ds0).
  assert (Forall (fun d => 0 <= d) bumped) as Hnn.
  { inversion Hok as [|? ? Hd0 Hok0]; subst. constructor; [nia|].
    apply Forall_map. eapply Forall_impl; [|exact Hok0]. simpl. intros; nia. }
  assert (val bumped = v * M + x) as Hvb.
  { subst bumped. cbn [Radix.val]. cbn [Radix.val] in Hv.
    assert (val (map (fun d => d * M) ds0) = val ds0 * M) as ->.
    { clear. induction ds0 as [|y ys IH]; cbn [Radix.val map]; [lia | rewrite IH; ring]. }
    rewrite <- Hv. ring. }
  assert (length bumped = length (d0 :: ds0)) as Hlb by (subst bumped; simpl; now rewrite length_map).
  pose proof (propagate_spec bumped 0 Hnn ltac:(lia)) as Hp.
  destruct (propagate bumped 0) as [r c']. destruct Hp as (Hl & Hokr & Hc' & Hval).
  rewrite Hvb, Z.add_0_r in Hval. rewrite Hlb in Hl, Hval.
  pose proof (val_bounds _ Hok) as Hbv. rewrite Hv in Hbv.
  pose proof (val_bounds _ Hokr) as Hbr. rewrite Hl in Hbr.
  pose proof (pow_pos (length (d0 :: ds0))) as Hpp.
  assert (c' < B ^ Z.of_nat fuel) as Hcf by nia.
  destruct (push_carry_spec fuel c' ltac:(lia)) as (Hokp & Hvp & Hz & Hlast).
  repeat split.
  - apply digits_ok_app; auto.
  - rewrite val_app, Hvp, Hl. lia.
  - destruct (Z.eq_dec c' 0) as [Hc0 | Hc0].
    + rewrite (Hz Hc0), app_nil_r. rewrite Hc0 in Hval.
      destruct (repr_cases _ _ Hr) as [[Heq Hv0] | (a & d & Heq & Ha & Hd & Hge)].
      * inversion Heq; subst. destruct r as [|r0 [|r1 rs]]; simpl in Hl; try discriminate.
        cbn [Radix.val] in Hval. destruct (Z.eq_dec r0 0) as [-> | Hr0]; [now left | right; simpl; lia].
      * right. destruct (exists_last (l := r)) as (a' & d' & Hr').
        { intros ->. simpl in Hl. discriminate. }
        rewrite Hr' in *. rewrite last_last.
        assert (length a' = length a) as Hla.
        { rewrite Heq in Hl. rewrite !length_app in Hl. simpl in Hl. lia. }
        eapply val_top_zero; [exact Hokr|]. rewrite Hla. nia.
    + right. specialize (Hlast ltac:(lia)).
      destruct (push_carry fuel c') as [|p ps]; [now elim Hlast|].
      rewrite last_app_nonempty; [exact Hlast | discriminate].
Qed.

End Facts.
End RadixFacts.

Lemma valBE_snoc M l x : Radix.valBE M (l ++ [x]) = Radix.valBE M l * M + x.
Proof. unfold Radix.valBE. now rewrite fold_left_app. Qed.

Lemma valBE_rev M ds : Radix.valBE M (rev ds) = Radix.val M ds.
Proof.
  induction ds as [|d r IH]; [reflexivity|].
  cbn [rev]. rewrite valBE_snoc, IH. simpl Radix.val. ring.
Qed.

Lemma valBE_zeros M n l : Radix.valBE M (repeat 0 n ++ l) = Radix.valBE M l.
Proof.
  unfold Radix.valBE. rewrite fold_left_app. f_equal.
  induction n as [|n IH]; [reflexivity|]. cbn [repeat fold_left]. exact IH.
Qed.

Lemma valBE_cons M x l :
  Radix.valBE M (x :: l) = x * M ^ Z.of_nat (length l) + Radix.valBE M l.
Proof.
  revert x. induction l as [|y l IH] using rev_ind; intros x.
  - cbn [length Z.of_nat]. rewrite Z.pow_0_r. unfold Radix.valBE. simpl. lia.
  - rewrite app_comm_cons, !valBE_snoc, IH, length_app. cbn [length].
    replace (Z.of_nat (length l + 1)) with (Z.succ (Z.of_nat (length l))) by lia.
    rewrite Z.pow_succ_r by lia. ring.
Qed.

(** ** Facts about the [base-58] package *)
Module Base58Facts.
Import Base58.

(** *** The JavaScript operators agree with arithmetic on the values the loops meet *)

Lemma js_div_or0_small t b : 0 <= t < 2 ^ 31 -> 0 < b -> js_div_or0 t b = t / b.
Proof.
  intros Ht Hb. unfold js_div_or0. rewrite Z.quot_div_nonneg by lia.
  apply toInt32_small. pose proof (Z.div_pos t b ltac:(lia) Hb).
  pose proof (Z.div_le_upper_bound t b t Hb ltac:(nia)). lia.
Qed.

Lemma js_rem_small t b : 0 <= t -> 0 < b -> js_rem t b = t mod b.
Proof. intros. unfold js_rem. apply Z.rem_mod_nonneg; lia. Qed.

Lemma js_shl8_small d : 0 <= d < 2 ^ 22 -> js_shl d 8 = d * 256.
Proof.
  intros Hd. unfold js_shl. change (2 ^ 22) with 4194304 in Hd.
  rewrite (toInt32_small d) by (change (2 ^ 31) with 2147483648; lia).
  rewrite Z.shiftl_mul_pow2 by lia. change (2 ^ 8) with 256.
  apply toInt32_small. change (2 ^ 31) with 2147483648. lia.
Qed.

Lemma js_shr8_small t : 0 <= t < 2 ^ 31 -> js_shr t 8 = t / 256.
Proof.
  intros Ht. unfold js_shr. rewrite toInt32_small by lia.
  rewrite Z.shiftr_div_pow2 by lia. reflexivity.
Qed.

Lemma js_and255_small t : 0 <= t < 2 ^ 31 -> js_and t 255 = t mod 256.
Proof.
  intros Ht. unfold js_and. rewrite (toInt32_small t) by lia.
  rewrite (toInt32_small 255) by (change (2 ^ 31) with 2147483648; lia).
  change 255 with (Z.ones 8). rewrite Z.land_ones by lia. reflexivity.
Qed.

Definition small (x : Z) : Prop := 0 <= x < 2 ^ 24.

Lemma encode_carry_loop_propagate ds : forall c,
  Forall small ds -> small c ->
  encode_carry_loop ds c = Radix.propagate 58 ds c /\ small (snd (Radix.propagate 58 ds c)).
Proof.
  unfold small. change (2 ^ 24) with 16777216.
  induction ds as [|d r IH]; intros c Hds Hc; simpl.
  - auto.
  - inversion Hds as [|? ? Hd Hr]; subst.
    assert (0 <= d + c < 2 ^ 31) as Ht by (change (2 ^ 31) with 2147483648; lia).
    rewrite js_div_or0_small, js_rem_small by lia.
    destruct (IH ((d + c) / 58) Hr ltac:(lia)) as [-> Hs].
    destruct (Radix.propagate 58 r ((d + c) / 58)) as [r' c']. auto.
Qed.

Lemma encode_push_carry fuel : forall c, 0 <= c < 2 ^ 31 ->
  encode_push fuel c = Radix.push_carry 58 fuel c.
Proof.
  induction fuel as [|f IH]; intros c Hc; [reflexivity|]. simpl.
  destruct (c =? 0); [reflexivity|].
  rewrite js_div_or0_small, js_rem_small by lia. f_equal. apply IH.
  change (2 ^ 31) with 2147483648 in *. lia.
Qed.

Lemma encode_step_muladd ds b :
  Radix.digits_ok 58 ds -> 0 <= b < 2 ^ 16 ->
  encode_step ds b = Radix.muladd 58 6 256 ds b.
Proof.
  intros Hok Hb. unfold encode_step, Radix.muladd. change (2 ^ 16) with 65536 in Hb.
  assert (map (fun d => js_shl d 8) ds = map (fun d => d * 256) ds) as ->.
  { apply map_ext_in. intros d Hd. apply js_shl8_small.
    unfold Radix.digits_ok in Hok. rewrite Forall_forall in Hok. specialize (Hok d Hd).
    change (2 ^ 22) with 4194304. lia. }
  set (bumped := match map (fun d => d * 256) ds with [] => [] | d :: r => (d + b) :: r end).
  assert (Forall small bumped) as Hs.
  { subst bumped. unfold small. change (2 ^ 24) with 16777216.
    destruct Hok as [|d r Hd Hr]; cbn [map]; constructor; [lia|].
    apply Forall_map. eapply Forall_impl; [|exact Hr]. simpl. intros; lia. }
  assert (small 0) as Hs0 by (unfold small; change (2 ^ 24) with 16777216; lia).
  destruct (encode_carry_loop_propagate bumped 0 Hs Hs0) as [-> Hc].
  destruct (Radix.propagate 58 bumped 0) as [r c]. simpl in Hc. f_equal.
  apply encode_push_carry. unfold small in Hc. change (2 ^ 24) with 16777216 in Hc.
  change (2 ^ 31) with 2147483648. lia.
Qed.

Lemma decode_carry_loop_propagate bs : forall c,
  Forall small bs -> small c ->
  decode_carry_loop bs c = Radix.propagate 256 bs c /\ small (snd (Radix.propagate 256 bs c)).
Proof.
  unfold small. change (2 ^ 24) with 16777216.
  induction bs as [|d r IH]; intros c Hds Hc; simpl.
  - auto.
  - inversion Hds as [|? ? Hd Hr]; subst.
    assert (0 <= d + c < 2 ^ 31) as Ht by (change (2 ^ 31) with 2147483648; lia).
    rewrite js_shr8_small, js_and255_small by lia.
    destruct (IH ((d + c) / 256) Hr ltac:(lia)) as [-> Hs].
    destruct (Radix.propagate 256 r ((d + c) / 256)) as [r' c']. auto.
Qed.

Lemma decode_push_carry fuel : forall c, 0 <= c < 2 ^ 31 ->
  decode_push fuel c = Radix.push_carry 256 fuel c.
Proof.
  induction fuel as [|f IH]; intros c Hc; [reflexivity|]. simpl.
  destruct (c =? 0); [reflexivity|].
  rewrite js_shr8_small, js_and255_small by lia. f_equal. apply IH.
  change (2 ^ 31) with 2147483648 in *. lia.
Qed.

Lemma decode_step_muladd bs d :
  Radix.digits_ok 256 bs -> 0 <= d < 58 ->
  decode_step bs d = Radix.muladd 256 4 58 bs d.
Proof.
  intros Hok Hd. unfold decode_step, Radix.muladd.
  set (bumped := match map (fun b => b * 58) bs with [] => [] | b :: r => (b + d) :: r end).
  assert (Forall small bumped) as Hs.
  { subst bumped. unfold small. change (2 ^ 24) with 16777216.
    destruct Hok as [|b r Hb Hr]; cbn [map]; constructor; [lia|].
    apply Forall_map. eapply Forall_impl; [|exact Hr]. simpl. intros; lia. }
  assert (small 0) as Hs0 by (unfold small; change (2 ^ 24) with 16777216; lia).
  destruct (decode_carry_loop_propagate bumped 0 Hs Hs0) as [-> Hc].
  destruct (Radix.propagate 256 bumped 0) as [r c]. simpl in Hc. f_equal.
  apply decode_push_carry. unfold small in Hc. change (2 ^ 24) with 16777216 in Hc.
  change (2 ^ 31) with 2147483648. lia.
Qed.

(** *** The loops compute numerals *)

Lemma encode_fold_repr l : forall v ds,
  Radix.repr 58 v ds -> Forall (fun b => 0 <= b < 2 ^ 16) l ->
  Radix.repr 58 (fold_left (fun acc x => acc * 256 + x) l v) (fold_left encode_step l ds).
Proof.
  induction l as [|b l IH]; intros v ds Hr Hl; [exact Hr|].
  inversion Hl as [|? ? Hb Hl']; subst. cbn [fold_left].
  apply IH; [|exact Hl'].
  rewrite encode_step_muladd; [|apply Hr|exact Hb].
  change (2 ^ 16) with 65536 in Hb.
  apply RadixFacts.muladd_repr; [lia | exact Hr | lia | lia |].
  change (58 ^ Z.of_nat 6) with 38068692544. lia.
Qed.

Lemma decode_fold_repr l : forall v bs,
  Radix.repr 256 v bs -> Radix.digits_ok 58 l ->
  Radix.repr 256 (fold_left (fun acc x => acc * 58 + x) l v) (fold_left decode_step l bs).
Proof.
  induction l as [|d l IH]; intros v bs Hr Hl; [exact Hr|].
  inversion Hl as [|? ? Hd Hl']; subst. cbn [fold_left].
  apply IH; [|exact Hl'].
  rewrite decode_step_muladd; [|apply Hr|exact Hd].
  apply RadixFacts.muladd_repr; [lia | exact Hr | lia | lia |].
  change (256 ^ Z.of_nat 4) with 4294967296. lia.
Qed.

(** *** The alphabet *)

Definition char_at (d : Z) : ascii :=
  match alphabet_at d with Some c => c | None => "1"%char end.

Definition alphabet_entry_ok (d : Z) : bool :=
  match alphabet_at d with
  | Some c => match ALPHABET_MAP c with Some d' => d' =? d | None => false end
  | None => false
  end.

Lemma alphabet_table_ok : forallb alphabet_entry_ok (map Z.of_nat (seq 0 58)) = true.
Proof. vm_compute. reflexivity. Qed.

Lemma alphabet_roundtrip d :
  0 <= d < 58 -> alphabet_at d = Some (char_at d) /\ ALPHABET_MAP (char_at d) = Some d.
Proof.
  intros Hd. pose proof alphabet_table_ok as H. rewrite forallb_forall in H.
  specialize (H d). unfold alphabet_entry_ok, char_at in *.
  assert (In d (map Z.of_nat (seq 0 58))) as Hin.
  { apply in_map_iff. exists (Z.to_nat d). split; [lia|]. apply in_seq. lia. }
  specialize (H Hin). destruct (alphabet_at d) as [c|]; [|discriminate].
  destruct (ALPHABET_MAP c) as [d'|]; [|discriminate].
  apply Z.eqb_eq in H. subst. auto.
Qed.

Lemma char_at_zero : char_at 0 = "1"%char.
Proof. reflexivity. Qed.

Lemma char_at_nonzero d : 0 < d < 58 -> Ascii.eqb (char_at d) "1" = false.
Proof.
  intros Hd. destruct (Ascii.eqb_spec (char_at d) "1") as [E|]; [|reflexivity].
  destruct (alphabet_roundtrip d ltac:(lia)) as [_ Hm]. rewrite E in Hm.
  vm_compute in Hm. injection Hm as Hm. lia.
Qed.

Lemma join_digits_cons d r :
  0 <= d < 58 -> join_digits (d :: r) = String (char_at d) (join_digits r).
Proof. intros Hd. cbn [join_digits]. now destruct (alphabet_roundtrip d Hd) as [-> _]. Qed.

Lemma decode_chars_join ds : forall bs,
  Radix.digits_ok 58 ds -> decode_chars (join_digits ds) bs = Some (fold_left decode_step ds bs).
Proof.
  induction ds as [|d r IH]; intros bs Hok; [reflexivity|].
  inversion Hok as [|? ? Hd Hr]; subst.
  rewrite join_digits_cons by exact Hd. cbn [decode_chars fold_left].
  destruct (alphabet_roundtrip d Hd) as [_ ->]. now apply IH.
Qed.

Lemma leading_ones_join z d r :
  0 < d < 58 -> Radix.digits_ok 58 r ->
  leading_ones (join_digits (repeat 0 z ++ d :: r)) = z.
Proof.
  intros Hd Hr. induction z as [|z IH].
  - cbn [repeat app]. rewrite join_digits_cons by lia. cbn [leading_ones].
    rewrite char_at_nonzero by exact Hd. now destruct (join_digits r).
  - cbn [repeat app]. rewrite join_digits_cons by lia. cbn [leading_ones].
    rewrite char_at_zero. rewrite IH.
    destruct (join_digits (repeat 0 z ++ d :: r)) eqn:E; [|reflexivity].
    exfalso. destruct z; cbn [repeat app] in E; rewrite join_digits_cons in E by lia; discriminate.
Qed.

Lemma leading_ones_zeros n : leading_ones (join_digits (repeat 0 (S n))) = n.
Proof.
  induction n as [|n IH]; [reflexivity|].
  change (repeat 0 (S (S n))) with (0 :: repeat 0 (S n)).
  rewrite join_digits_cons by lia. cbn [leading_ones]. rewrite char_at_zero, IH.
  change (repeat 0 (S n)) with (0 :: repeat 0 n). rewrite join_digits_cons by lia. reflexivity.
Qed.

Lemma leading_zeros_prefix z h t : h <> 0 -> leading_zeros (repeat 0 z ++ h :: t) = z.
Proof.
  intros Hh. induction z as [|z IH].
  - cbn [repeat app leading_zeros]. destruct t; [reflexivity|].
    destruct (Z.eqb_spec h 0); [contradiction | reflexivity].
  - cbn [repeat app]. cbn [leading_zeros]. rewrite IH.
    destruct (repeat 0 z ++ h :: t) eqn:E; [|reflexivity].
    destruct z; discriminate.
Qed.

Lemma leading_zeros_all n : leading_zeros (repeat 0 (S n)) = n.
Proof.
  induction n as [|n IH]; [reflexivity|].
  change (repeat 0 (S (S n))) with (0 :: repeat 0 (S n)).
  cbn [leading_zeros]. rewrite IH. reflexivity.
Qed.

Lemma split_leading_zeros (l : list Z) :
  exists z rest, l = repeat 0 z ++ rest /\ (rest = [] \/ exists h t, rest = h :: t /\ h <> 0).
Proof.
  induction l as [|x l (z & rest & -> & Hrest)].
  - exists O, []. auto.
  - destruct (Z.eq_dec x 0) as [-> | Hx].
    + exists (S z), rest. auto.
    + exists O, (x :: repeat 0 z ++ rest). split; [reflexivity|]. right. eauto.
Qed.

Lemma rev_repeat {A} (x : A) n : rev (repeat x n) = repeat x n.
Proof.
  induction n as [|n IH]; [reflexivity|].
  cbn [repeat rev]. rewrite IH. symmetry. apply repeat_cons.
Qed.

Lemma Uint8Array_of_bytes l : is_bytes l -> Uint8Array_of l = l.
Proof.
  induction 1 as [|x l Hx _ IH]; [reflexivity|].
  cbn [Uint8Array_of map]. fold (Uint8Array_of l). rewrite IH. f_equal. apply Z.mod_small. lia.
Qed.

Lemma is_bytes_repeat0 n : is_bytes (repeat 0 n).
Proof. apply Forall_forall. intros x Hx. apply repeat_spec in Hx. lia. Qed.

Lemma valBE_nonneg M l : 0 <= M -> Forall (fun x => 0 <= x) l -> 0 <= Radix.valBE M l.
Proof.
  intros HM. induction l as [|x l IH] using rev_ind; intros Hl.
  - unfold Radix.valBE. simpl. lia.
  - apply Forall_app in Hl as [Hl Hx]. inversion Hx; subst.
    rewrite valBE_snoc. specialize (IH Hl). nia.
Qed.

Lemma decode_of_nonempty c r :
  decode (String c r) =
  match decode_chars (String c r) [0] with
  | None => None
  | Some bs => Some (Uint8Array_of (rev (bs ++ repeat 0 (leading_ones (String c r)))))
  end.
Proof. reflexivity. Qed.

(** The general round trip: [z] zero elements, then a buffer with a non-zero
    head whose value equals that of the byte string [rest]. *)
Lemma decode_encode_value z hb tb h t :
  Forall (fun b => 0 <= b < 2 ^ 16) (hb :: tb) -> hb <> 0 ->
  is_bytes (h :: t) -> h <> 0 ->
  Radix.valBE 256 (hb :: tb) = Radix.valBE 256 (h :: t) ->
  decode (encode (repeat 0 z ++ hb :: tb)) = Some (repeat 0 z ++ h :: t).
Proof.
  intros Hbuf Hhb Hbytes Hh Hval.
  set (buffer := repeat 0 z ++ hb :: tb).
  assert (Forall (fun b => 0 <= b < 2 ^ 16) buffer) as Hrange.
  { apply Forall_app. split; [|exact Hbuf]. apply Forall_forall. intros x Hx.
    apply repeat_spec in Hx. change (2 ^ 16) with 65536. lia. }
  pose proof (encode_fold_repr buffer 0 [0] (RadixFacts.repr_zero 58 ltac:(lia)) Hrange) as HD.
  fold (Radix.valBE 256 buffer) in HD. unfold buffer in HD at 1. rewrite valBE_zeros, Hval in HD.
  set (V := Radix.valBE 256 (h :: t)) in *.
  assert (0 < V) as HV.
  { subst V. rewrite valBE_cons. inversion Hbytes as [|? ? Hh' Ht]; subst.
    assert (0 <= Radix.valBE 256 t).
    { apply valBE_nonneg; [lia|]. eapply Forall_impl; [|exact Ht]. simpl. intros; lia. }
    assert (0 < 256 ^ Z.of_nat (length t)) by (apply Z.pow_pos_nonneg; lia). nia. }
  unfold encode. destruct buffer as [|b0 brest] eqn:Eb.
  { subst buffer. destruct z; discriminate. }
  rewrite <- Eb in *. clear b0 brest Eb. cbv zeta.
  set (D := fold_left encode_step buffer [0]) in *.
  destruct (RadixFacts.repr_cases 58 ltac:(lia) _ _ HD) as [[_ HV0] | (a & top & HDeq & Ha & Htop & _)]; [lia|].
  unfold buffer at 1. rewrite leading_zeros_prefix by exact Hhb.
  rewrite rev_app_distr, rev_repeat, HDeq, rev_app_distr. cbn [rev app].
  assert (Radix.digits_ok 58 (repeat 0 z ++ top :: rev a)) as HokL.
  { apply Forall_app. split.
    - apply Forall_forall. intros x Hx. apply repeat_spec in Hx. lia.
    - constructor; [lia|]. apply Forall_rev. exact Ha. }
  destruct (join_digits (repeat 0 z ++ top :: rev a)) as [|c r] eqn:ES.
  { destruct z; cbn [repeat app] in ES; rewrite join_digits_cons in ES by lia; discriminate. }
  rewrite decode_of_nonempty, <- ES.
  rewrite decode_chars_join by exact HokL.
  rewrite leading_ones_join; [|lia|apply Forall_rev; exact Ha].
  pose proof (decode_fold_repr _ 0 [0] (RadixFacts.repr_zero 256 ltac:(lia)) HokL) as HB.
  fold (Radix.valBE 58 (repeat 0 z ++ top :: rev a)) in HB.
  rewrite valBE_zeros in HB.
  assert (Radix.valBE 58 (top :: rev a) = V) as HLV.
  { replace (top :: rev a) with (rev D) by (rewrite HDeq, rev_app_distr; reflexivity).
    rewrite valBE_rev. apply HD. }
  rewrite HLV in HB.
  assert (Radix.repr 256 V (rev (h :: t))) as HR.
  { split; [apply Forall_rev; exact Hbytes|]. split.
    - rewrite <- valBE_rev, rev_involutive. reflexivity.
    - right. cbn [rev]. rewrite last_last. exact Hh. }
  rewrite (RadixFacts.repr_unique 256 ltac:(lia) _ _ _ HB HR).
  rewrite rev_app_distr, rev_repeat, rev_involutive.
  rewrite Uint8Array_of_bytes; [reflexivity|].
  apply Forall_app. split; [apply is_bytes_repeat0 | exact Hbytes].
Qed.

Lemma decode_encode_zeros n : decode (encode (repeat 0 (S n))) = Some (repeat 0 (S n)).
Proof.
  assert (Forall (fun b => 0 <= b < 2 ^ 16) (repeat 0 (S n))) as Hrange.
  { apply Forall_forall. intros x Hx. apply repeat_spec in Hx. change (2 ^ 16) with 65536. lia. }
  pose proof (encode_fold_repr _ 0 [0] (RadixFacts.repr_zero 58 ltac:(lia)) Hrange) as HD.
  fold (Radix.valBE 256 (repeat 0 (S n))) in HD.
  rewrite <- (app_nil_r (repeat 0 (S n))) in HD at 1. rewrite valBE_zeros in HD.
  change (Radix.valBE 256 []) with 0 in HD.
  pose proof (RadixFacts.repr_unique 58 ltac:(lia) _ _ _ HD (RadixFacts.repr_zero 58 ltac:(lia))) as HDeq.
  unfold encode. change (repeat 0 (S n)) with (0 :: repeat 0 n) at 1. cbv iota zeta.
  rewrite HDeq, leading_zeros_all.
  change ([0] ++ repeat 0 n) with (repeat 0 (S n)). rewrite rev_repeat.
  assert (Radix.digits_ok 58 (repeat 0 (S n))) as HokL.
  { apply Forall_forall. intros x Hx. apply repeat_spec in Hx. lia. }
  destruct (join_digits (repeat 0 (S n))) as [|c r] eqn:ES.
  { change (repeat 0 (S n)) with (0 :: repeat 0 n) in ES. rewrite join_digits_cons in ES by lia. discriminate. }
  rewrite decode_of_nonempty, <- ES.
  rewrite decode_chars_join by exact HokL. rewrite leading_ones_zeros.
  pose proof (decode_fold_repr _ 0 [0] (RadixFacts.repr_zero 256 ltac:(lia)) HokL) as HB.
  fold (Radix.valBE 58 (repeat 0 (S n))) in HB.
  rewrite <- (app_nil_r (repeat 0 (S n))) in HB at 1. rewrite valBE_zeros in HB.
  change (Radix.valBE 58 []) with 0 in HB.
  rewrite (RadixFacts.repr_unique 256 ltac:(lia) _ _ _ HB (RadixFacts.repr_zero 256 ltac:(lia))).
  change ([0] ++ repeat 0 n) with (repeat 0 (S n)). rewrite rev_repeat.
  apply f_equal. apply Uint8Array_of_bytes, is_bytes_repeat0.
Qed.

(** [Base58.decode] inverts [Base58.encode] on every byte string. *)
Lemma decode_encode bs : is_bytes bs -> decode (encode bs) = Some bs.
Proof.
  intros Hb. destruct (split_leading_zeros bs) as (z & rest & -> & [-> | (h & t & -> & Hh)]).
  - rewrite app_nil_r. destruct z as [|n]; [reflexivity | apply decode_encode_zeros].
  - apply Forall_app in Hb as [_ Hr].
    apply decode_encode_value; auto.
    eapply Forall_impl; [|exact Hr]. simpl. intros. change (2 ^ 16) with 65536. lia.
Qed.

End Base58Facts.

(** ** Facts about URL-safe base64 *)
Module Base64Facts.
Import Base64.

Lemma list_ind3 {A} (P : list A -> Prop) :
  P [] -> (forall a, P [a]) -> (forall a b, P [a; b]) ->
  (forall a b c r, P r -> P (a :: b :: c :: r)) ->
  forall l, P l.
Proof.
  intros H0 H1 H2 H3.
  refine (fix go (l : list A) : P l :=
            match l with
            | [] => H0
            | [a] => H1 a
            | [a; b] => H2 a b
            | a :: b :: c :: r => H3 a b c r (go r)
            end).
Qed.

Definition sextet_entry_ok (x : Z) : bool :=
  match urlsafe_char_to_byte (byte_to_urlsafe_char x) with
  | Some y => y =? x
  | None => false
  end.

Lemma sextet_table_ok : forallb sextet_entry_ok (map Z.of_nat (seq 0 64)) = true.
Proof. vm_compute. reflexivity. Qed.

Lemma char_roundtrip x : 0 <= x < 64 -> urlsafe_char_to_byte (byte_to_urlsafe_char x) = Some x.
Proof.
  intros Hx. pose proof sextet_table_ok as H. rewrite forallb_forall in H.
  assert (In x (map Z.of_nat (seq 0 64))) as Hin.
  { apply in_map_iff. exists (Z.to_nat x). split; [lia|]. apply in_seq. lia. }
  specialize (H x Hin). unfold sextet_entry_ok in H.
  destruct (urlsafe_char_to_byte (byte_to_urlsafe_char x)) as [y|]; [|discriminate].
  apply Z.eqb_eq in H. now subst.
Qed.

Definition sextets_ok (l : list Z) : Prop := Forall (fun s => 0 <= s < 64) l.

Lemma encode_sextets_ok bin : is_bytes bin -> sextets_ok (encode_sextets bin).
Proof.
  unfold is_bytes, sextets_ok. induction bin as [|a|a b|a b c r IH] using list_ind3; intros H; cbn [encode_sextets].
  - constructor.
  - inversion H as [|? ? Ha _]; subst. repeat constructor; lia.
  - inversion H as [|? ? Ha H']; subst. inversion H' as [|? ? Hb _]; subst.
    repeat constructor; lia.
  - inversion H as [|? ? Ha H']; subst. inversion H' as [|? ? Hb H'']; subst.
    inversion H'' as [|? ? Hc Hr]; subst.
    repeat (constructor; [lia|]). apply IH, Hr.
Qed.

Lemma padding_len_step (a b c : Z) r : padding_len (a :: b :: c :: r) = padding_len r.
Proof.
  unfold padding_len. cbn [length].
  replace (S (S (S (length r)))) with (length r + 1 * 3)%nat by lia.
  now rewrite Nat.Div0.mod_add.
Qed.

Lemma decode_encode_sextets bin :
  is_bytes bin -> decode_sextets (encode_sextets bin) = Some (bin, padding_len bin).
Proof.
  unfold is_bytes. induction bin as [|a|a b|a b c r IH] using list_ind3; intros H.
  - reflexivity.
  - inversion H as [|? ? Ha _]; subst. cbn [encode_sextets decode_sextets].
    replace ((a mod 4 * 16) mod 16 =? 0) with true by (symmetry; apply Z.eqb_eq; lia).
    change (padding_len [a]) with 2%nat. do 3 f_equal. lia.
  - inversion H as [|? ? Ha H']; subst. inversion H' as [|? ? Hb _]; subst.
    cbn [encode_sextets decode_sextets].
    replace ((b mod 16 * 4) mod 4 =? 0) with true by (symmetry; apply Z.eqb_eq; lia).
    change (padding_len [a; b]) with 1%nat. do 2 f_equal. f_equal; [lia|]. f_equal. lia.
  - inversion H as [|? ? Ha H']; subst. inversion H' as [|? ? Hb H'']; subst.
    inversion H'' as [|? ? Hc Hr]; subst.
    cbn [encode_sextets decode_sextets]. rewrite (IH Hr), padding_len_step.
    do 2 f_equal. f_equal; [lia|]. f_equal; [lia|]. f_equal. lia.
Qed.

Lemma span_alphabet_equals p : span_alphabet (equals p) = ([], equals p).
Proof. destruct p; reflexivity. Qed.

Lemma span_alphabet_chars sx p :
  sextets_ok sx -> span_alphabet (chars_of sx ++ equals p) = (sx, equals p).
Proof.
  induction 1 as [|x r Hx _ IH].
  - apply span_alphabet_equals.
  - cbn [chars_of String.append span_alphabet]. rewrite char_roundtrip by exact Hx.
    now rewrite IH.
Qed.

Lemma string_app_empty (s : string) : (s ++ EmptyString)%string = s.
Proof. induction s as [|c s IH]; [reflexivity | cbn; now rewrite IH]. Qed.

(** [from_base64] inverts [to_base64], variant by variant. *)
Lemma from_to_base64 bin v : is_bytes bin -> from_base64 (to_base64 bin v) v = Some bin.
Proof.
  intros Hb. unfold from_base64, to_base64. destruct v.
  - rewrite span_alphabet_chars by now apply encode_sextets_ok.
    rewrite decode_encode_sextets by exact Hb. now rewrite String.eqb_refl.
  - rewrite <- (string_app_empty (chars_of (encode_sextets bin))).
    rewrite (span_alphabet_chars _ 0) by now apply encode_sextets_ok.
    now rewrite decode_encode_sextets by exact Hb.
Qed.

Lemma string_length_app (a b : string) :
  String.length (a ++ b) = (String.length a + String.length b)%nat.
Proof. induction a as [|c a IH]; [reflexivity | cbn; now rewrite IH]. Qed.

Lemma string_app_assoc (a b c : string) : ((a ++ b) ++ c = a ++ (b ++ c))%string.
Proof. induction a as [|x a IH]; [reflexivity | cbn; now rewrite IH]. Qed.

Lemma equals_length n : String.length (equals n) = n.
Proof. induction n as [|n IH]; [reflexivity | cbn; now rewrite IH]. Qed.

Lemma equals_snoc n : (equals n ++ "=")%string = equals (S n).
Proof. induction n as [|n IH]; [reflexivity | cbn [equals String.append]; now rewrite IH]. Qed.

Lemma chars_of_length sx : String.length (chars_of sx) = length sx.
Proof. induction sx as [|x r IH]; [reflexivity | cbn; now rewrite IH]. Qed.

(** The padded text has a whole number of four-character groups. *)
Lemma padded_length bin :
  ((length (encode_sextets bin) + padding_len bin) mod 4 = 0)%nat.
Proof.
  induction bin as [|a|a b|a b c r IH] using list_ind3; try reflexivity.
  rewrite padding_len_step. cbn [encode_sextets length].
  replace (S (S (S (S (length (encode_sextets r))))) + padding_len r)%nat
    with (length (encode_sextets r) + padding_len r + 1 * 4)%nat by lia.
  now rewrite Nat.Div0.mod_add.
Qed.

Lemma padding_len_le bin : (padding_len bin <= 2)%nat.
Proof. unfold padding_len. destruct (length bin mod 3)%nat as [|[|[|n]]]; lia. Qed.

(** The loop of [b64dec] supplies exactly the missing [=] characters. *)
Lemma pad_loop_completes s : forall p k fuel,
  ((String.length s + p) mod 4 = 0)%nat -> (k <= p)%nat -> (p <= 3)%nat -> (p - k <= fuel)%nat ->
  pad_loop fuel (s ++ equals k) = (s ++ equals p)%string.
Proof.
  intros p k fuel Hmod. revert k. induction fuel as [|f IH]; intros k Hk Hp Hf.
  - assert (k = p) as -> by lia. reflexivity.
  - cbn [pad_loop]. rewrite string_length_app, equals_length.
    destruct (Nat.eqb_spec ((String.length s + k) mod 4) 0) as [E | E]; cbn [negb].
    + assert (k = p) as -> by (pose proof (Nat.div_mod_eq (String.length s + k) 4);
                              pose proof (Nat.div_mod_eq (String.length s + p) 4); lia).
      reflexivity.
    + assert (k <> p) by (intros ->; contradiction).
      rewrite string_app_assoc, equals_snoc. apply IH; lia.
Qed.

Lemma pad_loop_length_mod4 s : (String.length (pad_loop 3 s) mod 4 = 0)%nat.
Proof.
  set (p := ((4 - String.length s mod 4) mod 4)%nat).
  assert ((String.length s + p) mod 4 = 0 /\ p <= 3)%nat as [Hmod Hp].
  { subst p. pose proof (Nat.div_mod_eq (String.length s) 4) as Hdm.
    pose proof (Nat.mod_upper_bound (String.length s) 4 ltac:(lia)) as Hlt.
    remember (String.length s mod 4)%nat as r. remember (String.length s / 4)%nat as q.
    rewrite Hdm.
    destruct r as [|[|[|[|r]]]]; [| | | |lia].
    all: change ((4 - 0) mod 4)%nat with 0%nat; change ((4 - 1) mod 4)%nat with 3%nat;
       change ((4 - 2) mod 4)%nat with 2%nat; change ((4 - 3) mod 4)%nat with 1%nat.
    all: split; [|lia].
    - replace (4 * q + 0 + 0)%nat with (0 + q * 4)%nat by lia. now rewrite Nat.Div0.mod_add.
    - replace (4 * q + 1 + 3)%nat with (0 + (q + 1) * 4)%nat by lia. now rewrite Nat.Div0.mod_add.
    - replace (4 * q + 2 + 2)%nat with (0 + (q + 1) * 4)%nat by lia. now rewrite Nat.Div0.mod_add.
    - replace (4 * q + 3 + 1)%nat with (0 + (q + 1) * 4)%nat by lia. now rewrite Nat.Div0.mod_add. }
  rewrite <- (string_app_empty s) at 1. change EmptyString with (equals 0).
  rewrite (pad_loop_completes s p 0 3 Hmod) by lia.
  now rewrite string_length_app, equals_length.
Qed.

End Base64Facts.

(** ** Facts about [Ed25519PubEncoder] *)
Module Ed25519PubEncoderFacts.
Import Base58 Base58Facts.

Ltac eval_const t := let c := eval vm_compute in t in change t with c in *.


Lemma valBE_bytes_bound l : is_bytes l -> 0 <= Radix.valBE 256 l < 256 ^ Z.of_nat (length l).
Proof.
  intros Hl.
  pose proof (RadixFacts.val_bounds 256 ltac:(lia) (rev l) (Forall_rev Hl)) as H.
  rewrite <- valBE_rev, rev_involutive, length_rev in H. exact H.
Qed.

Lemma tag_value k :
  Radix.valBE 256 (Ed25519PubEncoder.code :: k) = Radix.valBE 256 (237 :: 1 :: k).
Proof.
  rewrite !valBE_cons. cbn [length].
  replace (Z.of_nat (S (length k))) with (Z.succ (Z.of_nat (length k))) by lia.
  rewrite Z.pow_succ_r by lia. unfold Ed25519PubEncoder.code. ring.
Qed.

Lemma tag_range k : is_bytes k -> Forall (fun b => 0 <= b < 2 ^ 16) (Ed25519PubEncoder.code :: k).
Proof.
  intros Hk. change (2 ^ 16) with 65536. constructor; [unfold Ed25519PubEncoder.code; lia|].
  eapply Forall_impl; [|exact Hk]. simpl. intros; lia.
Qed.

(** Handing [Base58.encode] the number [0xed01] followed by the key gives the
    text of the two tag octets [0xed], [0x01] followed by the key. *)
Lemma encode_tag k :
  is_bytes k -> Base58.encode (Ed25519PubEncoder.code :: k) = Base58.encode (237 :: 1 :: k).
Proof.
  intros Hk. unfold Base58.encode.
  pose proof (encode_fold_repr _ 0 [0] (RadixFacts.repr_zero 58 ltac:(lia)) (tag_range k Hk)) as H1.
  assert (Forall (fun b => 0 <= b < 2 ^ 16) (237 :: 1 :: k)) as Hr2.
  { change (2 ^ 16) with 65536. repeat (constructor; [lia|]).
    eapply Forall_impl; [|exact Hk]. simpl. intros; lia. }
  pose proof (encode_fold_repr _ 0 [0] (RadixFacts.repr_zero 58 ltac:(lia)) Hr2) as H2.
  fold (Radix.valBE 256 (Ed25519PubEncoder.code :: k)) in H1.
  fold (Radix.valBE 256 (237 :: 1 :: k)) in H2. rewrite tag_value in H1.
  rewrite (RadixFacts.repr_unique 58 ltac:(lia) _ _ _ H1 H2).
  replace (leading_zeros (Ed25519PubEncoder.code :: k)) with O by (destruct k; reflexivity).
  reflexivity.
Qed.

Lemma decode_encode_tag k :
  is_bytes k -> Base58.decode (Base58.encode (Ed25519PubEncoder.code :: k)) = Some (237 :: 1 :: k).
Proof.
  intros Hk. rewrite encode_tag by exact Hk. apply decode_encode.
  repeat (constructor; [lia|]). exact Hk.
Qed.

Lemma firstn_skipn_last3 {A} (l : list A) n :
  length l = S (S (S n)) -> exists a x y z, l = a ++ [x; y; z] /\ length a = n.
Proof.
  intros Hl. exists (firstn n l).
  pose proof (firstn_skipn n l) as E.
  assert (length (skipn n l) = 3%nat) as H3 by (rewrite length_skipn; lia).
  destruct (skipn n l) as [|x [|y [|z [|w r]]]]; simpl in H3; try discriminate.
  exists x, y, z. split; [now symmetry|]. rewrite length_firstn. lia.
Qed.

(** The text of a 34-octet string that opens with the tag opens with [6Mk]. *)
Lemma encode_tag_prefix k :
  is_bytes k -> length k = 32%nat ->
  exists r, Base58.encode (Ed25519PubEncoder.code :: k) = String "6" (String "M" (String "k" r)).
Proof.
  intros Hk Hlen. unfold Base58.encode.
  pose proof (encode_fold_repr _ 0 [0] (RadixFacts.repr_zero 58 ltac:(lia)) (tag_range k Hk)) as HD.
  fold (Radix.valBE 256 (Ed25519PubEncoder.code :: k)) in HD.
  set (D := fold_left encode_step (Ed25519PubEncoder.code :: k) [0]) in *.
  set (V := Radix.valBE 256 (Ed25519PubEncoder.code :: k)) in *.
  assert (60673 * 256 ^ 32 <= V < 60674 * 256 ^ 32) as HV.
  { subst V. rewrite valBE_cons, Hlen. pose proof (valBE_bytes_bound k Hk) as Hb. rewrite Hlen in Hb.
    unfold Ed25519PubEncoder.code. change (Z.of_nat 32) with 32 in *. lia. }
  replace (leading_zeros (Ed25519PubEncoder.code :: k)) with O by (destruct k; reflexivity).
  cbn [repeat]. rewrite app_nil_r.
  destruct (RadixFacts.repr_cases 58 ltac:(lia) _ _ HD) as [[_ HV0] | (a & top & HDeq & Ha & Htop & Hge)].
  { exfalso. eval_const (256 ^ 32). lia. }
  destruct HD as (HDok & HDv & _).
  pose proof (RadixFacts.val_bounds 58 ltac:(lia) _ HDok) as Hb. rewrite HDv, HDeq, length_app in Hb.
  cbn [length] in Hb.
  assert (length a = 46%nat) as Hla.
  { destruct (Nat.lt_trichotomy (length a) 46) as [Hlt | [E | Hgt]]; [exfalso | exact E | exfalso].
    - assert (58 ^ Z.of_nat (length a + 1) <= 58 ^ 46) by (apply Z.pow_le_mono_r; lia).
      eval_const (256 ^ 32).
      eval_const (58 ^ 46). lia.
    - assert (58 ^ 47 <= 58 ^ Z.of_nat (length a)) by (apply Z.pow_le_mono_r; lia).
      eval_const (256 ^ 32).
      eval_const (58 ^ 47). lia. }
  destruct (firstn_skipn_last3 (a ++ [top]) 44) as (lo & d44 & d45 & d46 & Hsplit & Hlo).
  { rewrite length_app, Hla. reflexivity. }
  assert (d46 = top) as ->.
  { apply (f_equal (fun l => last l 0)) in Hsplit. rewrite last_last in Hsplit.
    change (lo ++ [d44; d45; d46]) with (lo ++ [d44; d45] ++ [d46]) in Hsplit.
    rewrite app_assoc, last_last in Hsplit. congruence. }
  rewrite HDeq, Hsplit in HDok, HDv |- *.
  apply Forall_app in HDok as [Hlook Htl].
  inversion Htl as [|? ? H44 Htl']; subst. inversion Htl' as [|? ? H45 _]; subst.
  rewrite RadixFacts.val_app in HDv by lia. cbn [Radix.val] in HDv. rewrite Hlo in HDv.
  pose proof (RadixFacts.val_bounds 58 ltac:(lia) _ Hlook) as Hblo. rewrite Hlo in Hblo.
  eval_const (256 ^ 32).
  eval_const (58 ^ Z.of_nat 44).
  assert (top = 5 /\ d45 = 20 /\ d44 = 43) as (-> & -> & ->) by lia.
  rewrite rev_app_distr. cbn [rev app]. eexists. reflexivity.
Qed.

Lemma slice_did_key s :
  Ed25519PubEncoder.slice (String.length "did:key:z") ("did:key:z" ++ s) = s.
Proof. reflexivity. Qed.

Lemma startsWith_did_key r :
  Ed25519PubEncoder.startsWith ("did:key:z" ++ String "6" (String "M" (String "k" r)))
    "did:key:z6Mk" = true.
Proof. unfold Ed25519PubEncoder.startsWith. cbn. destruct r; reflexivity. Qed.

Lemma decode_encode_key k :
  is_bytes k -> length k = 32%nat ->
  Ed25519PubEncoder.decode (Ed25519PubEncoder.encode k) = Ok k.
Proof.
  intros Hk Hlen. unfold Ed25519PubEncoder.decode, Ed25519PubEncoder.encode.
  destruct (encode_tag_prefix k Hk Hlen) as (r & Hr).
  rewrite slice_did_key, (decode_encode_tag k Hk), Hr, startsWith_did_key.
  reflexivity.
Qed.

End Ed25519PubEncoderFacts.

(** ** Facts about [class DIDComm] *)

Lemma b64dec_to_base64_partial bin k :
  is_bytes bin -> (k <= Base64.padding_len bin)%nat ->
  b64dec (Base64.to_base64 bin Base64.URLSAFE_NO_PADDING ++ Base64.equals k) = Ok bin.
Proof.
  intros Hb Hk. unfold b64dec. cbn [Base64.to_base64].
  rewrite (Base64Facts.pad_loop_completes _ (Base64.padding_len bin) k 3).
  - change (Base64.chars_of (Base64.encode_sextets bin) ++ Base64.equals (Base64.padding_len bin))%string
      with (Base64.to_base64 bin Base64.URLSAFE).
    now rewrite Base64Facts.from_to_base64.
  - rewrite Base64Facts.chars_of_length. apply Base64Facts.padded_length.
  - exact Hk.
  - pose proof (Base64Facts.padding_len_le bin). lia.
  - pose proof (Base64Facts.padding_len_le bin). lia.
Qed.

Lemma b64dec_to_base64 bin v : is_bytes bin -> b64dec (Base64.to_base64 bin v) = Ok bin.
Proof.
  intros Hb. destruct v.
  - cbn [Base64.to_base64]. apply (b64dec_to_base64_partial bin (Base64.padding_len bin) Hb). lia.
  - rewrite <- (Base64Facts.string_app_empty (Base64.to_base64 _ _)).
    apply (b64dec_to_base64_partial bin 0 Hb). lia.
Qed.

Lemma to_base64_nonempty bin v :
  bin <> [] -> String.eqb (Base64.to_base64 bin v) EmptyString = false.
Proof.
  intros Hne. destruct bin as [|a [|b [|c r]]]; [congruence| | |]; destruct v; reflexivity.
Qed.

Lemma Base58_encode_nonempty b :
  is_bytes b -> b <> [] -> String.eqb (Base58.encode b) EmptyString = false.
Proof.
  intros Hb Hne. destruct (String.eqb_spec (Base58.encode b) EmptyString) as [E|]; [|reflexivity].
  pose proof (Base58Facts.decode_encode b Hb) as Hd. rewrite E in Hd. cbn in Hd. congruence.
Qed.

Lemma memcmp_refl b : memcmp b b = Ok true.
Proof.
  unfold memcmp. rewrite Nat.eqb_refl. f_equal.
  induction b as [|x b IH]; [reflexivity|]. cbn. now rewrite Z.eqb_refl, IH.
Qed.

Lemma json_wf_array l : json_wf (JArray l) = forallb json_wf l.
Proof. induction l as [|x l IH]; [reflexivity|]. cbn [forallb]. rewrite <- IH. reflexivity. Qed.

(** *** Which exceptions a computation can raise *)

Lemma never_bind {A B} e (r : result A) (k : A -> result B) :
  is_error e r = false -> (forall a, is_error e (k a) = false) -> is_error e (bind r k) = false.
Proof. intros Hr Hk. destruct r; [apply Hk | exact Hr]. Qed.

Lemma never_of_option {A} e e' (o : option A) :
  is_error (A := A) e (Throw e') = false -> is_error e (of_option o e') = false.
Proof. intros H. destruct o; [reflexivity | exact H]. Qed.

Lemma never_has e k o : is_error (A := bool) e (Throw TypeError) = false -> is_error e (has k o) = false.
Proof. intros H. destruct o; try exact H; reflexivity. Qed.

Lemma never_get e k o :
  is_error (A := option json) e (Throw TypeError) = false -> is_error e (get k o) = false.
Proof. intros H. destruct o as [[]|]; try exact H; reflexivity. Qed.

Lemma never_as_string e v :
  is_error (A := string) e (Throw TypeError) = false -> is_error e (as_string v) = false.
Proof. intros H. destruct v as [[]|]; try exact H; reflexivity. Qed.

Lemma never_memcmp e a b :
  is_error (A := bool) e (Throw (SodiumError "memcmp")) = false -> is_error e (memcmp a b) = false.
Proof. intros H. unfold memcmp. destruct (Nat.eqb _ _); [reflexivity | exact H]. Qed.

Lemma never_b64dec e s :
  is_error (A := bytes) e (Throw (SodiumError "from_base64")) = false ->
  is_error e (b64dec s) = false.
Proof. intros H. unfold b64dec. now apply never_of_option. Qed.

Ltac never :=
  repeat first
    [ reflexivity
    | apply never_bind; [ | intros ]
    | apply never_of_option; reflexivity
    | apply never_has; reflexivity
    | apply never_get; reflexivity
    | apply never_as_string; reflexivity
    | apply never_memcmp; reflexivity
    | apply never_b64dec; reflexivity
    | match goal with
      | |- is_error _ (if ?c then _ else _) = false => destruct c
      | |- is_error _ (match ?x with _ => _ end) = false => destruct x
      end ].

Section DIDCommFacts.
Context {S : Sodium} {J : JSON} {SL : SodiumLaws S} {JL : JSONLaws J}.
Local Open Scope string_scope.

Lemma b64dec_b64url_bin b pad : is_bytes b -> b64dec (b64url (Bin b) pad) = Ok b.
Proof. intros Hb. unfold b64url. now apply b64dec_to_base64. Qed.

Lemma strB64dec_b64url_str s pad : strB64dec (b64url (Str s) pad) = Ok s.
Proof.
  unfold strB64dec, b64url. cbn [any_to_Uint8Array].
  rewrite b64dec_to_base64 by apply from_string_bytes.
  cbn [bind]. now rewrite to_string_from_string.
Qed.

Lemma b64url_bin_nonempty b pad :
  b <> [] -> String.eqb (b64url (Bin b) pad) EmptyString = false.
Proof. intros Hb. unfold b64url. now rewrite to_base64_nonempty. Qed.

Lemma recipient_block_wf encCek nonce encSender targetVk :
  json_wf (recipient_block encCek nonce encSender targetVk) = true.
Proof. destruct nonce, encSender; reflexivity. Qed.

Lemma recipient_entry_anon cek targetVk cpk g :
  crypto_sign_ed25519_pk_to_curve25519 targetVk = Some cpk ->
  recipient_entry cek None targetVk g =
  (Ok (recipient_block (fst (crypto_box_seal cek cpk g)) None None targetVk),
   snd (crypto_box_seal cek cpk g)).
Proof.
  intros Hpk. unfold recipient_entry, bindM, lift, draw, ret. rewrite Hpk. cbn [of_option].
  destruct (crypto_box_seal cek cpk g) as [c g']. reflexivity.
Qed.

Lemma recipient_entry_auth cek fk targetVk cpk ssk g :
  crypto_sign_ed25519_pk_to_curve25519 targetVk = Some cpk ->
  crypto_sign_ed25519_sk_to_curve25519 (privateKey fk) = Some ssk ->
  let sealed := crypto_box_seal (from_string (Base58.encode (publicKey fk))) cpk g in
  let nonce := randombytes_buf crypto_box_NONCEBYTES (snd sealed) in
  recipient_entry cek (Some fk) targetVk g =
  (Ok (recipient_block (crypto_box_easy cek (fst nonce) cpk ssk)
         (Some (fst nonce)) (Some (fst sealed)) targetVk),
   snd nonce).
Proof.
  intros Hpk Hsk. unfold recipient_entry, bindM, lift, draw, ret. rewrite Hpk, Hsk. cbn [of_option].
  destruct (crypto_box_seal _ cpk g) as [c g1]. cbn [fst snd].
  destruct (randombytes_buf crypto_box_NONCEBYTES g1) as [n g2]. reflexivity.
Qed.


Local Opaque b64url b64dec Base58.encode Base58.decode.

Lemma locate_own_block_anon pkB skB cpk csk cek g nf :
  ed25519_keypair pkB skB ->
  crypto_sign_ed25519_pk_to_curve25519 pkB = Some cpk ->
  crypto_sign_ed25519_sk_to_curve25519 skB = Some csk ->
  curve25519_keypair cpk csk ->
  is_bytes cek ->
  locateRecKey_entry (recipient_block (fst (crypto_box_seal cek cpk g)) None None pkB) pkB skB nf
  = Ok (cek, None, Base58.encode pkB).
Proof.
  intros HB Hpk Hsk Hc Hcek.
  destruct (ed25519_public_bytes _ _ HB) as [HpkB _].
  unfold locateRecKey_entry, recipient_block. cbn.
  rewrite (Base58Facts.decode_encode pkB HpkB). cbn.
  rewrite memcmp_refl. cbn. rewrite Hpk, Hsk. cbn.
  rewrite b64dec_b64url_bin by apply seal_bytes. cbn.
  rewrite (seal_open_seal _ _ _ _ Hcek Hc). reflexivity.
Qed.


Lemma locate_own_block_auth pkB skB cpk csk pkA skA cpkA cskA cek n g nf :
  ed25519_keypair pkB skB ->
  crypto_sign_ed25519_pk_to_curve25519 pkB = Some cpk ->
  crypto_sign_ed25519_sk_to_curve25519 skB = Some csk ->
  curve25519_keypair cpk csk ->
  ed25519_keypair pkA skA ->
  crypto_sign_ed25519_pk_to_curve25519 pkA = Some cpkA ->
  curve25519_keypair cpkA cskA ->
  is_bytes cek -> is_bytes n -> length n = crypto_box_NONCEBYTES ->
  locateRecKey_entry
    (recipient_block (crypto_box_easy cek n cpk cskA) (Some n)
       (Some (fst (crypto_box_seal (from_string (Base58.encode pkA)) cpk g))) pkB)
    pkB skB nf
  = Ok (cek, Some (Base58.encode pkA), Base58.encode pkB).
Proof.
  intros HB Hpk Hsk Hc HA HpkA HcA Hcek Hn Hnl.
  destruct (ed25519_public_bytes _ _ HB) as [HpkB _].
  destruct (ed25519_public_bytes _ _ HA) as [HpkAb _].
  unfold locateRecKey_entry, recipient_block. cbn.
  rewrite (Base58Facts.decode_encode pkB HpkB). cbn.
  rewrite memcmp_refl. cbn. rewrite Hpk, Hsk. cbn.
  rewrite b64dec_b64url_bin by apply box_bytes. cbn.
  rewrite b64url_bin_nonempty by (intros ->; discriminate).
  rewrite b64dec_b64url_bin by exact Hn. cbn.
  rewrite b64url_bin_nonempty.
  2:{ intros E. pose proof (seal_length (from_string (Base58.encode pkA)) cpk g) as Hl.
      rewrite E in Hl. cbn in Hl. unfold crypto_box_SEALBYTES in Hl. lia. }
  rewrite b64dec_b64url_bin by apply seal_bytes. cbn.
  rewrite (seal_open_seal _ _ _ _ (from_string_bytes _) Hc). cbn.
  rewrite to_string_from_string. cbn.
  rewrite (Base58Facts.decode_encode pkA HpkAb). cbn. rewrite HpkA. cbn.
  rewrite (box_open_box _ _ _ _ _ _ Hcek Hc HcA Hnl). reflexivity.
Qed.

Lemma recipient_entry_ok cek fromKeys targetVk g :
  public_key targetVk -> sender_ok fromKeys ->
  exists r g', recipient_entry cek fromKeys targetVk g = (Ok r, g') /\
               json_wf r = true /\ block_of_mode fromKeys r.
Proof.
  intros [sk Hvk] Hs.
  destruct (ed25519_to_curve25519 _ _ Hvk) as (cpk & csk & Hpk & _ & _).
  destruct fromKeys as [fk|].
  - destruct (ed25519_to_curve25519 _ _ Hs) as (cpkA & cskA & _ & HskA & _).
    rewrite (recipient_entry_auth cek fk targetVk cpk cskA g Hpk HskA).
    do 2 eexists. split; [reflexivity|]. split; [apply recipient_block_wf|].
    do 2 eexists. do 2 eexists. split; [|split; [|reflexivity]].
    + intros E. pose proof (randombytes_buf_length crypto_box_NONCEBYTES
        (snd (crypto_box_seal (from_string (Base58.encode (publicKey fk))) cpk g))) as Hl.
      rewrite E in Hl. discriminate.
    + intros E. pose proof (seal_length (from_string (Base58.encode (publicKey fk))) cpk g) as Hl.
      rewrite E in Hl. cbn in Hl. unfold crypto_box_SEALBYTES in Hl. lia.
  - rewrite (recipient_entry_anon cek targetVk cpk g Hpk).
    do 2 eexists. split; [reflexivity|]. split; [apply recipient_block_wf|].
    do 2 eexists. reflexivity.
Qed.

Lemma forEach_recipient_ok cek fromKeys toKeys :
  Forall public_key toKeys -> sender_ok fromKeys ->
  forall acc g,
  exists rs g',
    forEach_recipient cek fromKeys toKeys acc g = (Ok (acc ++ rs)%list, g') /\
    length rs = length toKeys /\
    forallb json_wf rs = true /\
    Forall (block_of_mode fromKeys) rs /\
    (forall vk rest, toKeys = vk :: rest ->
       exists r rs', rs = r :: rs' /\ fst (recipient_entry cek fromKeys vk g) = Ok r).
Proof.
  intros Hks Hs. induction Hks as [|vk rest Hvk Hrest IH]; intros acc g.
  - exists [], g. cbn. rewrite app_nil_r. repeat split; auto. intros; discriminate.
  - destruct (recipient_entry_ok cek fromKeys vk g Hvk Hs) as (r & g1 & Hr & Hwf & Hmode).
    destruct (IH (acc ++ [r])%list g1) as (rs & g' & Hrs & Hlen & Hwfs & Hmodes & _).
    exists (r :: rs), g'. cbn [forEach_recipient]. unfold bindM at 1. rewrite Hr, Hrs.
    rewrite <- app_assoc. cbn [app length forallb]. rewrite Hwf, Hwfs, Hlen.
    repeat split; auto.
    intros vk' rest' E. injection E as <- <-. exists r, rs. now rewrite Hr.
Qed.


Lemma packMessage_as_tagged m toKeys fromKeys g :
  packMessage m toKeys fromKeys g =
  let '(r, g') := packMessage_tagged (JString "xchacha20poly1305_ietf") (JString "JWM/1.0")
                    m toKeys fromKeys g in
  (match r with Ok w => Ok (JSON_stringify w) | Throw e => Throw e end, g').
Proof.
  unfold packMessage, packMessage_tagged, prepareRecipientKeys, encryptPlaintext, bindM, draw, ret.
  destruct (crypto_secretstream_xchacha20poly1305_keygen g) as [cek g0].
  destruct (forEach_recipient cek fromKeys toKeys [] g0) as [[rs|e] g1]; [|reflexivity].
  destruct (randombytes_buf crypto_aead_chacha20poly1305_ietf_NPUBBYTES g1) as [iv g2].
  reflexivity.
Qed.

Lemma header_json_wf fromKeys enc rs typ :
  json_wf enc = true -> json_wf typ = true -> forallb json_wf rs = true ->
  json_wf (header_json fromKeys enc rs typ) = true.
Proof.
  intros Henc Htyp Hrs. unfold header_json. cbn. rewrite Henc, Htyp. cbn [andb].
  rewrite andb_true_r.
  change ((fix all (l : list json) : bool :=
             match l with [] => true | x :: r => json_wf x && all r end) rs)
    with (json_wf (JArray rs)).
  now rewrite json_wf_array.
Qed.

(** What a pack call with well-formed keys produces. *)
Lemma packMessage_tagged_ok enc typ m toKeys fromKeys g :
  Forall public_key toKeys -> sender_ok fromKeys ->
  exists cek rs iv g1 g',
    let protected := b64url (Str (JSON_stringify (header_json fromKeys enc rs typ))) true in
    let out := crypto_aead_chacha20poly1305_ietf_encrypt_detached
                 (from_string m) (from_string protected) iv cek in
    packMessage_tagged enc typ m toKeys fromKeys g
    = (Ok (envelope_json (fst out) iv protected (snd out)), g') /\
    is_bytes cek /\ length cek = crypto_aead_chacha20poly1305_ietf_KEYBYTES /\
    is_bytes iv /\ length iv = crypto_aead_chacha20poly1305_ietf_NPUBBYTES /\
    length rs = length toKeys /\
    forallb json_wf rs = true /\
    Forall (block_of_mode fromKeys) rs /\
    (forall vk rest, toKeys = vk :: rest ->
       exists r rs', rs = r :: rs' /\ fst (recipient_entry cek fromKeys vk g1) = Ok r).
Proof.
  intros Hks Hs.
  unfold packMessage_tagged, encryptPlaintext, bindM, draw, ret.
  pose proof (keygen_bytes g) as Hcek. pose proof (keygen_length g) as Hcekl.
  destruct (crypto_secretstream_xchacha20poly1305_keygen g) as [cek g0]. cbn [fst] in Hcek, Hcekl.
  destruct (forEach_recipient_ok cek fromKeys _ Hks Hs [] g0)
    as (rs & g1 & Hrs & Hlen & Hwfs & Hmodes & Hhead).
  rewrite Hrs. cbn [app].
  pose proof (randombytes_buf_bytes crypto_aead_chacha20poly1305_ietf_NPUBBYTES g1) as Hiv.
  pose proof (randombytes_buf_length crypto_aead_chacha20poly1305_ietf_NPUBBYTES g1) as Hivl.
  destruct (randombytes_buf crypto_aead_chacha20poly1305_ietf_NPUBBYTES g1) as [iv g2].
  cbn [fst] in Hiv, Hivl.
  exists cek, rs, iv, g0, g2. cbv zeta. split; [reflexivity|]. repeat split; auto.
Qed.

(** [unpackMessage] on such an envelope, up to the search for the key. *)
Lemma unpack_envelope_json c iv tag header keys pub priv :
  json_wf header = true ->
  is_bytes c -> is_bytes iv -> is_bytes tag ->
  normalize_key (publicKeyArg keys) = Ok pub ->
  normalize_key (privateKeyArg keys) = Ok priv ->
  let protected := b64url (Str (JSON_stringify header)) true in
  unpackMessage (EnvelopeObject (envelope_json c iv protected tag)) keys =
  (alg <- get "alg" (Some header) ;;
   let isAuthcrypt := match alg with Some (JString a) => String.eqb a "Authcrypt" | _ => false end in
   let isAnoncrypt := match alg with Some (JString a) => String.eqb a "Anoncrypt" | _ => false end in
   if negb isAuthcrypt && negb isAnoncrypt then Throw UnsupportedAlgorithm
   else
     recipients <- get "recipients" (Some header) ;;
     ' (cek, senderVk, recipVk) <- locateRecKey recipients pub priv ;;
     let sender_falsy :=
       match senderVk with Some s => String.eqb s EmptyString | None => true end in
     if sender_falsy && isAuthcrypt then Throw MissingSenderKey
     else
       message <- decryptPlaintext c tag protected iv cek ;;
       Ok {| message := message; recipientKey := recipVk; senderKey := senderVk |})%js.
Proof.
  intros Hwf Hc Hiv Htag Hpub Hpriv protected.
  unfold unpackMessage, envelope_json. rewrite Hpub, Hpriv. cbn [bind of_option].
  change (get "protected" (Some (JObject _))) with (Ok (A := option json) (Some (JString protected))).
  cbn [bind as_string].
  subst protected. rewrite strB64dec_b64url_str. cbn [bind].
  rewrite (JSON_parse_stringify header Hwf). cbn [bind of_option].
  destruct (get "alg" (Some header)) as [alg|e]; [|reflexivity]. cbn [bind].
  destruct (negb _ && negb _); [reflexivity|].
  destruct (get "recipients" (Some header)) as [recipients|e]; [|reflexivity]. cbn [bind].
  destruct (locateRecKey recipients pub priv) as [[[cek senderVk] recipVk]|e]; [|reflexivity].
  cbn [bind].
  destruct (_ && _); [reflexivity|]. cbn.
  rewrite !b64dec_b64url_bin by assumption. reflexivity.
Qed.

(** The loop body ends in [return] or in one of its own exceptions: it never
    reports that the key was not found. *)
Lemma locateRecKey_entry_never_not_found recip pub priv nf :
  is_error RecipientNotFound (locateRecKey_entry recip pub priv nf) = false.
Proof. unfold locateRecKey_entry. never. Qed.

Lemma decryptPlaintext_never_not_found c t p n k :
  is_error RecipientNotFound (decryptPlaintext c t p n k) = false.
Proof. unfold decryptPlaintext. never. Qed.


Lemma memcmp_same_length a b :
  length a = length b -> exists same, memcmp a b = Ok same.
Proof. intros H. unfold memcmp. rewrite H, Nat.eqb_refl. eauto. Qed.

(** Examining a block written for [pkB] with keys that open none of its
    boxes stops at the first [crypto_box_seal_open]. *)
Lemma locate_foreign_block cek fromKeys pkB g pkC skC cpkB cpkC cskC nf r :
  public_key pkB -> sender_ok fromKeys ->
  ed25519_keypair pkC skC ->
  crypto_sign_ed25519_pk_to_curve25519 pkB = Some cpkB ->
  crypto_sign_ed25519_pk_to_curve25519 pkC = Some cpkC ->
  crypto_sign_ed25519_sk_to_curve25519 skC = Some cskC ->
  cannot_open cpkB cpkC cskC ->
  fst (recipient_entry cek fromKeys pkB g) = Ok r ->
  locateRecKey_entry r pkC skC nf = Throw (SodiumError "crypto_box_seal_open").
Proof.
  intros [skB HB] Hs HC HpkB HpkC HskC Hno Hr.
  destruct (ed25519_public_bytes _ _ HB) as [HbB HlB].
  destruct (ed25519_public_bytes _ _ HC) as [HbC HlC].
  destruct (memcmp_same_length pkB pkC ltac:(congruence)) as [same Hsame].
  destruct fromKeys as [fk|].
  - destruct (ed25519_to_curve25519 _ _ Hs) as (cpkA & cskA & HpkA & HskA & HcA).
    rewrite (recipient_entry_auth cek fk pkB cpkB cskA g HpkB HskA) in Hr.
    cbn [fst] in Hr. injection Hr as <-.
    unfold locateRecKey_entry, recipient_block. cbn.
    rewrite (Base58Facts.decode_encode pkB HbB). cbn. rewrite Hsame. cbn.
    rewrite HpkC, HskC. cbn.
    rewrite b64dec_b64url_bin by apply box_bytes. cbn.
    rewrite b64url_bin_nonempty.
    2:{ intros E. pose proof (randombytes_buf_length crypto_box_NONCEBYTES
          (snd (crypto_box_seal (from_string (Base58.encode (publicKey fk))) cpkB g))) as Hl.
        rewrite E in Hl. discriminate. }
    rewrite b64dec_b64url_bin by apply randombytes_buf_bytes. cbn.
    rewrite b64url_bin_nonempty.
    2:{ intros E. pose proof (seal_length (from_string (Base58.encode (publicKey fk))) cpkB g) as Hl.
        rewrite E in Hl. cbn in Hl. unfold crypto_box_SEALBYTES in Hl. lia. }
    rewrite b64dec_b64url_bin by apply seal_bytes. cbn.
    rewrite Hno. reflexivity.
  - rewrite (recipient_entry_anon cek pkB cpkB g HpkB) in Hr. cbn [fst] in Hr. injection Hr as <-.
    unfold locateRecKey_entry, recipient_block. cbn.
    rewrite (Base58Facts.decode_encode pkB HbB). cbn. rewrite Hsame. cbn.
    rewrite HpkC, HskC. cbn.
    rewrite b64dec_b64url_bin by apply seal_bytes. cbn.
    rewrite Hno. reflexivity.
Qed.

(** Whoever examines an authenticated block, and with whatever keys: if the
    examination returns, it returns the sender the block was written for. *)
Lemma locate_auth_block_sender cek fk vk g pub priv nf r cek' senderVk kid :
  seal_integrity ->
  public_key vk -> sender_ok (Some fk) ->
  fst (recipient_entry cek (Some fk) vk g) = Ok r ->
  locateRecKey_entry r pub priv nf = Ok (cek', senderVk, kid) ->
  senderVk = Some (Base58.encode (publicKey fk)).
Proof.
  intros Hint [sk Hvk] Hs Hr Hloc.
  destruct (ed25519_to_curve25519 _ _ Hvk) as (cpk & csk & Hpk & _ & _).
  destruct (ed25519_to_curve25519 _ _ Hs) as (cpkA & cskA & HpkA & HskA & HcA).
  rewrite (recipient_entry_auth cek fk vk cpk cskA g Hpk HskA) in Hr.
  cbn [fst] in Hr. injection Hr as <-.
  unfold locateRecKey_entry, recipient_block in Hloc. cbn in Hloc.
  destruct (Base58.decode (Base58.encode vk)) as [recipVk|]; [|discriminate]. cbn in Hloc.
  destruct (memcmp recipVk pub) as [same|]; [|discriminate]. cbn in Hloc.
  destruct (crypto_sign_ed25519_pk_to_curve25519 pub) as [pk'|]; [|discriminate]. cbn in Hloc.
  destruct (crypto_sign_ed25519_sk_to_curve25519 priv) as [sk'|]; [|discriminate]. cbn in Hloc.
  rewrite b64dec_b64url_bin in Hloc by apply box_bytes. cbn in Hloc.
  rewrite b64url_bin_nonempty in Hloc.
  2:{ intros E. pose proof (randombytes_buf_length crypto_box_NONCEBYTES
        (snd (crypto_box_seal (from_string (Base58.encode (publicKey fk))) cpk g))) as Hl.
      rewrite E in Hl. discriminate. }
  rewrite b64dec_b64url_bin in Hloc by apply randombytes_buf_bytes. cbn in Hloc.
  rewrite b64url_bin_nonempty in Hloc.
  2:{ intros E. pose proof (seal_length (from_string (Base58.encode (publicKey fk))) cpk g) as Hl.
      rewrite E in Hl. cbn in Hl. unfold crypto_box_SEALBYTES in Hl. lia. }
  rewrite b64dec_b64url_bin in Hloc by apply seal_bytes. cbn in Hloc.
  destruct (crypto_box_seal_open _ pk' sk') as [opened|] eqn:Hopen; [|discriminate].
  apply Hint in Hopen; [|apply from_string_bytes]. subst opened. cbn in Hloc.
  rewrite to_string_from_string in Hloc. cbn in Hloc.
  destruct (Base58.decode (Base58.encode (publicKey fk))) as [raw|]; [|discriminate]. cbn in Hloc.
  destruct (crypto_sign_ed25519_pk_to_curve25519 raw) as [spk|]; [|discriminate]. cbn in Hloc.
  destruct (crypto_box_open_easy _ _ spk sk') as [k|]; [|discriminate]. cbn in Hloc.
  now injection Hloc as _ <- _.
Qed.

Lemma locate_anon_block_sender cek vk g pub priv nf r cek' senderVk kid :
  public_key vk ->
  fst (recipient_entry cek None vk g) = Ok r ->
  locateRecKey_entry r pub priv nf = Ok (cek', senderVk, kid) ->
  senderVk = None.
Proof.
  intros [sk Hvk] Hr Hloc.
  destruct (ed25519_to_curve25519 _ _ Hvk) as (cpk & csk & Hpk & _ & _).
  rewrite (recipient_entry_anon cek vk cpk g Hpk) in Hr. cbn [fst] in Hr. injection Hr as <-.
  unfold locateRecKey_entry, recipient_block in Hloc. cbn in Hloc.
  destruct (Base58.decode (Base58.encode vk)) as [recipVk|]; [|discriminate]. cbn in Hloc.
  destruct (memcmp recipVk pub) as [same|]; [|discriminate]. cbn in Hloc.
  destruct (crypto_sign_ed25519_pk_to_curve25519 pub) as [pk'|]; [|discriminate]. cbn in Hloc.
  destruct (crypto_sign_ed25519_sk_to_curve25519 priv) as [sk'|]; [|discriminate]. cbn in Hloc.
  destruct (b64dec _) as [ek|]; [|discriminate]. cbn in Hloc.
  destruct (crypto_box_seal_open ek pk' sk') as [k|]; [|discriminate]. cbn in Hloc.
  now injection Hloc as _ <- _.
Qed.

Lemma envelope_json_wf c iv p t : json_wf (envelope_json c iv p t) = true.
Proof. reflexivity. Qed.

Lemma unpack_text w keys :
  json_wf w = true ->
  unpackMessage (EnvelopeText (JSON_stringify w)) keys = unpackMessage (EnvelopeObject w) keys.
Proof. intros Hwf. unfold unpackMessage. now rewrite (JSON_parse_stringify w Hwf). Qed.

Lemma normalize_key_never e k :
  is_error (A := bytes) e (Throw Base58Error) = false -> is_error e (normalize_key k) = false.
Proof. intros H. destruct k; [now apply never_of_option | reflexivity]. Qed.

Lemma unpack_bad_public_key w keys e :
  normalize_key (publicKeyArg keys) = Throw e ->
  (exists w', match w with EnvelopeText s => JSON_parse s = Some w' | EnvelopeObject o => o = w' end) ->
  unpackMessage w keys = Throw e.
Proof.
  intros Hk [w' Hw]. unfold unpackMessage.
  destruct w as [s|o]; [rewrite Hw | subst o]; cbn [of_option bind]; now rewrite Hk.
Qed.

Lemma unpack_bad_private_key w keys pub e :
  normalize_key (publicKeyArg keys) = Ok pub ->
  normalize_key (privateKeyArg keys) = Throw e ->
  (exists w', match w with EnvelopeText s => JSON_parse s = Some w' | EnvelopeObject o => o = w' end) ->
  unpackMessage w keys = Throw e.
Proof.
  intros Hp Hk [w' Hw]. unfold unpackMessage.
  destruct w as [s|o]; [rewrite Hw | subst o]; cbn [of_option bind]; now rewrite Hp, Hk.
Qed.

(** [unpackMessage] on the envelope of a pack call, once the keys are in raw
    form: what is left is the search for the key and the decryption. *)
Lemma unpack_packed_envelope fromKeys enc rs typ m iv cek keys pub priv :
  json_wf enc = true -> json_wf typ = true -> forallb json_wf rs = true ->
  is_bytes iv ->
  normalize_key (publicKeyArg keys) = Ok pub ->
  normalize_key (privateKeyArg keys) = Ok priv ->
  let protected := b64url (Str (JSON_stringify (header_json fromKeys enc rs typ))) true in
  let out := crypto_aead_chacha20poly1305_ietf_encrypt_detached
               (from_string m) (from_string protected) iv cek in
  unpackMessage (EnvelopeObject (envelope_json (fst out) iv protected (snd out))) keys =
  (' (cek', senderVk, recipVk) <- locateRecKey (Some (JArray rs)) pub priv ;;
   let sender_falsy :=
     match senderVk with Some s => String.eqb s EmptyString | None => true end in
   if sender_falsy && (match fromKeys with Some _ => true | None => false end)
   then Throw MissingSenderKey
   else
     message <- decryptPlaintext (fst out) (snd out) protected iv cek' ;;
     Ok {| message := message; recipientKey := recipVk; senderKey := senderVk |})%js.
Proof.
  intros Henc Htyp Hrs Hiv Hpub Hpriv protected out.
  destruct (aead_bytes (from_string m) (from_string protected) iv cek) as [Hc Ht].
  subst protected out.
  rewrite (unpack_envelope_json _ _ _ _ keys pub priv
             (header_json_wf fromKeys enc rs typ Henc Htyp Hrs) Hc Hiv Ht Hpub Hpriv).
  unfold header_json. destruct fromKeys; reflexivity.
Qed.

Lemma locateRecKey_first r rs pub priv :
  locateRecKey (Some (JArray (r :: rs))) pub priv = locateRecKey_entry r pub priv [].
Proof. reflexivity. Qed.

(** The first recipient recovers the message, the sender and its own
    identifier, whatever the tags of the protected header are. *)
Lemma unpack_pack_tagged enc typ m pkB skB rest fromKeys g :
  json_wf enc = true -> json_wf typ = true ->
  ed25519_keypair pkB skB -> Forall public_key rest -> sender_ok fromKeys ->
  exists w g',
    packMessage_tagged enc typ m (pkB :: rest) fromKeys g = (Ok w, g') /\
    json_wf w = true /\
    unpackMessage (EnvelopeObject w) (raw_keys {| publicKey := pkB; privateKey := skB |})
    = Ok {| message := m;
            recipientKey := Base58.encode pkB;
            senderKey := option_map (fun fk => Base58.encode (publicKey fk)) fromKeys |}.
Proof.
  intros Henc Htyp HB Hrest Hs.
  assert (Forall public_key (pkB :: rest)) as Hks by (constructor; [now exists skB | exact Hrest]).
  destruct (packMessage_tagged_ok enc typ m _ fromKeys g Hks Hs)
    as (cek & rs & iv & g1 & g' & Hpack & Hcek & Hcekl & Hiv & Hivl & _ & Hwfs & _ & Hhead).
  cbv zeta in Hpack. rewrite Hpack. do 2 eexists. split; [reflexivity|].
  split; [apply envelope_json_wf|].
  rewrite (unpack_packed_envelope fromKeys enc rs typ m iv cek
             (raw_keys {| publicKey := pkB; privateKey := skB |}) pkB skB
             Henc Htyp Hwfs Hiv eq_refl eq_refl).
  destruct (Hhead pkB rest eq_refl) as (r & rs' & -> & Hr).
  rewrite locateRecKey_first.
  destruct (ed25519_to_curve25519 _ _ HB) as (cpk & csk & Hpk & Hsk & Hc).
  assert (locateRecKey_entry r pkB skB []
          = Ok (cek, option_map (fun fk => Base58.encode (publicKey fk)) fromKeys, Base58.encode pkB))
    as ->.
  { destruct fromKeys as [fk|].
    - destruct (ed25519_to_curve25519 _ _ Hs) as (cpkA & cskA & HpkA & HskA & HcA).
      rewrite (recipient_entry_auth cek fk pkB cpk cskA g1 Hpk HskA) in Hr.
      cbn [fst] in Hr. injection Hr as <-.
      eapply locate_own_block_auth; eauto.
      + apply randombytes_buf_bytes.
      + apply randombytes_buf_length.
    - rewrite (recipient_entry_anon cek pkB cpk g1 Hpk) in Hr. cbn [fst] in Hr. injection Hr as <-.
      eapply locate_own_block_anon; eauto. }
  cbn [bind].
  assert ((match option_map (fun fk => Base58.encode (publicKey fk)) fromKeys with
           | Some s => String.eqb s EmptyString
           | None => true
           end && match fromKeys with Some _ => true | None => false end) = false) as ->.
  { destruct fromKeys as [fk|]; [|reflexivity]. cbn [option_map].
    rewrite Base58_encode_nonempty; [reflexivity | apply (ed25519_public_bytes _ _ Hs) |].
    intros E. destruct (ed25519_public_bytes _ _ Hs) as [_ Hl]. rewrite E in Hl. discriminate. }
  unfold decryptPlaintext.
  rewrite aead_decrypt_encrypt by (try apply from_string_bytes; assumption).
  cbn [of_option bind]. now rewrite to_string_from_string.
Qed.

End DIDCommFacts.

(** ** The reference platform satisfies the laws *)
Module ReferenceFacts.
Import Reference.
Local Open Scope string_scope.

Lemma read_unary_unary n rest : read_unary (unary n ++ rest) = Some (n, rest).
Proof. induction n as [|n IH]; [reflexivity|]. cbn. now rewrite IH. Qed.

Lemma take_app s rest : take (String.length s) (s ++ rest) = Some (s, rest).
Proof. induction s as [|c s IH]; [reflexivity|]. cbn. now rewrite IH. Qed.

Lemma read_write_string s rest : read_string (write_string s ++ rest) = Some (s, rest).
Proof.
  unfold read_string, write_string.
  now rewrite Base64Facts.string_app_assoc, read_unary_unary, take_app.
Qed.

Lemma read_write_Z z rest : read_Z (write_Z z ++ rest) = Some (z, rest).
Proof.
  unfold read_Z, write_Z. destruct (Z.ltb_spec z 0); cbn; rewrite read_unary_unary;
    do 2 f_equal; lia.
Qed.

Lemma read_items_write rd items : forall rest,
  Forall (fun x => forall rest', rd (write x ++ rest') = Some (x, rest')) items ->
  read_items rd (length items) (concat_strings (map write items) ++ rest) = Some (items, rest).
Proof.
  induction items as [|x items IH]; intros rest H; [reflexivity|].
  inversion H as [|? ? Hx Hitems]; subst. cbn.
  now rewrite Base64Facts.string_app_assoc, Hx, IH.
Qed.

Lemma read_fields_write rd fields : forall rest,
  Forall (fun kv => forall rest', rd (write (snd kv) ++ rest') = Some (snd kv, rest')) fields ->
  read_fields rd (length fields)
    (concat_strings (map (fun kv => write_string (fst kv) ++ write (snd kv)) fields) ++ rest)
  = Some (fields, rest).
Proof.
  induction fields as [|[k x] fields IH]; intros rest H; [reflexivity|].
  inversion H as [|? ? Hx Hfields]; subst. cbn [length map concat_strings fold_right fst snd read_fields].
  fold (concat_strings (map (fun kv => write_string (fst kv) ++ write (snd kv)) fields)).
  rewrite !Base64Facts.string_app_assoc, read_write_string. cbn in Hx. rewrite Hx, IH by exact Hfields.
  reflexivity.
Qed.

Lemma list_max_map_le {A} (f : A -> nat) l n :
  (list_max (map f l) <= n)%nat -> Forall (fun x => (f x <= n)%nat) l.
Proof.
  intros H. apply list_max_le in H. rewrite Forall_map in H. exact H.
Qed.

Lemma read_write fuel : forall v rest,
  (depth v <= fuel)%nat -> read fuel (write v ++ rest) = Some (v, rest).
Proof.
  induction fuel as [|f IH]; intros v rest Hd.
  - destruct v; cbn in Hd; lia.
  - destruct v as [| [|] | z | s | items | fields]; cbn [write depth] in *; try reflexivity.
    + cbn. now rewrite read_write_Z.
    + cbn. now rewrite read_write_string.
    + cbn [String.append read]. cbn [Ascii.eqb Bool.eqb]. cbn.
      rewrite Base64Facts.string_app_assoc, read_unary_unary, read_items_write; [reflexivity|].
      apply le_S_n in Hd. apply list_max_map_le in Hd.
      eapply Forall_impl; [|exact Hd]. intros x Hx rest'. now apply IH.
    + cbn [String.append read]. cbn.
      rewrite Base64Facts.string_app_assoc, read_unary_unary, read_fields_write; [reflexivity|].
      apply le_S_n in Hd. apply list_max_map_le in Hd.
      eapply Forall_impl; [|exact Hd]. intros x Hx rest'. now apply IH.
Qed.

Lemma concat_strings_length_max {A} (w : A -> string) (d : A -> nat) l :
  Forall (fun x => (d x <= String.length (w x))%nat) l ->
  (list_max (map d l) <= String.length (concat_strings (map w l)))%nat.
Proof.
  induction 1 as [|x l Hx _ IH]; [cbn; lia|].
  cbn [map list_max concat_strings fold_right]. fold (concat_strings (map w l)).
  rewrite Base64Facts.string_length_app.
  change (fold_right Nat.max 0%nat (map d l)) with (list_max (map d l)). lia.
Qed.

Lemma depth_le_length n : forall v, (depth v <= n)%nat -> (depth v <= String.length (write v))%nat.
Proof.
  induction n as [|n IH]; intros v Hd.
  - destruct v; cbn in Hd; lia.
  - destruct v as [| [|] | z | s | items | fields]; cbn [write depth] in *;
      try (cbn; lia).
    + apply le_S_n in Hd. pose proof (list_max_map_le _ _ _ Hd) as Hall.
      cbn [String.append String.length]. rewrite Base64Facts.string_length_app.
      apply le_n_S.
      pose proof (concat_strings_length_max write depth items) as Hm.
      assert (Forall (fun x => (depth x <= String.length (write x))%nat) items) as Hall'.
      { eapply Forall_impl; [|exact Hall]. intros x Hx. now apply IH. }
      specialize (Hm Hall'). lia.
    + apply le_S_n in Hd. pose proof (list_max_map_le _ _ _ Hd) as Hall.
      cbn [String.append String.length]. rewrite Base64Facts.string_length_app.
      apply le_n_S.
      pose proof (concat_strings_length_max
                    (fun kv => write_string (fst kv) ++ write (snd kv))
                    (fun kv => depth (snd kv)) fields) as Hm.
      assert (Forall (fun kv => (depth (snd kv)
                <= String.length (write_string (fst kv) ++ write (snd kv)))%nat) fields) as Hall'.
      { eapply Forall_impl; [|exact Hall]. intros x Hx. cbn beta in *.
        rewrite Base64Facts.string_length_app. specialize (IH _ Hx). lia. }
      specialize (Hm Hall'). lia.
Qed.

Lemma parse_write v : parse (write v) = Some v.
Proof.
  unfold parse. rewrite <- (Base64Facts.string_app_empty (write v)) at 2.
  rewrite read_write; [reflexivity|].
  pose proof (depth_le_length (depth v) v (le_n _)). lia.
Qed.

Lemma json_laws : JSONLaws json_codec.
Proof. constructor. intros v _. apply parse_write. Qed.


Lemma octets_bytes l : is_bytes (octets l).
Proof.
  unfold is_bytes, octets. apply Forall_map, Forall_forall. intros x _.
  apply Z.mod_pos_bound. lia.
Qed.

Lemma octets_id l : is_bytes l -> octets l = l.
Proof.
  induction 1 as [|x l Hx _ IH]; [reflexivity|].
  cbn [octets map]. fold (octets l). rewrite IH. f_equal. apply Z.mod_small. lia.
Qed.

Lemma octets_length l : length (octets l) = length l.
Proof. apply length_map. Qed.

Lemma bytes_eqb_refl l : bytes_eqb l l = true.
Proof. induction l as [|x l IH]; [reflexivity|]. cbn. now rewrite Z.eqb_refl, IH. Qed.

Lemma fill_bytes g n : is_bytes (fill g n).
Proof.
  apply Forall_forall. intros x Hx. apply repeat_spec in Hx. subst x.
  pose proof (Nat.mod_upper_bound g 256 ltac:(lia)). lia.
Qed.

Lemma zeros_bytes n : is_bytes (repeat 0 n).
Proof. apply Forall_forall. intros x Hx. apply repeat_spec in Hx. lia. Qed.

Lemma firstn_all_app {A} (l l' : list A) : firstn (length l) (l ++ l') = l.
Proof. rewrite firstn_app, firstn_all, Nat.sub_diag, firstn_O. apply app_nil_r. Qed.

Lemma skipn_all_app {A} (l l' : list A) : skipn (length l) (l ++ l') = l'.
Proof. rewrite skipn_app, skipn_all, Nat.sub_diag. reflexivity. Qed.

Lemma firstn_len_app {A} n (l l' : list A) : length l = n -> firstn n (l ++ l') = l.
Proof. intros <-. apply firstn_all_app. Qed.

Lemma skipn_len_app {A} n (l l' : list A) : length l = n -> skipn n (l ++ l') = l'.
Proof. intros <-. apply skipn_all_app. Qed.

Lemma shared_comm a b : shared a b = shared b a.
Proof.
  unfold shared. f_equal.
  generalize (firstn 16 a) (firstn 16 b). intros x. induction x as [|u x IH]; intros [|v y];
    try reflexivity.
  cbn. rewrite IH. f_equal. lia.
Qed.

Lemma shared_length a b :
  length a = 32%nat -> length b = 32%nat -> length (shared a b) = 16%nat.
Proof.
  intros Ha Hb. unfold shared. rewrite octets_length, length_map, length_combine, !length_firstn.
  lia.
Qed.

Lemma code_units_bytes s : is_bytes (code_units s).
Proof.
  unfold code_units. apply Forall_map, Forall_forall. intros c _.
  pose proof (N_ascii_bounded c). lia.
Qed.

Lemma string_of_code_units s : string_of_bytes (code_units s) = s.
Proof.
  unfold string_of_bytes, code_units. rewrite map_map.
  rewrite (map_ext _ (fun c => c)).
  - rewrite map_id. apply string_of_list_ascii_of_string.
  - intros c. now rewrite N2Z.id, ascii_N_embedding.
Qed.

Lemma sodium_laws : SodiumLaws sodium.
Proof.
  constructor;
    cbn [sodium rng randombytes_buf crypto_secretstream_xchacha20poly1305_keygen
         crypto_sign_keypair crypto_sign_ed25519_pk_to_curve25519
         crypto_sign_ed25519_sk_to_curve25519 crypto_box_seal crypto_box_seal_open
         crypto_box_easy crypto_box_open_easy
         crypto_aead_chacha20poly1305_ietf_encrypt_detached
         crypto_aead_chacha20poly1305_ietf_decrypt_detached
         crypto_sign_detached crypto_sign_verify_detached from_string to_string
         ed25519_keypair curve25519_keypair fst snd publicKey privateKey
         seal aead_encrypt].
  - intros n g. apply fill_bytes.
  - intros n g. apply repeat_length.
  - intros g. apply fill_bytes.
  - intros g. apply repeat_length.
  - intros g. split; [apply fill_bytes | split; [apply repeat_length | reflexivity]].
  - intros pk sk (Hb & Hl & _). auto.
  - intros pk sk (Hb & Hl & ->). exists pk, pk. unfold pk_to_curve, sk_to_curve.
    rewrite length_app, Hl. change (32 + 32 =? 64)%nat with true. change (32 =? 32)%nat with true.
    cbv iota. rewrite <- Hl. rewrite firstn_all_app. repeat split; auto.
  - intros m pk g. apply octets_bytes.
  - intros m pk g. unfold crypto_box_SEALBYTES.
    rewrite octets_length, !length_app, length_firstn, length_app, !repeat_length. lia.
  - intros m pk sk g Hm (Hb & Hl & ->). unfold seal_open.
    rewrite (firstn_len_app 32 pk _ Hl).
    rewrite octets_id.
    2:{ apply Forall_app. split; [exact Hb|]. apply Forall_app. split; [apply zeros_bytes | exact Hm]. }
    rewrite (firstn_len_app 32 pk _ Hl), bytes_eqb_refl.
    rewrite !length_app, Hl, repeat_length. cbn [andb].
    replace (48 <=? 32 + (16 + length m))%nat with true by (symmetry; apply Nat.leb_le; lia).
    rewrite app_assoc. rewrite (skipn_len_app 48); [reflexivity|].
    rewrite length_app, Hl, repeat_length. reflexivity.
  - intros m n pk sk. apply octets_bytes.
  - intros m n pkR skR pkS skS Hm (HbR & HlR & ->) (HbS & HlS & ->) _.
    unfold box_open, box. rewrite (shared_comm pkS pkR).
    rewrite octets_id.
    2:{ apply Forall_app. split; [apply octets_bytes | exact Hm]. }
    rewrite (firstn_len_app 16 _ _ (shared_length pkR pkS HlR HlS)), bytes_eqb_refl.
    now rewrite (skipn_len_app 16 _ _ (shared_length pkR pkS HlR HlS)).
  - intros m ad n k. split; apply octets_bytes.
  - intros m ad n k Hm _ _. unfold aead_decrypt. rewrite bytes_eqb_refl. now rewrite octets_id.
  - intros m pk sk (Hb & Hl & ->). exists (signature_of m). unfold sign, verify.
    rewrite length_app, Hl. change (32 + 32 =? 64)%nat with true. change (32 =? 32)%nat with true.
    assert (length (signature_of m) = 64%nat) as Hs.
    { unfold signature_of. rewrite octets_length, length_firstn, length_app, repeat_length. lia. }
    rewrite Hs, bytes_eqb_refl. change (64 =? 64)%nat with true.
    split; [reflexivity | split; [apply octets_bytes | reflexivity]].
  - apply code_units_bytes.
  - intros s. now rewrite string_of_code_units.
  - reflexivity.
Qed.

Lemma keypair_of_fill g :
  ed25519_keypair (fill g 32) (fill g 32 ++ fill g 32)%list.
Proof. split; [apply fill_bytes | split; [apply repeat_length | reflexivity]]. Qed.

Lemma public_key_fill g : public_key (fill g 32).
Proof. eexists. apply keypair_of_fill. Qed.

Lemma bytes_eqb_eq a : forall b, bytes_eqb a b = true -> a = b.
Proof.
  induction a as [|x a IH]; intros [|y b] H; try discriminate; [reflexivity|].
  cbn in H. apply andb_true_iff in H as [Hx Hr]. apply Z.eqb_eq in Hx. subst.
  f_equal. now apply IH.
Qed.

Lemma seal_integrity_holds : seal_integrity.
Proof.
  intros msg pk g pk' sk' opened Hm H.
  change (seal_open (fst (seal msg pk g)) pk' sk' = Some opened) in H.
  unfold seal_open, seal, fst in H.
  set (key := firstn 32 (pk ++ repeat 0 32)) in H.
  assert (length key = 32%nat) as Hkey.
  { subst key. rewrite length_firstn, length_app, repeat_length. lia. }
  assert (opened = skipn 48 (octets (key ++ repeat 0 16 ++ msg))) as ->.
  { destruct (bytes_eqb _ sk' && _); congruence. }
  unfold octets. rewrite !map_app. fold (octets msg). rewrite (octets_id msg Hm).
  rewrite app_assoc. apply skipn_len_app.
  rewrite length_app, !length_map, Hkey, repeat_length. reflexivity.
Qed.

Lemma cannot_open_other pk pk' :
  is_bytes pk -> length pk = 32%nat -> bytes_eqb pk pk' = false ->
  cannot_open pk pk' pk'.
Proof.
  intros Hb Hl Hne msg g.
  change (seal_open (fst (seal msg pk g)) pk' pk' = None).
  unfold seal_open, seal, fst.
  rewrite (firstn_len_app 32 pk _ Hl).
  unfold octets. rewrite map_app. fold (octets pk). rewrite (octets_id pk Hb).
  rewrite (firstn_len_app 32 pk _ Hl), Hne. reflexivity.
Qed.

End ReferenceFacts.

(** ** Texts of seven-bit characters *)

Lemma code_units_app a b : code_units (a ++ b) = (code_units a ++ code_units b)%list.
Proof.
  unfold code_units. rewrite <- map_app. f_equal.
  induction a as [|c a IH]; [reflexivity|]. cbn. now rewrite IH.
Qed.

Lemma is_ascii7_app a b : is_ascii7 a -> is_ascii7 b -> is_ascii7 (a ++ b).
Proof. unfold is_ascii7. rewrite code_units_app. intros. now apply Forall_app. Qed.

Definition sextet_char_ascii (x : Z) : bool :=
  Z.of_N (N_of_ascii (Base64.byte_to_urlsafe_char x)) <? 128.

Lemma sextet_chars_ascii : forallb sextet_char_ascii (map Z.of_nat (seq 0 64)) = true.
Proof. vm_compute. reflexivity. Qed.

Lemma chars_of_ascii sx : Base64Facts.sextets_ok sx -> is_ascii7 (Base64.chars_of sx).
Proof.
  unfold is_ascii7, code_units. induction 1 as [|x r Hx _ IH]; [constructor|].
  cbn [Base64.chars_of list_ascii_of_string map]. constructor; [|exact IH].
  pose proof sextet_chars_ascii as H. rewrite forallb_forall in H.
  assert (In x (map Z.of_nat (seq 0 64))) as Hin.
  { apply in_map_iff. exists (Z.to_nat x). split; [lia|]. apply in_seq. lia. }
  specialize (H x Hin). unfold sextet_char_ascii in H. lia.
Qed.

Lemma equals_ascii n : is_ascii7 (Base64.equals n).
Proof.
  unfold is_ascii7, code_units. induction n as [|n IH]; [constructor|].
  cbn [Base64.equals list_ascii_of_string map]. constructor; [cbn; lia | exact IH].
Qed.

Lemma to_base64_ascii bin v : is_bytes bin -> is_ascii7 (Base64.to_base64 bin v).
Proof.
  intros Hb. pose proof (chars_of_ascii _ (Base64Facts.encode_sextets_ok bin Hb)) as Hc.
  destruct v; cbn [Base64.to_base64]; [|exact Hc].
  apply is_ascii7_app; [exact Hc | apply equals_ascii].
Qed.


(** * The claims *)

Lemma is_bytes_forallb l :
  forallb (fun b => (0 <=? b) && (b <? 256)) l = true -> is_bytes l.
Proof.
  intros H. apply Forall_forall. intros x Hx. rewrite forallb_forall in H.
  specialize (H x Hx). lia.
Qed.

(** C7.  [b64dec] decodes a base64url text to the same octets whether its
    trailing [=] padding is complete, partial or absent: the loop extends
    the text to the padded form, a multiple of four characters, before
    [from_base64] reads it. *)
Theorem b64dec_padding_tolerant (bin : bytes) (k : nat) :
  is_bytes bin -> (k <= Base64.padding_len bin)%nat ->
  let text := (Base64.to_base64 bin Base64.URLSAFE_NO_PADDING ++ Base64.equals k)%string in
  pad_loop 3 text = Base64.to_base64 bin Base64.URLSAFE /\
  (String.length (pad_loop 3 text) mod 4 = 0)%nat /\
  b64dec text = Ok bin /\
  b64dec (Base64.to_base64 bin Base64.URLSAFE) = Ok bin.
Proof.
  intros Hb Hk text. repeat split.
  - subst text. cbn [Base64.to_base64].
    apply Base64Facts.pad_loop_completes.
    + rewrite Base64Facts.chars_of_length. apply Base64Facts.padded_length.
    + exact Hk.
    + pose proof (Base64Facts.padding_len_le bin). lia.
    + pose proof (Base64Facts.padding_len_le bin). lia.
  - apply Base64Facts.pad_loop_length_mod4.
  - now apply b64dec_to_base64_partial.
  - now apply b64dec_to_base64.
Qed.


(** C3.  For a 32-octet key, [Ed25519PubEncoder.encode] yields
    [did:key:z] followed by the base-58 text of the two tag octets [0xed],
    [0x01] and the key, and [decode] returns the key from it. *)
Theorem Ed25519PubEncoder_roundtrip (key : bytes) :
  is_bytes key -> length key = 32%nat ->
  Ed25519PubEncoder.encode key = ("did:key:z" ++ Base58.encode (0xed :: 0x01 :: key))%string /\
  Ed25519PubEncoder.decode (Ed25519PubEncoder.encode key) = Ok key.
Proof.
  intros Hk Hl. split.
  - unfold Ed25519PubEncoder.encode. now rewrite Ed25519PubEncoderFacts.encode_tag.
  - now apply Ed25519PubEncoderFacts.decode_encode_key.
Qed.


Section Claims.
Context {S : Sodium} {J : JSON} {SL : SodiumLaws S} {JL : JSONLaws J}.
Local Open Scope string_scope.

Local Abbreviation ENC := (JString "xchacha20poly1305_ietf").
Local Abbreviation TYP := (JString "JWM/1.0").

Lemma b64url_str_ascii text pad : is_ascii7 (b64url (Str text) pad).
Proof.
  unfold b64url.
  apply to_base64_ascii. apply from_string_bytes.
Qed.

Lemma signing_input_ascii p d pad pad' :
  is_ascii7 (b64url (Str p) pad ++ "." ++ b64url (Str d) pad').
Proof.
  apply is_ascii7_app; [apply b64url_str_ascii|].
  apply is_ascii7_app; [|apply b64url_str_ascii].
  unfold is_ascii7. cbn. constructor; [lia | constructor].
Qed.

Local Opaque b64url b64dec Base58.encode Base58.decode.

Lemma packMessage_of_tagged m toKeys fromKeys g w g' :
  packMessage_tagged (JString "xchacha20poly1305_ietf") (JString "JWM/1.0") m toKeys fromKeys g
  = (Ok w, g') ->
  packMessage m toKeys fromKeys g = (Ok (JSON_stringify w), g').
Proof. intros H. rewrite packMessage_as_tagged, H. reflexivity. Qed.

(** C1 (the code departs from it).  Pack for recipients [B], then others
    among which [C]; let [C]'s keys open no box sealed for [B], as distinct
    key pairs do.  Unpacking as [C] does not return the message: the search
    stops at the first entry, [B]'s, and throws out of
    [crypto_box_seal_open]. *)
Theorem unpack_by_later_recipient_throws
    m pkB pkC skC rest fromKeys g cpkB cpkC cskC :
  public_key pkB -> Forall public_key rest -> In pkC rest -> sender_ok fromKeys ->
  ed25519_keypair pkC skC ->
  crypto_sign_ed25519_pk_to_curve25519 pkB = Some cpkB ->
  crypto_sign_ed25519_pk_to_curve25519 pkC = Some cpkC ->
  crypto_sign_ed25519_sk_to_curve25519 skC = Some cskC ->
  cannot_open cpkB cpkC cskC ->
  exists env g',
    packMessage m (pkB :: rest) fromKeys g = (Ok env, g') /\
    unpackMessage (EnvelopeText env) (raw_keys {| publicKey := pkC; privateKey := skC |})
    = Throw (SodiumError "crypto_box_seal_open").
Proof.
  intros HB Hrest _ Hs HC HpkB HpkC HskC Hno.
  assert (Forall public_key (pkB :: rest)) as Hks by (constructor; assumption).
  destruct (packMessage_tagged_ok (JString "xchacha20poly1305_ietf") (JString "JWM/1.0")
              m _ fromKeys g Hks Hs)
    as (cek & rs & iv & g1 & g' & Hpack & _ & _ & Hiv & _ & _ & Hwfs & _ & Hhead).
  cbv zeta in Hpack. apply packMessage_of_tagged in Hpack.
  do 2 eexists. split; [exact Hpack|].
  rewrite unpack_text by apply envelope_json_wf.
  rewrite (unpack_packed_envelope fromKeys ENC rs TYP m iv cek
             (raw_keys {| publicKey := pkC; privateKey := skC |}) pkC skC
             eq_refl eq_refl Hwfs Hiv eq_refl eq_refl).
  destruct (Hhead pkB rest eq_refl) as (r & rs' & -> & Hr).
  rewrite locateRecKey_first.
  now rewrite (locate_foreign_block cek fromKeys pkB g1 pkC skC cpkB cpkC cskC [] r).
Qed.

(** C2 (the code departs from it).  [locateRecKey] reports
    [RecipientNotFound] exactly when the recipients list is empty; hence on
    the envelope of any pack call with at least one recipient,
    [unpackMessage] never reports it, whatever key pair it is given: a key
    that matches no entry meets another exception. *)
Theorem unpack_never_reports_recipient_not_found m vk rest fromKeys g :
  public_key vk -> Forall public_key rest -> sender_ok fromKeys ->
  (forall recipients pub priv,
     is_error RecipientNotFound (locateRecKey recipients pub priv)
     = match for_in_values recipients with [] => true | _ :: _ => false end) /\
  exists env g',
    packMessage m (vk :: rest) fromKeys g = (Ok env, g') /\
    forall keys, is_error RecipientNotFound (unpackMessage (EnvelopeText env) keys) = false.
Proof.
  intros Hvk Hrest Hs. split.
  { intros recipients pub priv. unfold locateRecKey.
    destruct (for_in_values recipients); [reflexivity|].
    apply locateRecKey_entry_never_not_found. }
  assert (Forall public_key (vk :: rest)) as Hks by (constructor; assumption).
  destruct (packMessage_tagged_ok (JString "xchacha20poly1305_ietf") (JString "JWM/1.0")
              m _ fromKeys g Hks Hs)
    as (cek & rs & iv & g1 & g' & Hpack & _ & _ & Hiv & _ & _ & Hwfs & _ & Hhead).
  cbv zeta in Hpack. apply packMessage_of_tagged in Hpack.
  do 2 eexists. split; [exact Hpack|]. intros keys.
  rewrite unpack_text by apply envelope_json_wf.
  destruct (normalize_key (publicKeyArg keys)) as [pub|e] eqn:Hpub.
  2:{ rewrite (unpack_bad_public_key _ keys e Hpub) by (eexists; reflexivity).
      pose proof (normalize_key_never RecipientNotFound (publicKeyArg keys) eq_refl) as H.
      now rewrite Hpub in H. }
  destruct (normalize_key (privateKeyArg keys)) as [priv|e] eqn:Hpriv.
  2:{ rewrite (unpack_bad_private_key _ keys pub e Hpub Hpriv) by (eexists; reflexivity).
      pose proof (normalize_key_never RecipientNotFound (privateKeyArg keys) eq_refl) as H.
      now rewrite Hpriv in H. }
  rewrite (unpack_packed_envelope fromKeys ENC rs TYP m iv cek keys pub priv
             eq_refl eq_refl Hwfs Hiv Hpub Hpriv).
  destruct (Hhead vk rest eq_refl) as (r & rs' & -> & Hr).
  rewrite locateRecKey_first.
  apply never_bind; [apply locateRecKey_entry_never_not_found|].
  intros [[cek' senderVk] recipVk]. cbv zeta.
  match goal with |- context [if ?c then _ else _] => destruct c end; [reflexivity|].
  apply never_bind; [apply decryptPlaintext_never_not_found | reflexivity].
Qed.


Lemma protected_header_packed_object fromKeys enc rs typ c iv t :
  json_wf enc = true -> json_wf typ = true -> forallb json_wf rs = true ->
  let header := header_json fromKeys enc rs typ in
  protected_header
    (EnvelopeObject (envelope_json c iv (b64url (Str (JSON_stringify header)) true) t))
  = Ok header.
Proof.
  intros Henc Htyp Hrs header. unfold protected_header, wrapper_of. cbn [bind].
  unfold envelope_json.
  change (get "protected" (Some (JObject _)))
    with (Ok (A := option json) (Some (JString (b64url (Str (JSON_stringify header)) true)))).
  cbn [bind as_string]. rewrite strB64dec_b64url_str. cbn [bind].
  now rewrite (JSON_parse_stringify header (header_json_wf fromKeys enc rs typ Henc Htyp Hrs)).
Qed.

Lemma protected_header_text w :
  json_wf w = true ->
  protected_header (EnvelopeText (JSON_stringify w)) = protected_header (EnvelopeObject w).
Proof.
  intros Hwf. unfold protected_header, wrapper_of. now rewrite (JSON_parse_stringify w Hwf).
Qed.

Lemma protected_header_packed fromKeys enc rs typ c iv t :
  json_wf enc = true -> json_wf typ = true -> forallb json_wf rs = true ->
  let header := header_json fromKeys enc rs typ in
  protected_header
    (EnvelopeText
       (JSON_stringify (envelope_json c iv (b64url (Str (JSON_stringify header)) true) t)))
  = Ok header.
Proof.
  intros Henc Htyp Hrs header. rewrite protected_header_text by apply envelope_json_wf.
  now apply protected_header_packed_object.
Qed.

Lemma block_of_mode_anon r :
  block_of_mode None r -> recipient_header r JNull JNull.
Proof. intros (ek & vk & ->). eexists. repeat split. Qed.

Lemma block_of_mode_auth fk r :
  block_of_mode (Some fk) r ->
  exists iv sender,
    recipient_header r (JString iv) (JString sender) /\
    String.eqb iv EmptyString = false /\ String.eqb sender EmptyString = false.
Proof.
  intros (ek & vk & n & s & Hn & Hs & ->).
  exists (b64url (Bin n) true), (b64url (Bin s) true).
  split; [eexists; repeat split|]. split; now apply b64url_bin_nonempty.
Qed.

(** What holds of the two modes.  A pack call without a sender keypair writes
    [alg = "Anoncrypt"] and a null [iv] and [sender] in every recipient
    header; with a sender keypair it writes [alg = "Authcrypt"] and non-empty
    [iv] and [sender] texts in every recipient header, every unpack that
    returns yields the sender's base-58 public key as [senderKey], and the
    unpack of the first recipient does return.  (Sealed boxes are assumed to
    open to what was sealed or not at all.) *)
Theorem pack_mode_correct m toKeys fromKeys g :
  Forall public_key toKeys -> sender_ok fromKeys -> seal_integrity ->
  exists env g' header recips,
    packMessage m toKeys fromKeys g = (Ok env, g') /\
    protected_header (EnvelopeText env) = Ok header /\
    get "recipients" (Some header) = Ok (Some (JArray recips)) /\
    length recips = length toKeys /\
    match fromKeys with
    | None =>
        get "alg" (Some header) = Ok (Some (JString "Anoncrypt")) /\
        Forall (fun r => recipient_header r JNull JNull) recips /\
        (forall keys r, unpackMessage (EnvelopeText env) keys = Ok r -> senderKey r = None)
    | Some fk =>
        get "alg" (Some header) = Ok (Some (JString "Authcrypt")) /\
        Forall (fun r => exists iv sender,
                           recipient_header r (JString iv) (JString sender) /\
                           String.eqb iv EmptyString = false /\
                           String.eqb sender EmptyString = false) recips /\
        (forall keys r,
           unpackMessage (EnvelopeText env) keys = Ok r ->
           senderKey r = Some (Base58.encode (publicKey fk))) /\
        (forall pkB skB rest,
           toKeys = pkB :: rest -> ed25519_keypair pkB skB ->
           exists r,
             unpackMessage (EnvelopeText env) (raw_keys {| publicKey := pkB; privateKey := skB |})
             = Ok r /\
             message r = m /\ senderKey r = Some (Base58.encode (publicKey fk)))
    end.
Proof.
  intros Hks Hs Hint.
  destruct (packMessage_tagged_ok ENC TYP m _ fromKeys g Hks Hs)
    as (cek & rs & iv & g1 & g' & Hpack & Hcek & _ & Hiv & _ & Hlen & Hwfs & Hmodes & Hhead).
  cbv zeta in Hpack. pose proof (packMessage_of_tagged _ _ _ _ _ _ Hpack) as Hpack'.
  do 4 eexists. split; [exact Hpack'|].
  split; [apply (protected_header_packed fromKeys ENC rs TYP); auto|].
  split; [reflexivity|]. split; [exact Hlen|].
  lazymatch type of Hpack' with
  | _ = (Ok ?env, _) =>
      assert (forall keys res,
                unpackMessage (EnvelopeText env) keys = Ok res ->
                exists vk rest r rs' pub priv cek' kid,
                  toKeys = vk :: rest /\ rs = r :: rs' /\
                  fst (recipient_entry cek fromKeys vk g1) = Ok r /\
                  locateRecKey_entry r pub priv [] = Ok (cek', senderKey res, kid)) as Hret
  end.
  { intros keys res Hres. rewrite unpack_text in Hres by apply envelope_json_wf.
    destruct (normalize_key (publicKeyArg keys)) as [pub|e] eqn:Hpub.
    2:{ rewrite (unpack_bad_public_key _ keys e Hpub) in Hres by (eexists; reflexivity).
        discriminate. }
    destruct (normalize_key (privateKeyArg keys)) as [priv|e] eqn:Hpriv.
    2:{ rewrite (unpack_bad_private_key _ keys pub e Hpub Hpriv) in Hres by (eexists; reflexivity).
        discriminate. }
    rewrite (unpack_packed_envelope fromKeys ENC rs TYP m iv cek keys pub priv
               eq_refl eq_refl Hwfs Hiv Hpub Hpriv) in Hres.
    destruct toKeys as [|vk rest].
    { destruct rs; [discriminate Hres | discriminate Hlen]. }
    destruct (Hhead vk rest eq_refl) as (r & rs' & -> & Hr).
    rewrite locateRecKey_first in Hres.
    destruct (locateRecKey_entry r pub priv []) as [[[cek' senderVk] kid]|e] eqn:Hloc;
      [|discriminate]. cbn [bind] in Hres. cbv zeta in Hres.
    match type of Hres with context [if ?c then _ else _] => destruct c end; [discriminate|].
    destruct (decryptPlaintext _ _ _ _ cek') as [msg|e]; [|discriminate].
    cbn [bind] in Hres. injection Hres as <-. cbn [senderKey].
    exists vk, rest, r, rs', pub, priv, cek', kid. auto. }
  destruct fromKeys as [fk|].
  - split; [reflexivity|]. split.
    { eapply Forall_impl; [|exact Hmodes]. intros r. apply block_of_mode_auth. }
    split.
    + intros keys res Hres.
      destruct (Hret keys res Hres) as (vk & rest & r & rs' & pub & priv & cek' & kid & -> & _ & Hr & Hloc).
      inversion Hks as [|? ? Hvk _]; subst.
      exact (locate_auth_block_sender cek fk vk g1 pub priv [] r cek' _ kid Hint Hvk Hs Hr Hloc).
    + intros pkB skB rest -> HB. inversion Hks as [|? ? _ Hrest]; subst.
      destruct (unpack_pack_tagged ENC TYP m pkB skB rest (Some fk) g eq_refl eq_refl HB Hrest Hs)
        as (w & g'' & Hpack2 & Hwf & Hun).
      rewrite Hpack in Hpack2. injection Hpack2 as <- _.
      eexists. rewrite unpack_text by apply envelope_json_wf.
      split; [exact Hun|]. split; reflexivity.
  - split; [reflexivity|]. split.
    { eapply Forall_impl; [|exact Hmodes]. intros r. apply block_of_mode_anon. }
    intros keys res Hres.
    destruct (Hret keys res Hres) as (vk & rest & r & rs' & pub & priv & cek' & kid & -> & _ & Hr & Hloc).
    inversion Hks as [|? ? Hvk _]; subst.
    exact (locate_anon_block_sender cek vk g1 pub priv [] r cek' _ kid Hvk Hr Hloc).
Qed.

(** C4 (the code departs from it).  A pack call with a sender keypair for
    recipients [B], then others among which [C], writes [alg = "Authcrypt"]
    and non-empty [iv] and [sender] texts in every recipient header, one
    header per recipient; yet [unpackMessage] with [C]'s keys recovers no
    [senderKey]: the search stops at [B]'s entry and throws out of
    [crypto_box_seal_open].  ([C]'s keys open no box sealed for [B], as
    distinct key pairs do.) *)
Theorem sender_not_recovered_by_later_recipient
    m pkB pkC skC rest fk g cpkB cpkC cskC :
  public_key pkB -> Forall public_key rest -> In pkC rest -> sender_ok (Some fk) ->
  ed25519_keypair pkC skC ->
  crypto_sign_ed25519_pk_to_curve25519 pkB = Some cpkB ->
  crypto_sign_ed25519_pk_to_curve25519 pkC = Some cpkC ->
  crypto_sign_ed25519_sk_to_curve25519 skC = Some cskC ->
  cannot_open cpkB cpkC cskC ->
  exists env g' header recips,
    packMessage m (pkB :: rest) (Some fk) g = (Ok env, g') /\
    protected_header (EnvelopeText env) = Ok header /\
    get "alg" (Some header) = Ok (Some (JString "Authcrypt")) /\
    get "recipients" (Some header) = Ok (Some (JArray recips)) /\
    length recips = length (pkB :: rest) /\
    Forall (fun r => exists iv sender,
                       recipient_header r (JString iv) (JString sender) /\
                       String.eqb iv EmptyString = false /\
                       String.eqb sender EmptyString = false) recips /\
    unpackMessage (EnvelopeText env) (raw_keys {| publicKey := pkC; privateKey := skC |})
    = Throw (SodiumError "crypto_box_seal_open").
Proof.
  intros HB Hrest _ Hs HC HpkB HpkC HskC Hno.
  assert (Forall public_key (pkB :: rest)) as Hks by (constructor; assumption).
  destruct (packMessage_tagged_ok ENC TYP m _ (Some fk) g Hks Hs)
    as (cek & rs & iv & g1 & g' & Hpack & _ & _ & Hiv & _ & Hlen & Hwfs & Hmodes & Hhead).
  cbv zeta in Hpack. apply packMessage_of_tagged in Hpack.
  do 4 eexists. split; [exact Hpack|].
  split; [apply (protected_header_packed (Some fk) ENC rs TYP); auto|].
  split; [reflexivity|]. split; [reflexivity|]. split; [exact Hlen|].
  split.
  { eapply Forall_impl; [|exact Hmodes]. intros r. apply block_of_mode_auth. }
  rewrite unpack_text by apply envelope_json_wf.
  rewrite (unpack_packed_envelope (Some fk) ENC rs TYP m iv cek
             (raw_keys {| publicKey := pkC; privateKey := skC |}) pkC skC
             eq_refl eq_refl Hwfs Hiv eq_refl eq_refl).
  destruct (Hhead pkB rest eq_refl) as (r & rs' & -> & Hr).
  rewrite locateRecKey_first.
  now rewrite (locate_foreign_block cek (Some fk) pkB g1 pkC skC cpkB cpkC cskC [] r).
Qed.


Lemma as_string_Ok v s : as_string v = Ok s -> v = Some (JString s).
Proof. destruct v as [[]|]; try discriminate. now intros [= ->]. Qed.


(** An entry whose [sender] field is absent, null or empty yields no sender
    identity, if its examination returns at all. *)
Lemma locateRecKey_entry_without_sender recip pub priv nf h v cek s kid :
  get "header" (Some recip) = Ok h ->
  get "sender" h = Ok v -> truthy v = false ->
  locateRecKey_entry recip pub priv nf = Ok (cek, s, kid) ->
  s = None.
Proof.
  intros Hh Hv Hf H. unfold locateRecKey_entry in H.
  rewrite Hh in H.
  destruct (has "header" recip) as [hh|]; cbn [bind] in H; [|discriminate].
  destruct (if hh then has "encrypted_key" recip else Ok false) as [hk|]; cbn [bind] in H;
    [|discriminate].
  destruct (negb hh || negb hk); [discriminate|].
  destruct (get "kid" h) as [kid_v|]; cbn [bind] in H; [|discriminate].
  destruct (as_string kid_v) as [kid'|]; cbn [bind] in H; [|discriminate].
  destruct (of_option (Base58.decode kid') Base58Error) as [recipVk|]; cbn [bind] in H;
    [|discriminate].
  destruct (memcmp recipVk pub) as [same|]; cbn [bind] in H; [|discriminate].
  destruct (of_option (crypto_sign_ed25519_pk_to_curve25519 pub) _) as [pk|]; cbn [bind] in H;
    [|discriminate].
  destruct (of_option (crypto_sign_ed25519_sk_to_curve25519 priv) _) as [sk|]; cbn [bind] in H;
    [|discriminate].
  destruct (get "encrypted_key" (Some recip)) as [ek_v|]; cbn [bind] in H; [|discriminate].
  destruct (as_string ek_v) as [ek|]; cbn [bind] in H; [|discriminate].
  destruct (b64dec ek) as [encKey|]; cbn [bind] in H; [|discriminate].
  destruct (get "iv" h) as [iv_v|]; cbn [bind] in H; [|discriminate].
  match type of H with bind ?r _ = _ => destruct r as [nonce|] end; cbn [bind] in H;
    [|discriminate].
  rewrite Hv in H. cbn [bind] in H. rewrite Hf in H. cbn [bind] in H.
  destruct nonce;
    (destruct (of_option (crypto_box_seal_open encKey pk sk) _) as [k|]; cbn [bind] in H;
     [|discriminate]);
    now injection H as _ <- _.
Qed.

(** C5.  On an envelope whose protected header says [alg = "Authcrypt"], if
    the search for the key returns without a sender identity ([null], or the
    empty text), [unpackMessage] throws [MissingSenderKey] and returns no
    plaintext; an entry without a [sender] field is such a case whenever its
    examination returns. *)
Theorem authcrypt_without_sender_is_rejected
    encMsg keys pub priv header recipients cek senderVk kid :
  normalize_key (publicKeyArg keys) = Ok pub ->
  normalize_key (privateKeyArg keys) = Ok priv ->
  protected_header encMsg = Ok header ->
  get "alg" (Some header) = Ok (Some (JString "Authcrypt")) ->
  get "recipients" (Some header) = Ok recipients ->
  locateRecKey recipients pub priv = Ok (cek, senderVk, kid) ->
  (senderVk = None \/ senderVk = Some EmptyString \/
   exists recip rest h v,
     for_in_values recipients = recip :: rest /\
     get "header" (Some recip) = Ok h /\ get "sender" h = Ok v /\ truthy v = false) ->
  unpackMessage encMsg keys = Throw MissingSenderKey.
Proof.
  intros Hpub Hpriv Hhdr Halg Hrecips Hloc Hsender.
  assert (match senderVk with Some s => String.eqb s EmptyString | None => true end = true) as Hf.
  { destruct Hsender as [-> | [-> | (recip & rest & h & v & Hfor & Hh & Hv & Ht)]]; try reflexivity.
    unfold locateRecKey in Hloc. rewrite Hfor in Hloc.
    now rewrite (locateRecKey_entry_without_sender _ _ _ _ _ _ _ _ _ Hh Hv Ht Hloc). }
  unfold protected_header, wrapper_of in Hhdr. unfold unpackMessage.
  destruct (match encMsg with
            | EnvelopeText s => of_option (JSON_parse s) JSONSyntaxError
            | EnvelopeObject w => Ok w
            end) as [wrapper|]; cbn [bind] in *; [|discriminate].
  rewrite Hpub, Hpriv. cbn [bind].
  destruct (get "protected" (Some wrapper)) as [pv|]; cbn [bind] in *; [|discriminate].
  destruct (as_string pv) as [protected|]; cbn [bind] in *; [|discriminate].
  destruct (strB64dec protected) as [recipsJson|]; cbn [bind] in *; [|discriminate].
  rewrite Hhdr. cbn [bind]. rewrite Halg. cbn [bind]. cbn [String.eqb Ascii.eqb Bool.eqb negb andb].
  rewrite Hrecips. cbn [bind]. rewrite Hloc. cbn [bind]. rewrite Hf. reflexivity.
Qed.



Lemma envelope_field_packed k c iv p t v :
  is_bytes v ->
  lookup k [("ciphertext", JString (b64url (Bin c) true));
            ("iv", JString (b64url (Bin iv) true));
            ("protected", JString p);
            ("tag", JString (b64url (Bin t) true))] = Some (JString (b64url (Bin v) true)) ->
  envelope_field k (EnvelopeText (JSON_stringify (envelope_json c iv p t))) = Ok v.
Proof.
  intros Hv Hl. unfold envelope_field, wrapper_of.
  rewrite (JSON_parse_stringify _ (envelope_json_wf _ _ _ _)). cbn [of_option bind].
  unfold envelope_json. cbn [get]. rewrite Hl. cbn [bind as_string].
  now apply b64dec_b64url_bin.
Qed.

(** C9 (the code departs from it).  Every pack call writes
    [enc = "xchacha20poly1305_ietf"], the name of an AEAD with a 24-octet
    nonce, while the content is encrypted by
    [crypto_aead_chacha20poly1305_ietf_encrypt_detached] under a fresh nonce
    of [crypto_aead_chacha20poly1305_ietf_NPUBBYTES] = 12 octets. *)
Theorem content_cipher_is_not_the_named_scheme m toKeys fromKeys g :
  Forall public_key toKeys -> sender_ok fromKeys ->
  exists env g' header protected iv cek,
    packMessage m toKeys fromKeys g = (Ok env, g') /\
    protected_header (EnvelopeText env) = Ok header /\
    get "enc" (Some header) = Ok (Some (JString "xchacha20poly1305_ietf")) /\
    aead_npubbytes "xchacha20poly1305_ietf" = Some 24%nat /\
    envelope_field "iv" (EnvelopeText env) = Ok iv /\
    length iv = 12%nat /\
    aead_npubbytes "chacha20poly1305_ietf" = Some (length iv) /\
    (w <- wrapper_of (EnvelopeText env) ;; get "protected" (Some w))%js
    = Ok (Some (JString protected)) /\
    let out := crypto_aead_chacha20poly1305_ietf_encrypt_detached
                 (from_string m) (from_string protected) iv cek in
    envelope_field "ciphertext" (EnvelopeText env) = Ok (fst out) /\
    envelope_field "tag" (EnvelopeText env) = Ok (snd out).
Proof.
  intros Hks Hs.
  destruct (packMessage_tagged_ok ENC TYP m _ fromKeys g Hks Hs)
    as (cek & rs & iv & g1 & g' & Hpack & _ & _ & Hiv & Hivl & _ & Hwfs & _ & _).
  cbv zeta in Hpack. apply packMessage_of_tagged in Hpack.
  destruct (aead_bytes (from_string m)
              (from_string (b64url (Str (JSON_stringify (header_json fromKeys ENC rs TYP))) true))
              iv cek) as [Hc Ht].
  do 4 eexists. exists iv, cek. split; [exact Hpack|].
  split; [apply (protected_header_packed fromKeys ENC rs TYP); auto|].
  split; [reflexivity|]. split; [reflexivity|].
  split; [apply envelope_field_packed; [exact Hiv | reflexivity]|].
  split; [exact Hivl|]. split; [now rewrite Hivl|].
  split.
  { unfold wrapper_of. rewrite (JSON_parse_stringify _ (envelope_json_wf _ _ _ _)). reflexivity. }
  cbv zeta. split; apply envelope_field_packed; auto.
Qed.

(** C10.  [unpackMessage] parses a text argument with [JSON.parse] and takes
    an object argument as it is, so a serialised envelope and the envelope
    object give the same result; of the protected header it checks [alg]
    only: any other [alg] is refused, and an envelope packed with arbitrary
    [enc] and [typ] values is unpacked like any other. *)
Theorem unpack_text_or_object_any_tags :
  (forall text keys,
     unpackMessage (EnvelopeText text) keys
     = (w <- of_option (JSON_parse text) JSONSyntaxError ;;
        unpackMessage (EnvelopeObject w) keys)%js) /\
  (forall w keys,
     json_wf w = true ->
     unpackMessage (EnvelopeText (JSON_stringify w)) keys = unpackMessage (EnvelopeObject w) keys) /\
  (forall encMsg keys pub priv header alg,
     normalize_key (publicKeyArg keys) = Ok pub ->
     normalize_key (privateKeyArg keys) = Ok priv ->
     protected_header encMsg = Ok header ->
     get "alg" (Some header) = Ok alg ->
     alg <> Some (JString "Authcrypt") -> alg <> Some (JString "Anoncrypt") ->
     unpackMessage encMsg keys = Throw UnsupportedAlgorithm) /\
  (forall enc typ m pkB skB rest fromKeys g,
     json_wf enc = true -> json_wf typ = true ->
     ed25519_keypair pkB skB -> Forall public_key rest -> sender_ok fromKeys ->
     exists w g' header,
       packMessage_tagged enc typ m (pkB :: rest) fromKeys g = (Ok w, g') /\
       protected_header (EnvelopeObject w) = Ok header /\
       get "enc" (Some header) = Ok (Some enc) /\
       get "typ" (Some header) = Ok (Some typ) /\
       let unpacked :=
         Ok {| message := m;
               recipientKey := Base58.encode pkB;
               senderKey := option_map (fun fk => Base58.encode (publicKey fk)) fromKeys |} in
       let keys := raw_keys {| publicKey := pkB; privateKey := skB |} in
       unpackMessage (EnvelopeObject w) keys = unpacked /\
       unpackMessage (EnvelopeText (JSON_stringify w)) keys = unpacked).
Proof.
  split; [|split; [|split]].
  - intros text keys. unfold unpackMessage. destruct (JSON_parse text); reflexivity.
  - intros w keys Hwf. now apply unpack_text.
  - intros encMsg keys pub priv header alg Hpub Hpriv Hhdr Halg Hna Hnn.
    unfold protected_header in Hhdr. unfold unpackMessage. fold (wrapper_of encMsg).
    destruct (wrapper_of encMsg) as [wrapper|]; cbn [bind] in *; [|discriminate].
    rewrite Hpub, Hpriv. cbn [bind].
    destruct (get "protected" (Some wrapper)) as [pv|]; cbn [bind] in *; [|discriminate].
    destruct (as_string pv) as [protected|]; cbn [bind] in *; [|discriminate].
    destruct (strB64dec protected) as [recipsJson|]; cbn [bind] in *; [|discriminate].
    rewrite Hhdr. cbn [bind]. rewrite Halg. cbn [bind].
    destruct alg as [[| | |a| |]|]; try reflexivity.
    destruct (String.eqb_spec a "Authcrypt") as [-> | _]; [now elim Hna|].
    destruct (String.eqb_spec a "Anoncrypt") as [-> | _]; [now elim Hnn|].
    reflexivity.
  - intros enc typ m pkB skB rest fromKeys g Henc Htyp HB Hrest Hs.
    destruct (unpack_pack_tagged enc typ m pkB skB rest fromKeys g Henc Htyp HB Hrest Hs)
      as (w & g' & Hpack & Hwf & Hun).
    assert (Forall public_key (pkB :: rest)) as Hks by (constructor; [now exists skB | exact Hrest]).
    destruct (packMessage_tagged_ok enc typ m _ fromKeys g Hks Hs)
      as (cek & rs & iv & g1 & g'' & Hpack' & _ & _ & _ & _ & _ & Hwfs & _ & _).
    cbv zeta in Hpack'. rewrite Hpack in Hpack'. injection Hpack' as -> _.
    do 3 eexists. split; [exact Hpack|]. split.
    { apply (protected_header_packed_object fromKeys enc rs typ); auto. }
    split; [reflexivity|]. split; [reflexivity|]. cbv zeta. split; [exact Hun|].
    rewrite unpack_text by apply envelope_json_wf. exact Hun.
Qed.

(** The first recipient of a pack call unpacks the message, with or without
    a sender, whoever else the envelope is addressed to. *)
Theorem unpack_pack_first_recipient m pkB skB rest fromKeys g :
  ed25519_keypair pkB skB -> Forall public_key rest -> sender_ok fromKeys ->
  exists env g',
    packMessage m (pkB :: rest) fromKeys g = (Ok env, g') /\
    unpackMessage (EnvelopeText env) (raw_keys {| publicKey := pkB; privateKey := skB |})
    = Ok {| message := m;
            recipientKey := Base58.encode pkB;
            senderKey := option_map (fun fk => Base58.encode (publicKey fk)) fromKeys |}.
Proof.
  intros HB Hrest Hs.
  destruct (unpack_pack_tagged ENC TYP m pkB skB rest fromKeys g eq_refl eq_refl HB Hrest Hs)
    as (w & g' & Hpack & Hwf & Hun).
  apply packMessage_of_tagged in Hpack. do 2 eexists. split; [exact Hpack|].
  now rewrite unpack_text.
Qed.

(** C8.  For a serialisable payload and an Ed25519 key pair,
    [signedAttachment] returns an attachment on which
    [verifySignedAttachment] returns [true] without throwing and
    [decodeSignedAttachment] returns the payload; the signature it carries
    verifies over exactly the octets of [protected + "." + base64]. *)
Theorem signed_attachment_integrity data keys :
  json_wf data = true ->
  ed25519_keypair (publicKey keys) (privateKey keys) ->
  exists att sig,
    signedAttachment data keys = Ok att /\
    verifySignedAttachment att = Ok true /\
    decodeSignedAttachment att = Ok data /\
    b64dec (jws_signature (data_jws att)) = Ok sig /\
    crypto_sign_verify_detached sig
      (code_units (jws_protected (data_jws att) ++ "." ++ data_base64 att))
      (publicKey keys) = Some true.
Proof.
  intros Hwf Hk. destruct (ed25519_public_bytes _ _ Hk) as [Hpk Hpkl].
  unfold signedAttachment.
  set (didkey := Ed25519PubEncoder.encode (publicKey keys)).
  set (p := b64url (Str (JSON_stringify (JObject _))) false).
  set (d := b64url (Str (JSON_stringify data)) false).
  destruct (sign_verify (Buffer_from_ascii (p ++ "." ++ d)) _ _ Hk) as (sig & Hsign & Hsig & Hver).
  rewrite Hsign. cbn [of_option bind].
  eexists. exists sig. split; [reflexivity|].
  unfold verifySignedAttachment, decodeSignedAttachment.
  cbn [data_jws data_base64 jws_signature jws_header_kid jws_protected].
  rewrite b64dec_b64url_bin by exact Hsig. cbn [bind].
  subst didkey. rewrite (Ed25519PubEncoderFacts.decode_encode_key _ Hpk Hpkl). cbn [bind].
  unfold Buffer_from. subst p d.
  rewrite from_string_ascii by apply signing_input_ascii.
  unfold Buffer_from_ascii in Hver. rewrite Hver. cbn [of_option].
  rewrite strB64dec_b64url_str. cbn [bind]. rewrite (JSON_parse_stringify data Hwf).
  cbn [of_option]. auto.
Qed.

End Claims.

(** * Further properties of the code *)

(** ** [Ed25519PubEncoder]: the shape of an identifier *)
Module Ed25519PubEncoderShape.
Import Base58 Base58Facts Ed25519PubEncoderFacts.

Lemma join_digits_length ds :
  Radix.digits_ok 58 ds -> String.length (join_digits ds) = length ds.
Proof.
  induction ds as [|d r IH]; intros Hok; [reflexivity|].
  inversion Hok as [|? ? Hd Hr]; subst.
  rewrite (join_digits_cons d r Hd). cbn [String.length length]. f_equal. now apply IH.
Qed.

(** The text of the tag followed by thirty-two octets has 47 characters. *)
Lemma encode_tag_length k :
  is_bytes k -> length k = 32%nat ->
  String.length (Base58.encode (Ed25519PubEncoder.code :: k)) = 47%nat.
Proof.
  intros Hk Hlen. unfold Base58.encode.
  pose proof (encode_fold_repr _ 0 [0] (RadixFacts.repr_zero 58 ltac:(lia)) (tag_range k Hk)) as HD.
  fold (Radix.valBE 256 (Ed25519PubEncoder.code :: k)) in HD.
  set (D := fold_left encode_step (Ed25519PubEncoder.code :: k) [0]) in *.
  set (V := Radix.valBE 256 (Ed25519PubEncoder.code :: k)) in *.
  assert (60673 * 256 ^ 32 <= V < 60674 * 256 ^ 32) as HV.
  { subst V. rewrite valBE_cons, Hlen. pose proof (valBE_bytes_bound k Hk) as Hb. rewrite Hlen in Hb.
    unfold Ed25519PubEncoder.code. change (Z.of_nat 32) with 32 in *. lia. }
  replace (leading_zeros (Ed25519PubEncoder.code :: k)) with O by (destruct k; reflexivity).
  cbn [repeat]. rewrite app_nil_r.
  destruct HD as (HDok & HDv & HDlast).
  rewrite join_digits_length by (apply Forall_rev; exact HDok).
  rewrite length_rev.
  destruct (RadixFacts.repr_cases 58 ltac:(lia) _ _ (conj HDok (conj HDv HDlast)))
    as [[_ HV0] | (a & top & HDeq & Ha & Htop & Hge)].
  { exfalso. eval_const (256 ^ 32). lia. }
  pose proof (RadixFacts.val_bounds 58 ltac:(lia) _ HDok) as Hb. rewrite HDv, HDeq, length_app in Hb.
  cbn [length] in Hb. rewrite HDeq, length_app. cbn [length].
  destruct (Nat.lt_trichotomy (length a) 46) as [Hlt | [E | Hgt]]; [exfalso | lia | exfalso].
  - assert (58 ^ Z.of_nat (length a + 1) <= 58 ^ 46) by (apply Z.pow_le_mono_r; lia).
    eval_const (256 ^ 32).
    eval_const (58 ^ 46). lia.
  - assert (58 ^ 47 <= 58 ^ Z.of_nat (length a)) by (apply Z.pow_le_mono_r; lia).
    eval_const (256 ^ 32).
    eval_const (58 ^ 47). lia.
Qed.

End Ed25519PubEncoderShape.

(** Every identifier [encode] makes of a 32-octet key passes the guard of
    [decode], and is 56 characters long: [did:key:z] and 47 base-58 digits. *)
Theorem Ed25519PubEncoder_encode_shape (key : bytes) :
  is_bytes key -> length key = 32%nat ->
  Ed25519PubEncoder.startsWith (Ed25519PubEncoder.encode key) "did:key:z6Mk" = true /\
  String.length (Ed25519PubEncoder.encode key) = 56%nat.
Proof.
  intros Hk Hlen. unfold Ed25519PubEncoder.encode. split.
  - destruct (Ed25519PubEncoderFacts.encode_tag_prefix key Hk Hlen) as (r & ->).
    apply Ed25519PubEncoderFacts.startsWith_did_key.
  - rewrite Base64Facts.string_length_app,
      (Ed25519PubEncoderShape.encode_tag_length key Hk Hlen).
    reflexivity.
Qed.

(** [b64dec]: on every input, the loop appends the fewest [=] (at most three)
    that bring the length to a multiple of four, and the padded text is what
    [from_base64] receives. *)
Theorem b64dec_pads_any_input (input : string) :
  let k := ((4 - String.length input mod 4) mod 4)%nat in
  pad_loop 3 input = (input ++ Base64.equals k)%string /\
  (String.length (pad_loop 3 input) mod 4 = 0)%nat /\
  b64dec input
  = of_option (Base64.from_base64 (input ++ Base64.equals k) Base64.URLSAFE)
              (SodiumError "from_base64").
Proof.
  intros k.
  assert (pad_loop 3 input = (input ++ Base64.equals k)%string) as E.
  { rewrite <- (Base64Facts.string_app_empty input) at 1.
    change EmptyString with (Base64.equals 0).
    apply Base64Facts.pad_loop_completes; subst k.
    - pose proof (Nat.mod_upper_bound (String.length input) 4 ltac:(lia)) as Hb.
      destruct (String.length input mod 4)%nat as [|[|[|[|n]]]] eqn:Em; try lia;
        rewrite (Nat.div_mod_eq (String.length input) 4), Em.
      + cbn -[Nat.modulo Nat.div Nat.mul]. rewrite !Nat.add_0_r, Nat.mul_comm. apply Nat.Div0.mod_mul.
      + change ((4 - 1) mod 4)%nat with 3%nat.
        replace (4 * (String.length input / 4) + 1 + 3)%nat
          with ((String.length input / 4 + 1) * 4)%nat by lia.
        apply Nat.Div0.mod_mul.
      + change ((4 - 2) mod 4)%nat with 2%nat.
        replace (4 * (String.length input / 4) + 2 + 2)%nat
          with ((String.length input / 4 + 1) * 4)%nat by lia.
        apply Nat.Div0.mod_mul.
      + change ((4 - 3) mod 4)%nat with 1%nat.
        replace (4 * (String.length input / 4) + 3 + 1)%nat
          with ((String.length input / 4 + 1) * 4)%nat by lia.
        apply Nat.Div0.mod_mul.
    - lia.
    - pose proof (Nat.mod_upper_bound (4 - String.length input mod 4) 4 ltac:(lia)). lia.
    - pose proof (Nat.mod_upper_bound (4 - String.length input mod 4) 4 ltac:(lia)). lia. }
  split; [exact E | split].
  - apply Base64Facts.pad_loop_length_mod4.
  - unfold b64dec. now rewrite E.
Qed.

Lemma decode_chars_outside s c :
  In c (list_ascii_of_string s) -> Base58.ALPHABET_MAP c = None ->
  forall bs, Base58.decode_chars s bs = None.
Proof.
  induction s as [|a r IH]; intros Hin Hc bs; [destruct Hin|].
  cbn [list_ascii_of_string] in Hin. cbn [Base58.decode_chars].
  destruct Hin as [-> | Hin]; [now rewrite Hc|].
  destruct (Base58.ALPHABET_MAP a); [now apply IH | reflexivity].
Qed.

(** [Base58.decode] raises on a text with a character outside its alphabet. *)
Lemma Base58_decode_outside s c :
  In c (list_ascii_of_string s) -> Base58.ALPHABET_MAP c = None -> Base58.decode s = None.
Proof.
  intros Hin Hc. destruct s as [|a r]; [destruct Hin|].
  unfold Base58.decode. now rewrite (decode_chars_outside _ c Hin Hc).
Qed.

Section Coverage.
Context {S : Sodium} {J : JSON} {SL : SodiumLaws S} {JL : JSONLaws J}.
Local Open Scope string_scope.

(** [strB64dec] gives back the text [b64url] encoded, whether [b64url]
    padded it, left the padding out, or only part of the padding is there;
    the padded form is the unpadded one followed by its [=]. *)
Theorem strB64dec_inverts_b64url (s : string) :
  (forall pad, strB64dec (b64url (Str s) pad) = Ok s) /\
  b64url (Str s) true
  = b64url (Str s) false ++ Base64.equals (Base64.padding_len (from_string s)) /\
  (forall k, (k <= Base64.padding_len (from_string s))%nat ->
             strB64dec (b64url (Str s) false ++ Base64.equals k) = Ok s).
Proof.
  split; [intros pad; apply strB64dec_b64url_str|]. split; [reflexivity|].
  intros k Hk. unfold strB64dec, b64url. cbn [any_to_Uint8Array].
  rewrite (b64dec_to_base64_partial _ k (from_string_bytes s) Hk). cbn [bind].
  now rewrite to_string_from_string.
Qed.

(** [decodeSignedAttachment] reads the [base64] field alone: it returns the
    payload encoded there whatever the signature block holds. *)
Theorem decodeSignedAttachment_reads_only_the_payload data pad mt jws :
  json_wf data = true ->
  decodeSignedAttachment
    {| mime_type := mt;
       data_base64 := b64url (Str (JSON_stringify data)) pad;
       data_jws := jws |}
  = Ok data.
Proof.
  intros Hwf. unfold decodeSignedAttachment. cbn [data_base64].
  rewrite strB64dec_b64url_str. cbn [bind]. now rewrite (JSON_parse_stringify data Hwf).
Qed.


(** [unpackMessage] takes either key as its base-58 text: the result is that
    of the call with the octets. *)
Theorem unpack_keys_as_base58_text encMsg pk sk :
  is_bytes pk -> is_bytes sk ->
  let raw := raw_keys {| publicKey := pk; privateKey := sk |} in
  unpackMessage encMsg
    {| publicKeyArg := Str (Base58.encode pk); privateKeyArg := Str (Base58.encode sk) |}
  = unpackMessage encMsg raw /\
  unpackMessage encMsg {| publicKeyArg := Str (Base58.encode pk); privateKeyArg := Bin sk |}
  = unpackMessage encMsg raw /\
  unpackMessage encMsg {| publicKeyArg := Bin pk; privateKeyArg := Str (Base58.encode sk) |}
  = unpackMessage encMsg raw.
Proof.
  intros Hpk Hsk raw. subst raw. unfold unpackMessage, raw_keys.
  cbn [publicKeyArg privateKeyArg normalize_key].
  rewrite !Base58Facts.decode_encode by assumption. cbn [of_option]. auto.
Qed.

(** A key given as a text with a character outside the base-58 alphabet
    makes [unpackMessage] raise the error of [Base58.decode], once the
    envelope is there (parsed, or an object): the envelope's content is not
    looked at.  The public key is converted first. *)
Theorem unpack_rejects_key_text encMsg w s c :
  wrapper_of encMsg = Ok w ->
  In c (list_ascii_of_string s) -> Base58.ALPHABET_MAP c = None ->
  (forall priv,
     unpackMessage encMsg {| publicKeyArg := Str s; privateKeyArg := priv |}
     = Throw Base58Error) /\
  (forall pubArg pub,
     normalize_key pubArg = Ok pub ->
     unpackMessage encMsg {| publicKeyArg := pubArg; privateKeyArg := Str s |}
     = Throw Base58Error).
Proof.
  intros Hw Hin Hc.
  assert (normalize_key (Str s) = Throw Base58Error) as Hbad.
  { cbn [normalize_key]. now rewrite (Base58_decode_outside s c Hin Hc). }
  assert (exists w', match encMsg with
                     | EnvelopeText t => JSON_parse t = Some w'
                     | EnvelopeObject o => o = w'
                     end) as Hex.
  { exists w. destruct encMsg as [t|o]; cbn [wrapper_of] in Hw.
    - destruct (JSON_parse t); [now injection Hw as -> | discriminate].
    - now injection Hw. }
  split.
  - intros priv. now apply unpack_bad_public_key.
  - intros pubArg pub Hpub. now apply (unpack_bad_private_key _ _ pub).
Qed.

Local Opaque b64url b64dec Base58.encode Base58.decode.

Local Abbreviation ENC := (JString "xchacha20poly1305_ietf").
Local Abbreviation TYP := (JString "JWM/1.0").

(** [packMessage] from the outcome of the loop over the recipients. *)
Lemma packMessage_of_recipients m toKeys fromKeys g rs g1 :
  forEach_recipient (fst (crypto_secretstream_xchacha20poly1305_keygen g)) fromKeys toKeys []
    (snd (crypto_secretstream_xchacha20poly1305_keygen g)) = (Ok rs, g1) ->
  let cek := fst (crypto_secretstream_xchacha20poly1305_keygen g) in
  let iv := fst (randombytes_buf crypto_aead_chacha20poly1305_ietf_NPUBBYTES g1) in
  let protected := b64url (Str (JSON_stringify (header_json fromKeys ENC rs TYP))) true in
  let out := crypto_aead_chacha20poly1305_ietf_encrypt_detached
               (from_string m) (from_string protected) iv cek in
  packMessage m toKeys fromKeys g
  = (Ok (JSON_stringify (envelope_json (fst out) iv protected (snd out))),
     snd (randombytes_buf crypto_aead_chacha20poly1305_ietf_NPUBBYTES g1)).
Proof.
  intros H. cbv zeta.
  unfold packMessage, prepareRecipientKeys, encryptPlaintext, bindM, draw, ret.
  destruct (crypto_secretstream_xchacha20poly1305_keygen g) as [cek g0]. cbn [fst snd] in *.
  rewrite H.
  destruct (randombytes_buf crypto_aead_chacha20poly1305_ietf_NPUBBYTES g1) as [iv g2].
  reflexivity.
Qed.

Lemma packMessage_of_failed_recipients m toKeys fromKeys g e g1 :
  forEach_recipient (fst (crypto_secretstream_xchacha20poly1305_keygen g)) fromKeys toKeys []
    (snd (crypto_secretstream_xchacha20poly1305_keygen g)) = (Throw e, g1) ->
  packMessage m toKeys fromKeys g = (Throw e, g1).
Proof.
  intros H.
  unfold packMessage, prepareRecipientKeys, encryptPlaintext, bindM, draw, ret.
  destruct (crypto_secretstream_xchacha20poly1305_keygen g) as [cek g0]. cbn [fst snd] in *.
  now rewrite H.
Qed.

Lemma forEach_recipient_app cek fromKeys ks1 ks2 : forall acc g,
  forEach_recipient cek fromKeys (ks1 ++ ks2) acc g
  = match forEach_recipient cek fromKeys ks1 acc g with
    | (Ok rs, g') => forEach_recipient cek fromKeys ks2 rs g'
    | (Throw e, g') => (Throw e, g')
    end.
Proof.
  induction ks1 as [|k ks1 IH]; intros acc g; [reflexivity|].
  cbn [app forEach_recipient]. unfold bindM.
  destruct (recipient_entry cek fromKeys k g) as [[r|e] g1]; [apply IH | reflexivity].
Qed.

(** Unpacking what was packed with the recipient blocks [rs]. *)
Lemma unpack_packed_text fromKeys rs m iv cek keys pub priv :
  forallb json_wf rs = true ->
  is_bytes iv ->
  normalize_key (publicKeyArg keys) = Ok pub ->
  normalize_key (privateKeyArg keys) = Ok priv ->
  let protected := b64url (Str (JSON_stringify (header_json fromKeys ENC rs TYP))) true in
  let out := crypto_aead_chacha20poly1305_ietf_encrypt_detached
               (from_string m) (from_string protected) iv cek in
  unpackMessage (EnvelopeText (JSON_stringify (envelope_json (fst out) iv protected (snd out)))) keys =
  (' (cek', senderVk, recipVk) <- locateRecKey (Some (JArray rs)) pub priv ;;
   let sender_falsy :=
     match senderVk with Some s => String.eqb s EmptyString | None => true end in
   if sender_falsy && (match fromKeys with Some _ => true | None => false end)
   then Throw MissingSenderKey
   else
     message <- decryptPlaintext (fst out) (snd out) protected iv cek' ;;
     Ok {| message := message; recipientKey := recipVk; senderKey := senderVk |})%js.
Proof.
  intros Hwfs Hiv Hpub Hpriv. cbv zeta.
  rewrite unpack_text by apply envelope_json_wf.
  now apply (unpack_packed_envelope fromKeys ENC rs TYP m iv cek keys pub priv).
Qed.

(** A pack call for no recipient succeeds, whatever the sender key pair is
    (it is never converted), and nobody can unpack its envelope: the search
    finds no entry and raises [RecipientNotFound]. *)
Theorem pack_for_nobody m fromKeys g :
  exists env g',
    packMessage m [] fromKeys g = (Ok env, g') /\
    forall keys pub priv,
      normalize_key (publicKeyArg keys) = Ok pub ->
      normalize_key (privateKeyArg keys) = Ok priv ->
      unpackMessage (EnvelopeText env) keys = Throw RecipientNotFound.
Proof.
  do 2 eexists. split.
  - apply (packMessage_of_recipients m [] fromKeys g [] _ eq_refl).
  - intros keys pub priv Hpub Hpriv. cbv zeta.
    rewrite (unpack_packed_text fromKeys [] m _ _ keys pub priv eq_refl
               (randombytes_buf_bytes _ _) Hpub Hpriv).
    reflexivity.
Qed.

Lemma recipient_entry_unconvertible cek fromKeys vk g :
  crypto_sign_ed25519_pk_to_curve25519 vk = None ->
  recipient_entry cek fromKeys vk g
  = (Throw (SodiumError "crypto_sign_ed25519_pk_to_curve25519"), g).
Proof. intros H. unfold recipient_entry, bindM at 1, lift. now rewrite H. Qed.

Lemma recipient_entry_unconvertible_sender cek fk vk cpk g :
  crypto_sign_ed25519_pk_to_curve25519 vk = Some cpk ->
  crypto_sign_ed25519_sk_to_curve25519 (privateKey fk) = None ->
  recipient_entry cek (Some fk) vk g
  = (Throw (SodiumError "crypto_sign_ed25519_sk_to_curve25519"), g).
Proof.
  intros Hpk Hsk. unfold recipient_entry, bindM, lift. rewrite Hpk. cbn [of_option].
  now rewrite Hsk.
Qed.

(** [packMessage] raises the conversion error of libsodium, and returns no
    envelope, when a recipient key does not convert to Curve25519 (the keys
    before it being good), and when the sender's private key does not while
    there is a recipient to wrap for. *)
Theorem pack_rejects_unconvertible_keys m g :
  (forall good vk rest fromKeys,
     Forall public_key good -> sender_ok fromKeys ->
     crypto_sign_ed25519_pk_to_curve25519 vk = None ->
     fst (packMessage m (good ++ vk :: rest) fromKeys g)
     = Throw (SodiumError "crypto_sign_ed25519_pk_to_curve25519")) /\
  (forall vk rest fk,
     public_key vk ->
     crypto_sign_ed25519_sk_to_curve25519 (privateKey fk) = None ->
     fst (packMessage m (vk :: rest) (Some fk) g)
     = Throw (SodiumError "crypto_sign_ed25519_sk_to_curve25519")).
Proof.
  split.
  - intros good vk rest fromKeys Hgood Hs Hvk.
    set (cek := fst (crypto_secretstream_xchacha20poly1305_keygen g)).
    set (g0 := snd (crypto_secretstream_xchacha20poly1305_keygen g)).
    destruct (forEach_recipient_ok cek fromKeys good Hgood Hs [] g0)
      as (rs & g1 & Hrs & _).
    erewrite packMessage_of_failed_recipients; [reflexivity|].
    fold cek g0. rewrite forEach_recipient_app, Hrs.
    cbn [forEach_recipient]. unfold bindM at 1.
    rewrite (recipient_entry_unconvertible _ _ _ _ Hvk). reflexivity.
  - intros vk rest fk [sk Hvk] Hsk.
    destruct (ed25519_to_curve25519 _ _ Hvk) as (cpk & csk & Hpk & _).
    erewrite packMessage_of_failed_recipients; [reflexivity|].
    cbn [forEach_recipient]. unfold bindM at 1.
    rewrite (recipient_entry_unconvertible_sender _ _ _ _ _ Hpk Hsk). reflexivity.
Qed.

Lemma recipient_entry_opens cek fromKeys kp g :
  ed25519_keypair (publicKey kp) (privateKey kp) -> sender_ok fromKeys -> is_bytes cek ->
  exists r g',
    recipient_entry cek fromKeys (publicKey kp) g = (Ok r, g') /\
    json_wf r = true /\
    forall nf,
      locateRecKey_entry r (publicKey kp) (privateKey kp) nf
      = Ok (cek, option_map (fun fk => Base58.encode (publicKey fk)) fromKeys,
            Base58.encode (publicKey kp)).
Proof.
  intros HB Hs Hcek.
  destruct (ed25519_to_curve25519 _ _ HB) as (cpk & csk & Hpk & Hsk & Hc).
  destruct fromKeys as [fk|].
  - destruct (ed25519_to_curve25519 _ _ Hs) as (cpkA & cskA & HpkA & HskA & HcA).
    rewrite (recipient_entry_auth cek fk (publicKey kp) cpk cskA g Hpk HskA). cbv zeta.
    do 2 eexists. split; [reflexivity|]. split; [apply recipient_block_wf|].
    intros nf. cbn [option_map].
    eapply locate_own_block_auth; eauto.
    + apply randombytes_buf_bytes.
    + apply randombytes_buf_length.
  - rewrite (recipient_entry_anon cek (publicKey kp) cpk g Hpk).
    do 2 eexists. split; [reflexivity|]. split; [apply recipient_block_wf|].
    intros nf. eapply locate_own_block_anon; eauto.
Qed.

Lemma forEach_recipient_opens cek fromKeys kps :
  Forall (fun kp => ed25519_keypair (publicKey kp) (privateKey kp)) kps ->
  sender_ok fromKeys -> is_bytes cek ->
  forall acc g,
  exists rs g',
    forEach_recipient cek fromKeys (map publicKey kps) acc g = (Ok (acc ++ rs)%list, g') /\
    forallb json_wf rs = true /\
    Forall2 (fun kp r =>
               forall nf,
                 locateRecKey_entry r (publicKey kp) (privateKey kp) nf
                 = Ok (cek, option_map (fun fk => Base58.encode (publicKey fk)) fromKeys,
                       Base58.encode (publicKey kp)))
            kps rs.
Proof.
  intros Hks Hs Hcek. induction Hks as [|kp rest Hkp Hrest IH]; intros acc g.
  - exists [], g. cbn. rewrite app_nil_r. repeat split; auto.
  - destruct (recipient_entry_opens cek fromKeys kp g Hkp Hs Hcek) as (r & g1 & Hr & Hwf & Hopen).
    destruct (IH (acc ++ [r])%list g1) as (rs & g' & Hrs & Hwfs & Hall).
    exists (r :: rs), g'. cbn [map forEach_recipient]. unfold bindM at 1. rewrite Hr, Hrs.
    rewrite <- app_assoc. cbn [app forallb]. rewrite Hwf, Hwfs.
    repeat split; auto.
Qed.

(** [prepareRecipientKeys] writes one block per recipient key, in the order
    of the keys, and every block wraps the one content key the call returns:
    standing first in a recipients list, whatever follows it, a block makes
    [locateRecKey] return, to its own recipient's keys, that content key, the
    sender's base-58 key ([null] without a sender) and the recipient's
    base-58 key. *)
Theorem every_block_opens_for_its_recipient kps fromKeys g :
  Forall (fun kp => ed25519_keypair (publicKey kp) (privateKey kp)) kps ->
  sender_ok fromKeys ->
  exists recipsJson cek g' rs,
    prepareRecipientKeys (map publicKey kps) fromKeys g = (Ok (recipsJson, cek), g') /\
    JSON_parse recipsJson = Some (header_json fromKeys ENC rs TYP) /\
    Forall2 (fun kp r =>
               forall later,
                 locateRecKey (Some (JArray (r :: later))) (publicKey kp) (privateKey kp)
                 = Ok (cek, option_map (fun fk => Base58.encode (publicKey fk)) fromKeys,
                       Base58.encode (publicKey kp)))
            kps rs.
Proof.
  intros Hks Hs. unfold prepareRecipientKeys, bindM, draw, ret.
  pose proof (keygen_bytes g) as Hcek.
  destruct (crypto_secretstream_xchacha20poly1305_keygen g) as [cek g0]. cbn [fst] in Hcek.
  destruct (forEach_recipient_opens cek fromKeys kps Hks Hs Hcek [] g0)
    as (rs & g' & Hrs & Hwfs & Hall).
  rewrite Hrs. cbn [app].
  exists (JSON_stringify (header_json fromKeys ENC rs TYP)), cek, g', rs.
  split; [reflexivity|]. split.
  - apply JSON_parse_stringify. now apply header_json_wf.
  - eapply Forall2_impl; [|exact Hall].
    intros kp r Hopen later. rewrite locateRecKey_first. apply Hopen.
Qed.

(** The block written for [vk], examined with a public key of another
    length: [sodium.memcmp] refuses the comparison. *)
Lemma locate_block_other_length cek fromKeys vk g pub priv nf r :
  public_key vk -> sender_ok fromKeys ->
  length pub <> 32%nat ->
  fst (recipient_entry cek fromKeys vk g) = Ok r ->
  locateRecKey_entry r pub priv nf = Throw (SodiumError "memcmp").
Proof.
  intros [sk HB] Hs Hlen Hr.
  destruct (ed25519_public_bytes _ _ HB) as [HbB HlB].
  destruct (ed25519_to_curve25519 _ _ HB) as (cpk & csk & Hpk & _).
  assert (memcmp vk pub = Throw (SodiumError "memcmp")) as Hcmp.
  { unfold memcmp. rewrite HlB.
    destruct (Nat.eqb_spec 32 (length pub)) as [E|_]; [now elim Hlen | reflexivity]. }
  destruct fromKeys as [fk|].
  - destruct (ed25519_to_curve25519 _ _ Hs) as (cpkA & cskA & HpkA & HskA & HcA).
    rewrite (recipient_entry_auth cek fk vk cpk cskA g Hpk HskA) in Hr.
    cbn [fst] in Hr. injection Hr as <-.
    unfold locateRecKey_entry, recipient_block. cbn.
    rewrite (Base58Facts.decode_encode vk HbB). cbn. now rewrite Hcmp.
  - rewrite (recipient_entry_anon cek vk cpk g Hpk) in Hr. cbn [fst] in Hr. injection Hr as <-.
    unfold locateRecKey_entry, recipient_block. cbn.
    rewrite (Base58Facts.decode_encode vk HbB). cbn. now rewrite Hcmp.
Qed.

(** Unpacking with a public key that is not 32 octets long raises the error
    of [sodium.memcmp], which compares arrays of one length only: the
    comparison of the first entry's [kid] with the caller's key comes before
    any use of the keys. *)
Theorem unpack_with_key_of_other_length m vk rest fromKeys g :
  public_key vk -> Forall public_key rest -> sender_ok fromKeys ->
  exists env g',
    packMessage m (vk :: rest) fromKeys g = (Ok env, g') /\
    forall pub priv,
      length pub <> 32%nat ->
      unpackMessage (EnvelopeText env)
        {| publicKeyArg := Bin pub; privateKeyArg := Bin priv |}
      = Throw (SodiumError "memcmp").
Proof.
  intros Hvk Hrest Hs.
  set (cek := fst (crypto_secretstream_xchacha20poly1305_keygen g)).
  set (g0 := snd (crypto_secretstream_xchacha20poly1305_keygen g)).
  destruct (forEach_recipient_ok cek fromKeys (vk :: rest) (Forall_cons _ Hvk Hrest) Hs [] g0)
    as (rs & g1 & Hrs & _ & Hwfs & _ & Hhead).
  cbn [app] in Hrs.
  do 2 eexists. split; [apply (packMessage_of_recipients m _ fromKeys g rs g1 Hrs)|].
  intros pub priv Hlen. cbv zeta.
  rewrite (unpack_packed_text fromKeys rs m _ _
             {| publicKeyArg := Bin pub; privateKeyArg := Bin priv |} pub priv Hwfs
             (randombytes_buf_bytes _ _) eq_refl eq_refl).
  destruct (Hhead vk rest eq_refl) as (r & rs' & -> & Hr).
  rewrite locateRecKey_first.
  now rewrite (locate_block_other_length cek fromKeys vk g0 pub priv [] r Hvk Hs Hlen Hr).
Qed.

Ltac ok_inv H :=
  repeat
    match type of H with
    | bind ?r _ = Ok _ =>
        let E := fresh "E" in destruct r eqn:E; cbn [bind] in H; [|discriminate H]
    | (if ?c then _ else _) = Ok _ =>
        let E := fresh "E" in destruct c eqn:E; try discriminate H
    | (let '(_, _) := ?x in _) = Ok _ => destruct x
    end.

(** What the loop body of [locateRecKey] returns as the recipient key is the
    [kid] text of the entry it examined. *)
Lemma locateRecKey_entry_kid recip pub priv nf cek s kid :
  locateRecKey_entry recip pub priv nf = Ok (cek, s, kid) ->
  exists h, get "header" (Some recip) = Ok h /\ get "kid" h = Ok (Some (JString kid)).
Proof.
  intros H. unfold locateRecKey_entry in H.
  destruct (has "header" recip) as [hh|]; cbn [bind] in H; [|discriminate].
  destruct (if hh then has "encrypted_key" recip else Ok false) as [hk|]; cbn [bind] in H;
    [|discriminate].
  destruct (negb hh || negb hk); [discriminate|].
  destruct (get "header" (Some recip)) as [h|]; cbn [bind] in H; [|discriminate].
  exists h. split; [reflexivity|].
  destruct (get "kid" h) as [kid_v|]; cbn [bind] in H; [|discriminate].
  destruct (as_string kid_v) as [kid'|] eqn:Ekid; cbn [bind] in H; [|discriminate].
  apply as_string_Ok in Ekid. subst kid_v.
  destruct (of_option (Base58.decode kid') Base58Error) as [recipVk|]; cbn [bind] in H;
    [|discriminate].
  destruct (memcmp recipVk pub) as [same|]; cbn [bind] in H; [|discriminate].
  destruct (of_option (crypto_sign_ed25519_pk_to_curve25519 pub) _) as [pk|]; cbn [bind] in H;
    [|discriminate].
  destruct (of_option (crypto_sign_ed25519_sk_to_curve25519 priv) _) as [sk|]; cbn [bind] in H;
    [|discriminate].
  destruct (get "encrypted_key" (Some recip)) as [ek_v|]; cbn [bind] in H; [|discriminate].
  destruct (as_string ek_v) as [ek|]; cbn [bind] in H; [|discriminate].
  destruct (b64dec ek) as [encKey|]; cbn [bind] in H; [|discriminate].
  destruct (get "iv" h) as [iv_v|]; cbn [bind] in H; [|discriminate].
  match type of H with bind ?r _ = _ => destruct r as [nonce|] end; cbn [bind] in H;
    [|discriminate].
  destruct (get "sender" h) as [sender_v|]; cbn [bind] in H; [|discriminate].
  match type of H with bind ?r _ = _ => destruct r as [encSender|] end; cbn [bind] in H;
    [|discriminate].
  destruct nonce as [n|], encSender as [e|]; ok_inv H; now injection H as _ _ <-.
Qed.

(** Whenever [unpackMessage] returns, the [recipientKey] of its result is the
    [kid] text of the first entry of the header's [recipients], as it stands
    there: it is not computed from the caller's key. *)
Theorem unpack_reports_first_kid encMsg keys r :
  unpackMessage encMsg keys = Ok r ->
  exists header recipients first rest h,
    protected_header encMsg = Ok header /\
    get "recipients" (Some header) = Ok recipients /\
    for_in_values recipients = first :: rest /\
    get "header" (Some first) = Ok h /\
    get "kid" h = Ok (Some (JString (recipientKey r))).
Proof.
  intros H. unfold unpackMessage in H. unfold protected_header.
  fold (wrapper_of encMsg) in H.
  destruct (wrapper_of encMsg) as [wrapper|]; cbn [bind] in H |- *; [|discriminate].
  ok_inv H. injection H as <-. cbn [recipientKey].
  match goal with
  | Hl : locateRecKey ?rc _ _ = Ok (_, _, ?kid),
    Hp : get "protected" (Some wrapper) = Ok _,
    Hh : of_option (JSON_parse _) JSONSyntaxError = Ok ?hd,
    Hr : get "recipients" (Some ?hd) = Ok ?rc |- _ =>
      unfold locateRecKey in Hl;
      destruct (for_in_values rc) as [|first rest] eqn:Hfor; [discriminate Hl|];
      destruct (locateRecKey_entry_kid _ _ _ _ _ _ _ Hl) as (h & Hhead & Hkid);
      exists hd, rc, first, rest, h
  end.
  repeat match goal with
         | Hs : as_string ?v = Ok ?x |- _ => apply as_string_Ok in Hs; subst v
         end.
  cbn [bind as_string].
  repeat match goal with
         | Hg : ?t = Ok _ |- context [?t] => rewrite Hg; cbn [bind as_string]
         end.
  auto.
Qed.

(** With the header read and its [alg] accepted, an error of the search
    for the key is the error of [unpackMessage]. *)
Lemma unpack_locate_throws encMsg keys pub priv header a recipients e :
  normalize_key (publicKeyArg keys) = Ok pub ->
  normalize_key (privateKeyArg keys) = Ok priv ->
  protected_header encMsg = Ok header ->
  get "alg" (Some header) = Ok (Some (JString a)) ->
  a = "Authcrypt" \/ a = "Anoncrypt" ->
  get "recipients" (Some header) = Ok recipients ->
  locateRecKey recipients pub priv = Throw e ->
  unpackMessage encMsg keys = Throw e.
Proof.
  intros Hpub Hpriv Hhdr Halg Ha Hrecips Hloc.
  unfold protected_header, wrapper_of in Hhdr. unfold unpackMessage.
  destruct (match encMsg with
            | EnvelopeText s => of_option (JSON_parse s) JSONSyntaxError
            | EnvelopeObject w => Ok w
            end) as [wrapper|]; cbn [bind] in *; [|discriminate].
  rewrite Hpub, Hpriv. cbn [bind].
  destruct (get "protected" (Some wrapper)) as [pv|]; cbn [bind] in *; [|discriminate].
  destruct (as_string pv) as [protected|]; cbn [bind] in *; [|discriminate].
  destruct (strB64dec protected) as [recipsJson|]; cbn [bind] in *; [|discriminate].
  rewrite Hhdr. cbn [bind]. rewrite Halg. cbn [bind].
  destruct Ha as [-> | ->]; cbn [String.eqb Ascii.eqb Bool.eqb negb andb];
    rewrite Hrecips; cbn [bind]; now rewrite Hloc.
Qed.

(** An envelope whose first recipient entry is an object or array without a
    [header] or without an [encrypted_key] property is refused with
    [Invalid recipient header], whatever the keys and the later entries. *)
Theorem unpack_malformed_recipient encMsg keys pub priv header a recipients first rest :
  normalize_key (publicKeyArg keys) = Ok pub ->
  normalize_key (privateKeyArg keys) = Ok priv ->
  protected_header encMsg = Ok header ->
  get "alg" (Some header) = Ok (Some (JString a)) ->
  a = "Authcrypt" \/ a = "Anoncrypt" ->
  get "recipients" (Some header) = Ok recipients ->
  for_in_values recipients = first :: rest ->
  has "header" first = Ok false \/ has "encrypted_key" first = Ok false ->
  unpackMessage encMsg keys = Throw MalformedRecipient.
Proof.
  intros Hpub Hpriv Hhdr Halg Ha Hrecips Hfor Hbad.
  apply (unpack_locate_throws encMsg keys pub priv header a recipients); auto.
  unfold locateRecKey. rewrite Hfor. unfold locateRecKey_entry.
  destruct Hbad as [Hh | Hk].
  - rewrite Hh. reflexivity.
  - destruct first; try discriminate Hk; cbn [has] in *; cbn [bind].
    + reflexivity.
    + injection Hk as Hk.
      destruct (lookup "header" fields); cbn [negb orb];
        [destruct (lookup "encrypted_key" fields); [discriminate | reflexivity] | reflexivity].
Qed.

Lemma decryptPlaintext_encrypt m ad iv cek :
  is_bytes iv ->
  length iv = crypto_aead_chacha20poly1305_ietf_NPUBBYTES ->
  length cek = crypto_aead_chacha20poly1305_ietf_KEYBYTES ->
  let out := crypto_aead_chacha20poly1305_ietf_encrypt_detached
               (from_string m) (from_string ad) iv cek in
  decryptPlaintext (fst out) (snd out) ad iv cek = Ok m.
Proof.
  intros Hiv Hivl Hcekl. cbv zeta. unfold decryptPlaintext.
  rewrite aead_decrypt_encrypt by (try apply from_string_bytes; assumption).
  cbn [of_option bind]. now rewrite to_string_from_string.
Qed.

(** A block sealed for [pkB] that names another 32-octet key as its [kid]. *)
Lemma locate_block_foreign_kid pkB skB cpk csk other cek g nf :
  ed25519_keypair pkB skB ->
  crypto_sign_ed25519_pk_to_curve25519 pkB = Some cpk ->
  crypto_sign_ed25519_sk_to_curve25519 skB = Some csk ->
  curve25519_keypair cpk csk ->
  is_bytes other -> length other = 32%nat ->
  is_bytes cek ->
  locateRecKey_entry (recipient_block (fst (crypto_box_seal cek cpk g)) None None other) pkB skB nf
  = Ok (cek, None, Base58.encode other).
Proof.
  intros HB Hpk Hsk Hc Hother Hlen Hcek.
  destruct (ed25519_public_bytes _ _ HB) as [_ HlB].
  destruct (memcmp_same_length other pkB ltac:(congruence)) as [same Hsame].
  unfold locateRecKey_entry, recipient_block. cbn.
  rewrite (Base58Facts.decode_encode other Hother). cbn.
  rewrite Hsame. cbn. rewrite Hpk, Hsk. cbn.
  rewrite b64dec_b64url_bin by apply seal_bytes. cbn.
  rewrite (seal_open_seal _ _ _ _ Hcek Hc). reflexivity.
Qed.

(** The comparison of an entry's [kid] with the caller's key decides nothing:
    an envelope whose only entry is sealed for [B] under the [kid] of any
    other 32-octet key is unpacked by [B], and [recipientKey] names that
    other key. *)
Theorem unpack_ignores_kid_mismatch m pkB skB other cek iv g :
  ed25519_keypair pkB skB ->
  is_bytes other -> length other = 32%nat ->
  is_bytes cek -> length cek = crypto_aead_chacha20poly1305_ietf_KEYBYTES ->
  is_bytes iv -> length iv = crypto_aead_chacha20poly1305_ietf_NPUBBYTES ->
  exists cpk,
    crypto_sign_ed25519_pk_to_curve25519 pkB = Some cpk /\
    let block := recipient_block (fst (crypto_box_seal cek cpk g)) None None other in
    let protected := b64url (Str (JSON_stringify (header_json None ENC [block] TYP))) true in
    let out := crypto_aead_chacha20poly1305_ietf_encrypt_detached
                 (from_string m) (from_string protected) iv cek in
    unpackMessage (EnvelopeObject (envelope_json (fst out) iv protected (snd out)))
      (raw_keys {| publicKey := pkB; privateKey := skB |})
    = Ok {| message := m; recipientKey := Base58.encode other; senderKey := None |}.
Proof.
  intros HB Hother Hlen Hcek Hcekl Hiv Hivl.
  destruct (ed25519_to_curve25519 _ _ HB) as (cpk & csk & Hpk & Hsk & Hc).
  exists cpk. split; [exact Hpk|]. cbv zeta.
  rewrite (unpack_packed_envelope None ENC _ TYP m iv cek
             (raw_keys {| publicKey := pkB; privateKey := skB |}) pkB skB
             eq_refl eq_refl).
  2:{ cbn [forallb]. now rewrite recipient_block_wf. }
  2: exact Hiv. 2: reflexivity. 2: reflexivity.
  rewrite locateRecKey_first.
  rewrite (locate_block_foreign_kid pkB skB cpk csk other cek g [] HB Hpk Hsk Hc Hother Hlen Hcek).
  cbn [bind andb].
  now rewrite (decryptPlaintext_encrypt m _ iv cek Hiv Hivl Hcekl).
Qed.

(** How the content key is opened follows the fields of the entry, not the
    [alg] of the header: an envelope labelled [Anoncrypt] whose entry carries
    a nonce and a sealed sender is opened as an authenticated one, and
    [unpackMessage] reports the sender. *)
Theorem unpack_mode_follows_entry m pkB skB pkA skA cek n iv g :
  ed25519_keypair pkB skB -> ed25519_keypair pkA skA ->
  is_bytes cek -> length cek = crypto_aead_chacha20poly1305_ietf_KEYBYTES ->
  is_bytes n -> length n = crypto_box_NONCEBYTES ->
  is_bytes iv -> length iv = crypto_aead_chacha20poly1305_ietf_NPUBBYTES ->
  exists cpk cskA,
    crypto_sign_ed25519_pk_to_curve25519 pkB = Some cpk /\
    crypto_sign_ed25519_sk_to_curve25519 skA = Some cskA /\
    let block :=
      recipient_block (crypto_box_easy cek n cpk cskA) (Some n)
        (Some (fst (crypto_box_seal (from_string (Base58.encode pkA)) cpk g))) pkB in
    let protected := b64url (Str (JSON_stringify (header_json None ENC [block] TYP))) true in
    let out := crypto_aead_chacha20poly1305_ietf_encrypt_detached
                 (from_string m) (from_string protected) iv cek in
    get "alg" (Some (header_json None ENC [block] TYP)) = Ok (Some (JString "Anoncrypt")) /\
    unpackMessage (EnvelopeObject (envelope_json (fst out) iv protected (snd out)))
      (raw_keys {| publicKey := pkB; privateKey := skB |})
    = Ok {| message := m;
            recipientKey := Base58.encode pkB;
            senderKey := Some (Base58.encode pkA) |}.
Proof.
  intros HB HA Hcek Hcekl Hn Hnl Hiv Hivl.
  destruct (ed25519_to_curve25519 _ _ HB) as (cpk & csk & Hpk & Hsk & Hc).
  destruct (ed25519_to_curve25519 _ _ HA) as (cpkA & cskA & HpkA & HskA & HcA).
  exists cpk, cskA. split; [exact Hpk|]. split; [exact HskA|]. cbv zeta.
  split; [reflexivity|].
  rewrite (unpack_packed_envelope None ENC _ TYP m iv cek
             (raw_keys {| publicKey := pkB; privateKey := skB |}) pkB skB
             eq_refl eq_refl).
  2:{ cbn [forallb]. now rewrite recipient_block_wf. }
  2: exact Hiv. 2: reflexivity. 2: reflexivity.
  rewrite locateRecKey_first.
  rewrite (locate_own_block_auth pkB skB cpk csk pkA skA cpkA cskA cek n g []
             HB Hpk Hsk Hc HA HpkA HcA Hcek Hn Hnl).
  cbn [bind andb]. rewrite andb_false_r.
  now rewrite (decryptPlaintext_encrypt m _ iv cek Hiv Hivl Hcekl).
Qed.

(** The attachment [signedAttachment] returns names its signer three times,
    consistently: [header.kid] is the [did:key] of the public key, the
    protected header decodes to an [EdDSA] header with the same [kid], and
    its [jwk] carries that [kid] and, as [x], the public key in unpadded
    base64url. *)
Theorem signedAttachment_names_its_signer data keys :
  ed25519_keypair (publicKey keys) (privateKey keys) ->
  exists att header jwk,
    signedAttachment data keys = Ok att /\
    mime_type att = "application/json" /\
    data_base64 att = b64url (Str (JSON_stringify data)) false /\
    Ed25519PubEncoder.decode (jws_header_kid (data_jws att)) = Ok (publicKey keys) /\
    (text <- strB64dec (jws_protected (data_jws att)) ;;
     of_option (JSON_parse text) JSONSyntaxError)%js = Ok header /\
    get "alg" (Some header) = Ok (Some (JString "EdDSA")) /\
    get "kid" (Some header) = Ok (Some (JString (jws_header_kid (data_jws att)))) /\
    get "jwk" (Some header) = Ok (Some jwk) /\
    get "crv" (Some jwk) = Ok (Some (JString "Ed25519")) /\
    get "kty" (Some jwk) = Ok (Some (JString "OKP")) /\
    get "kid" (Some jwk) = Ok (Some (JString (jws_header_kid (data_jws att)))) /\
    (x <- get "x" (Some jwk) ;; s <- as_string x ;; b64dec s)%js = Ok (publicKey keys).
Proof.
  intros Hk. destruct (ed25519_public_bytes _ _ Hk) as [Hpk Hpkl].
  unfold signedAttachment.
  set (didkey := Ed25519PubEncoder.encode (publicKey keys)).
  set (hdr := JObject _).
  set (p := b64url (Str (JSON_stringify hdr)) false).
  set (d := b64url (Str (JSON_stringify data)) false).
  destruct (sign_verify (Buffer_from_ascii (p ++ "." ++ d)) _ _ Hk) as (sig & Hsign & _).
  rewrite Hsign. cbn [of_option bind].
  eexists. exists hdr. eexists. split; [reflexivity|].
  cbn [mime_type data_base64 data_jws jws_header_kid jws_protected].
  split; [reflexivity|]. split; [reflexivity|].
  split; [apply (Ed25519PubEncoderFacts.decode_encode_key _ Hpk Hpkl)|].
  split.
  { subst p. rewrite strB64dec_b64url_str. cbn [bind].
    rewrite JSON_parse_stringify; [reflexivity|]. subst hdr. reflexivity. }
  subst hdr. cbn [get lookup String.eqb Ascii.eqb Bool.eqb].
  repeat (split; [reflexivity|]).
  cbn [bind as_string]. now apply b64dec_b64url_bin.
Qed.

(** The repository's own scenario: two key pairs from [generateKeyPair], a
    message packed by the first for the second and unpacked by the second,
    and a payload signed by the first: the message and the sender come back,
    and the attachment verifies and decodes. *)
Theorem generated_keys_pack_unpack_sign m data g :
  json_wf data = true ->
  let '(alice, g1) := generateKeyPair g in
  let '(bob, g2) := generateKeyPair g1 in
  match alice, bob with
  | Ok alice, Ok bob =>
      (exists env g3,
         packMessage m [publicKey bob] (Some alice) g2 = (Ok env, g3) /\
         unpackMessage (EnvelopeText env) (raw_keys bob)
         = Ok {| message := m;
                 recipientKey := Base58.encode (publicKey bob);
                 senderKey := Some (Base58.encode (publicKey alice)) |}) /\
      (exists att,
         signedAttachment data alice = Ok att /\
         verifySignedAttachment att = Ok true /\
         decodeSignedAttachment att = Ok data)
  | _, _ => False
  end.
Proof.
  intros Hwf. unfold generateKeyPair, draw.
  pose proof (keypair_generated g) as HA.
  destruct (crypto_sign_keypair g) as [alice g1]. cbn [fst] in HA.
  pose proof (keypair_generated g1) as HB.
  destruct (crypto_sign_keypair g1) as [bob g2]. cbn [fst] in HB.
  split.
  - set (cek := fst (crypto_secretstream_xchacha20poly1305_keygen g2)).
    set (g0 := snd (crypto_secretstream_xchacha20poly1305_keygen g2)).
    destruct (recipient_entry_opens cek (Some alice) bob g0 HB HA (keygen_bytes g2))
      as (r & g' & Hr & Hwfr & Hopen).
    do 2 eexists. split.
    + apply (packMessage_of_recipients m _ (Some alice) g2 [r] g').
      fold cek g0. cbn [forEach_recipient]. unfold bindM at 1. rewrite Hr. reflexivity.
    + cbv zeta.
      rewrite (unpack_packed_text (Some alice) [r] m _ _ (raw_keys bob)
                 (publicKey bob) (privateKey bob)).
      2:{ cbn [forallb]. now rewrite Hwfr. }
      2: apply randombytes_buf_bytes. 2: reflexivity. 2: reflexivity.
      rewrite locateRecKey_first, Hopen. cbn [bind option_map].
      rewrite Base58_encode_nonempty.
      2: apply (ed25519_public_bytes _ _ HA).
      2:{ intros E. destruct (ed25519_public_bytes _ _ HA) as [_ Hl]. rewrite E in Hl.
          discriminate. }
      cbn [andb].
      rewrite (decryptPlaintext_encrypt m _ _ cek (randombytes_buf_bytes _ _)
                 (randombytes_buf_length _ _) (keygen_length g2)).
      reflexivity.
  - destruct (ed25519_public_bytes _ _ HA) as [Hpk Hpkl].
    unfold signedAttachment.
    set (p := b64url (Str (JSON_stringify (JObject _))) false).
    set (d := b64url (Str (JSON_stringify data)) false).
    destruct (sign_verify (Buffer_from_ascii (p ++ "." ++ d)) _ _ HA)
      as (sig & Hsign & Hsig & Hver).
    rewrite Hsign. cbn [of_option bind].
    eexists. split; [reflexivity|].
    unfold verifySignedAttachment, decodeSignedAttachment.
    cbn [data_jws data_base64 jws_signature jws_header_kid jws_protected].
    rewrite b64dec_b64url_bin by exact Hsig. cbn [bind].
    rewrite (Ed25519PubEncoderFacts.decode_encode_key _ Hpk Hpkl). cbn [bind].
    unfold Buffer_from. subst p d.
    rewrite from_string_ascii by apply signing_input_ascii.
    unfold Buffer_from_ascii in Hver. rewrite Hver. cbn [of_option].
    rewrite strB64dec_b64url_str. cbn [bind]. rewrite (JSON_parse_stringify data Hwf).
    cbn [of_option]. auto.
Qed.

End Coverage.

(** * The claims on the reference platform

    Each theorem above is instantiated with the reference codec and the
    reference primitives, for [alice], [bob] and [carol]. *)

Module Witnesses.
Import Reference ReferenceFacts.
Local Open Scope string_scope.

Lemma b64dec_padding_tolerant_witness :
  is_bytes [104; 105] /\ (1 <= Base64.padding_len [104; 105]%Z)%nat /\
  b64dec "aGk=" = Ok [104; 105] /\ b64dec "aGk" = Ok [104; 105].
Proof.
  assert (is_bytes [104; 105]) as Hb by (apply is_bytes_forallb; reflexivity).
  assert (1 <= Base64.padding_len [104; 105]%Z)%nat as Hk by (vm_compute; lia).
  split; [exact Hb | split; [exact Hk |]].
  pose proof (b64dec_padding_tolerant [104; 105] 1 Hb Hk) as (_ & _ & H1 & _).
  pose proof (b64dec_padding_tolerant [104; 105] 0 Hb (Nat.le_0_l _)) as (_ & _ & H0 & _).
  split; [exact H1 | exact H0].
Defined.

Lemma Ed25519PubEncoder_roundtrip_witness :
  Ed25519PubEncoder.decode (Ed25519PubEncoder.encode (publicKey bob)) = Ok (publicKey bob).
Proof.
  apply (Ed25519PubEncoder_roundtrip (publicKey bob));
    [apply fill_bytes | reflexivity].
Defined.

Lemma unpack_by_later_recipient_throws_witness :
  exists env g',
    packMessage "hi" [publicKey bob; publicKey carol] (Some alice) 0%nat = (Ok env, g') /\
    unpackMessage (EnvelopeText env) (raw_keys carol)
    = Throw (SodiumError "crypto_box_seal_open").
Proof.
  apply (unpack_by_later_recipient_throws (S := sodium) (J := json_codec) (SL := sodium_laws) (JL := json_laws)
           "hi" (publicKey bob) (publicKey carol) (privateKey carol) [publicKey carol]
           (Some alice) 0%nat (publicKey bob) (publicKey carol) (publicKey carol)).
  - apply public_key_fill.
  - constructor; [apply public_key_fill | constructor].
  - left. reflexivity.
  - apply keypair_of_fill.
  - apply keypair_of_fill.
  - reflexivity.
  - reflexivity.
  - reflexivity.
  - apply cannot_open_other; [apply fill_bytes | reflexivity | reflexivity].
Defined.

Lemma unpack_never_reports_recipient_not_found_witness :
  is_error RecipientNotFound (locateRecKey (Some (JArray [])) (publicKey carol) (privateKey carol))
  = true /\
  exists env g',
    packMessage "hi" [publicKey bob] (Some alice) 0%nat = (Ok env, g') /\
    is_error RecipientNotFound (unpackMessage (EnvelopeText env) (raw_keys carol)) = false.
Proof.
  destruct (unpack_never_reports_recipient_not_found (S := sodium) (J := json_codec) (SL := sodium_laws) (JL := json_laws)
              "hi" (publicKey bob) [] (Some alice) 0%nat)
    as (Hloc & env & g' & Hpack & Hun).
  - apply public_key_fill.
  - constructor.
  - apply keypair_of_fill.
  - split.
    + rewrite Hloc. reflexivity.
    + exists env, g'. split; [exact Hpack | apply Hun].
Defined.

Lemma pack_mode_correct_witness :
  exists env g' header,
    packMessage "hi" [publicKey bob; publicKey carol] (Some alice) 0%nat = (Ok env, g') /\
    protected_header (EnvelopeText env) = Ok header /\
    get "alg" (Some header) = Ok (Some (JString "Authcrypt")) /\
    exists r,
      unpackMessage (EnvelopeText env) (raw_keys bob) = Ok r /\
      message r = "hi" /\ senderKey r = Some (Base58.encode (publicKey alice)).
Proof.
  destruct (pack_mode_correct (S := sodium) (J := json_codec) (SL := sodium_laws) (JL := json_laws)
              "hi" [publicKey bob; publicKey carol] (Some alice) 0%nat)
    as (env & g' & header & recips & Hpack & Hhead & _ & _ & Halg & _ & _ & Hfirst).
  - constructor; [apply public_key_fill | constructor; [apply public_key_fill | constructor]].
  - apply keypair_of_fill.
  - apply seal_integrity_holds.
  - exists env, g', header. repeat (split; [assumption|]).
    apply (Hfirst (publicKey bob) (privateKey bob) [publicKey carol] eq_refl).
    apply keypair_of_fill.
Defined.

Lemma sender_not_recovered_by_later_recipient_witness :
  exists env g' header recips,
    packMessage "hi" [publicKey bob; publicKey carol] (Some alice) 0%nat = (Ok env, g') /\
    protected_header (EnvelopeText env) = Ok header /\
    get "alg" (Some header) = Ok (Some (JString "Authcrypt")) /\
    get "recipients" (Some header) = Ok (Some (JArray recips)) /\
    length recips = 2%nat /\
    Forall (fun r => exists iv sender,
                       recipient_header r (JString iv) (JString sender) /\
                       String.eqb iv EmptyString = false /\
                       String.eqb sender EmptyString = false) recips /\
    unpackMessage (EnvelopeText env) (raw_keys carol)
    = Throw (SodiumError "crypto_box_seal_open").
Proof.
  apply (sender_not_recovered_by_later_recipient
           (S := sodium) (J := json_codec) (SL := sodium_laws) (JL := json_laws)
           "hi" (publicKey bob) (publicKey carol) (privateKey carol) [publicKey carol]
           alice 0%nat (publicKey bob) (publicKey carol) (publicKey carol)).
  - apply public_key_fill.
  - constructor; [apply public_key_fill | constructor].
  - left. reflexivity.
  - apply keypair_of_fill.
  - apply keypair_of_fill.
  - reflexivity.
  - reflexivity.
  - reflexivity.
  - apply cannot_open_other; [apply fill_bytes | reflexivity | reflexivity].
Defined.

Lemma authcrypt_without_sender_is_rejected_witness :
  unpackMessage stripped_envelope (raw_keys bob) = Throw MissingSenderKey.
Proof.
  apply (authcrypt_without_sender_is_rejected (S := sodium) (J := json_codec)
           stripped_envelope (raw_keys bob) (publicKey bob) (privateKey bob) stripped_header
           (Some (JArray [stripped_block]))
           (fill 1 32) None (Base58.encode (publicKey bob))).
  - reflexivity.
  - reflexivity.
  - vm_compute. reflexivity.
  - reflexivity.
  - reflexivity.
  - vm_compute. reflexivity.
  - left. reflexivity.
Defined.


Lemma content_cipher_is_not_the_named_scheme_witness :
  exists env g' header iv,
    packMessage "hi" [publicKey bob] None 0%nat = (Ok env, g') /\
    protected_header (EnvelopeText env) = Ok header /\
    get "enc" (Some header) = Ok (Some (JString "xchacha20poly1305_ietf")) /\
    aead_npubbytes "xchacha20poly1305_ietf" = Some 24%nat /\
    envelope_field "iv" (EnvelopeText env) = Ok iv /\
    length iv = 12%nat.
Proof.
  destruct (content_cipher_is_not_the_named_scheme (S := sodium) (J := json_codec) (SL := sodium_laws) (JL := json_laws)
              "hi" [publicKey bob] None 0%nat)
    as (env & g' & header & protected & iv & cek & Hpack & Hhead & Henc & Hn & Hiv & Hlen & _).
  - constructor; [apply public_key_fill | constructor].
  - exact I.
  - exists env, g', header, iv. repeat (split; [assumption|]). assumption.
Defined.

Lemma unpack_text_or_object_any_tags_witness :
  exists w g' header,
    packMessage_tagged (JString "A256GCM") (JNumber 7) "hi" [publicKey bob] None 0%nat
    = (Ok w, g') /\
    protected_header (EnvelopeObject w) = Ok header /\
    get "enc" (Some header) = Ok (Some (JString "A256GCM")) /\
    get "typ" (Some header) = Ok (Some (JNumber 7)) /\
    unpackMessage (EnvelopeObject w) (raw_keys bob)
    = Ok {| message := "hi"; recipientKey := Base58.encode (publicKey bob); senderKey := None |} /\
    unpackMessage (EnvelopeText (JSON_stringify w)) (raw_keys bob)
    = Ok {| message := "hi"; recipientKey := Base58.encode (publicKey bob); senderKey := None |}.
Proof.
  apply (proj2 (proj2 (proj2
           (unpack_text_or_object_any_tags (S := sodium) (J := json_codec) (SL := sodium_laws) (JL := json_laws))))
           (JString "A256GCM") (JNumber 7) "hi" (publicKey bob) (privateKey bob) [] None 0%nat).
  - reflexivity.
  - reflexivity.
  - apply keypair_of_fill.
  - constructor.
  - exact I.
Defined.

Lemma unpack_pack_first_recipient_witness :
  exists env g',
    packMessage "hi" [publicKey bob; publicKey carol] (Some alice) 0%nat = (Ok env, g') /\
    unpackMessage (EnvelopeText env) (raw_keys bob)
    = Ok {| message := "hi";
            recipientKey := Base58.encode (publicKey bob);
            senderKey := Some (Base58.encode (publicKey alice)) |}.
Proof.
  apply (unpack_pack_first_recipient (S := sodium) (J := json_codec) (SL := sodium_laws) (JL := json_laws)
           "hi" (publicKey bob) (privateKey bob) [publicKey carol] (Some alice) 0%nat).
  - apply keypair_of_fill.
  - constructor; [apply public_key_fill | constructor].
  - apply keypair_of_fill.
Defined.

Lemma signed_attachment_integrity_witness :
  exists att,
    signedAttachment payload alice = Ok att /\
    verifySignedAttachment att = Ok true /\
    decodeSignedAttachment att = Ok payload.
Proof.
  destruct (signed_attachment_integrity (S := sodium) (J := json_codec) (SL := sodium_laws) (JL := json_laws) payload alice)
    as (att & sig & Hs & Hv & Hd & _).
  - reflexivity.
  - apply keypair_of_fill.
  - exists att. repeat (split; [assumption|]). assumption.
Defined.

End Witnesses.

(** * The further properties on the reference platform *)

Module CoverageWitnesses.
Import Reference ReferenceFacts.
Local Open Scope string_scope.

Lemma Ed25519PubEncoder_encode_shape_witness :
  Ed25519PubEncoder.startsWith (Ed25519PubEncoder.encode (publicKey bob)) "did:key:z6Mk" = true /\
  String.length (Ed25519PubEncoder.encode (publicKey bob)) = 56%nat.
Proof.
  apply (Ed25519PubEncoder_encode_shape (publicKey bob)); [apply fill_bytes | reflexivity].
Defined.

Lemma strB64dec_inverts_b64url_witness :
  strB64dec (b64url (Str "hi") false) = Ok "hi".
Proof.
  apply (proj1 (strB64dec_inverts_b64url (S := sodium) (SL := sodium_laws) "hi") false).
Defined.

Lemma decodeSignedAttachment_reads_only_the_payload_witness :
  decodeSignedAttachment
    {| mime_type := "text/plain";
       data_base64 := b64url (Str (JSON_stringify payload)) true;
       data_jws := {| jws_header_kid := ""; jws_protected := ""; jws_signature := "" |} |}
  = Ok payload.
Proof.
  apply (decodeSignedAttachment_reads_only_the_payload
           (S := sodium) (J := json_codec) (SL := sodium_laws) (JL := json_laws)
           payload true "text/plain"
           {| jws_header_kid := ""; jws_protected := ""; jws_signature := "" |}).
  reflexivity.
Defined.


Lemma unpack_keys_as_base58_text_witness :
  unpackMessage (EnvelopeText packed_envelope)
    {| publicKeyArg := Str (Base58.encode (publicKey bob));
       privateKeyArg := Str (Base58.encode (privateKey bob)) |}
  = unpackMessage (EnvelopeText packed_envelope) (raw_keys bob).
Proof.
  refine (proj1 (unpack_keys_as_base58_text (S := sodium) (J := json_codec)
                   (EnvelopeText packed_envelope) (publicKey bob) (privateKey bob)
                   (fill_bytes _ _) _)).
  apply is_bytes_forallb. reflexivity.
Defined.

Lemma unpack_rejects_key_text_witness :
  unpackMessage stripped_envelope {| publicKeyArg := Str "0OIl"; privateKeyArg := Bin [] |}
  = Throw Base58Error.
Proof.
  refine (proj1 (unpack_rejects_key_text (S := sodium) (J := json_codec)
                   stripped_envelope _ "0OIl" "O"%char eq_refl _ eq_refl) (Bin [])).
  right. left. reflexivity.
Defined.

Lemma pack_for_nobody_witness :
  exists env g',
    packMessage "hi" [] (Some alice) 0%nat = (Ok env, g') /\
    unpackMessage (EnvelopeText env) (raw_keys bob) = Throw RecipientNotFound.
Proof.
  destruct (pack_for_nobody (S := sodium) (J := json_codec) (SL := sodium_laws) (JL := json_laws)
              "hi" (Some alice) 0%nat) as (env & g' & Hpack & Hun).
  exists env, g'. split; [exact Hpack|].
  apply (Hun (raw_keys bob) (publicKey bob) (privateKey bob)); reflexivity.
Defined.

Lemma pack_rejects_unconvertible_keys_witness :
  fst (packMessage "hi" ([publicKey bob] ++ [1; 2; 3] :: [publicKey carol]) None 0%nat)
  = Throw (SodiumError "crypto_sign_ed25519_pk_to_curve25519").
Proof.
  apply (proj1 (pack_rejects_unconvertible_keys
                  (S := sodium) (J := json_codec) (SL := sodium_laws) "hi" 0%nat)
           [publicKey bob] [1; 2; 3] [publicKey carol] None).
  - constructor; [apply public_key_fill | constructor].
  - exact I.
  - reflexivity.
Defined.

Lemma every_block_opens_for_its_recipient_witness :
  exists recipsJson cek g' rs,
    prepareRecipientKeys (map publicKey [bob; carol]) (Some alice) 0%nat
    = (Ok (recipsJson, cek), g') /\
    JSON_parse recipsJson
    = Some (header_json (Some alice) (JString "xchacha20poly1305_ietf") rs (JString "JWM/1.0")) /\
    Forall2 (fun kp r =>
               forall later,
                 locateRecKey (Some (JArray (r :: later))) (publicKey kp) (privateKey kp)
                 = Ok (cek, Some (Base58.encode (publicKey alice)),
                       Base58.encode (publicKey kp)))
            [bob; carol] rs.
Proof.
  apply (every_block_opens_for_its_recipient
           (S := sodium) (J := json_codec) (SL := sodium_laws) (JL := json_laws)
           [bob; carol] (Some alice) 0%nat).
  - constructor; [apply keypair_of_fill | constructor; [apply keypair_of_fill | constructor]].
  - apply keypair_of_fill.
Defined.

Lemma unpack_with_key_of_other_length_witness :
  exists env g',
    packMessage "hi" [publicKey bob] None 0%nat = (Ok env, g') /\
    unpackMessage (EnvelopeText env) {| publicKeyArg := Bin [1; 2; 3]; privateKeyArg := Bin [] |}
    = Throw (SodiumError "memcmp").
Proof.
  destruct (unpack_with_key_of_other_length
              (S := sodium) (J := json_codec) (SL := sodium_laws) (JL := json_laws)
              "hi" (publicKey bob) [] None 0%nat) as (env & g' & Hpack & Hun).
  - apply public_key_fill.
  - constructor.
  - exact I.
  - exists env, g'. split; [exact Hpack|]. apply Hun. cbn. lia.
Defined.

Lemma unpack_reports_first_kid_witness :
  exists header recipients first rest h,
    protected_header (EnvelopeText packed_envelope) = Ok header /\
    get "recipients" (Some header) = Ok recipients /\
    for_in_values recipients = first :: rest /\
    get "header" (Some first) = Ok h /\
    get "kid" h
    = Ok (Some (JString
                  (recipientKey
                     {| message := "hi";
                        recipientKey := Base58.encode (publicKey bob);
                        senderKey := Some (Base58.encode (publicKey alice)) |}))).
Proof.
  assert (unpackMessage (EnvelopeText packed_envelope) (raw_keys bob)
          = Ok {| message := "hi";
                  recipientKey := Base58.encode (publicKey bob);
                  senderKey := Some (Base58.encode (publicKey alice)) |}) as H
    by (vm_compute; reflexivity).
  exact (unpack_reports_first_kid (S := sodium) (J := json_codec) _ _ _ H).
Defined.

Lemma unpack_malformed_recipient_witness :
  unpackMessage malformed_envelope (raw_keys bob) = Throw MalformedRecipient.
Proof.
  apply (unpack_malformed_recipient (S := sodium) (J := json_codec)
           malformed_envelope (raw_keys bob) (publicKey bob) (privateKey bob)
           (header_json None (JString "xchacha20poly1305_ietf")
              [JObject [("header", JObject [])]] (JString "JWM/1.0"))
           "Anoncrypt" (Some (JArray [JObject [("header", JObject [])]]))
           (JObject [("header", JObject [])]) []).
  - reflexivity.
  - reflexivity.
  - vm_compute. reflexivity.
  - reflexivity.
  - right. reflexivity.
  - reflexivity.
  - reflexivity.
  - right. reflexivity.
Defined.

Lemma unpack_ignores_kid_mismatch_witness :
  exists w,
    unpackMessage (EnvelopeObject w) (raw_keys bob)
    = Ok {| message := "hi";
            recipientKey := Base58.encode (publicKey carol);
            senderKey := None |}.
Proof.
  destruct (unpack_ignores_kid_mismatch
              (S := sodium) (J := json_codec) (SL := sodium_laws) (JL := json_laws)
              "hi" (publicKey bob) (privateKey bob) (publicKey carol) (fill 1 32) (fill 2 12)
              0%nat) as (cpk & _ & H).
  - apply keypair_of_fill.
  - apply fill_bytes.
  - reflexivity.
  - apply fill_bytes.
  - reflexivity.
  - apply fill_bytes.
  - reflexivity.
  - eexists. exact H.
Defined.

Lemma unpack_mode_follows_entry_witness :
  exists w header,
    protected_header (EnvelopeObject w) = Ok header /\
    get "alg" (Some header) = Ok (Some (JString "Anoncrypt")) /\
    unpackMessage (EnvelopeObject w) (raw_keys bob)
    = Ok {| message := "hi";
            recipientKey := Base58.encode (publicKey bob);
            senderKey := Some (Base58.encode (publicKey alice)) |}.
Proof.
  destruct (unpack_mode_follows_entry
              (S := sodium) (J := json_codec) (SL := sodium_laws) (JL := json_laws)
              "hi" (publicKey bob) (privateKey bob) (publicKey alice) (privateKey alice)
              (fill 1 32) (fill 3 24) (fill 2 12) 0%nat) as (cpk & cskA & _ & _ & Halg & H).
  - apply keypair_of_fill.
  - apply keypair_of_fill.
  - apply fill_bytes.
  - reflexivity.
  - apply fill_bytes.
  - reflexivity.
  - apply fill_bytes.
  - reflexivity.
  - do 2 eexists. split; [|split; [exact Halg | exact H]].
    apply (protected_header_packed_object (S := sodium) (J := json_codec)
             (SL := sodium_laws) (JL := json_laws)); [reflexivity | reflexivity |].
    cbn [forallb]. now rewrite recipient_block_wf.
Defined.

Lemma signedAttachment_names_its_signer_witness :
  exists att,
    signedAttachment payload alice = Ok att /\
    Ed25519PubEncoder.decode (jws_header_kid (data_jws att)) = Ok (publicKey alice).
Proof.
  destruct (signedAttachment_names_its_signer
              (S := sodium) (J := json_codec) (SL := sodium_laws) (JL := json_laws)
              payload alice) as (att & header & jwk & Hs & _ & _ & Hkid & _).
  - apply keypair_of_fill.
  - exists att. split; assumption.
Defined.

Lemma generated_keys_pack_unpack_sign_witness :
  let '(alice, g1) := generateKeyPair (S := sodium) 0%nat in
  let '(bob, g2) := generateKeyPair g1 in
  match alice, bob with
  | Ok alice, Ok bob =>
      (exists env g3,
         packMessage "hi" [publicKey bob] (Some alice) g2 = (Ok env, g3) /\
         unpackMessage (EnvelopeText env) (raw_keys bob)
         = Ok {| message := "hi";
                 recipientKey := Base58.encode (publicKey bob);
                 senderKey := Some (Base58.encode (publicKey alice)) |}) /\
      (exists att,
         signedAttachment payload alice = Ok att /\
         verifySignedAttachment att = Ok true /\
         decodeSignedAttachment att = Ok payload)
  | _, _ => False
  end.
Proof.
  apply (generated_keys_pack_unpack_sign
           (S := sodium) (J := json_codec) (SL := sodium_laws) (JL := json_laws)
           "hi" payload 0%nat).
  reflexivity.
Defined.

End CoverageWitnesses.
